(** * Form-field feature extraction and corpus construction

    A shallow embedding of [packages/model-training/src/features.py] and
    [packages/model-training/src/dataset.py], and of the label tables and
    the loader of [packages/model-training/src/train.py].

    Conventions of the embedding.
    - Python [str] is [string]; characters are read as ASCII code points, and
      [str.lower] and the [re.I] flag fold the letters A-Z.
    - Python [int] is [Z].  Python [float] is an exact rational ([Q]): the
      double-precision rounding of [/] and [*] is not modelled.  The
      [np.float32] conversion of [to_vector] is modelled as numpy does it:
      the number is taken as a double first (an int is rounded to the
      nearest double, with OverflowError when it is too large for one; the
      rational of a float is rounded to the double it stands for) and the
      double is then cast to binary32.
    - A [FieldFeatures] instance is its attribute dictionary; instances live
      in a heap and are referred to by address, because the attribute-copy
      loop of [augment_dataset] stores a bound method, which keeps a
      reference to the instance it was taken from.
    - [random] is a tape of uniform draws from [0, 1) read through a cursor.
    - A parsed document is a tree of tags; [BeautifulSoup(html, ...)] itself
      is outside the model. *)

From Stdlib Require Import ZArith QArith Qround Qminmax String Ascii List Lia Lqa Bool.
From Stdlib Require Import SpecFloat.
From stdpp Require Import base option list gmap strings.

Import ListNotations.
Local Open Scope string_scope.
Local Open Scope list_scope.

(** ** Python built-ins used by the source *)
Module Py.

(** [c.lower()] for one ASCII character. *)
Definition lower_char (c : ascii) : ascii :=
  let n := nat_of_ascii c in
  if (65 <=? n)%nat && (n <=? 90)%nat then ascii_of_nat (n + 32) else c.

(** [s.lower()]. *)
Fixpoint lower (s : string) : string :=
  match s with
  | EmptyString => EmptyString
  | String c r => String (lower_char c) (lower r)
  end.

(** [s.startswith(p)]. *)
Fixpoint startswith (p s : string) : bool :=
  match p, s with
  | EmptyString, _ => true
  | String a p', String b s' => Ascii.eqb a b && startswith p' s'
  | String _ _, EmptyString => false
  end.

(** [needle in hay]. *)
Fixpoint contains (needle hay : string) : bool :=
  startswith needle hay ||
  match hay with
  | EmptyString => false
  | String _ r => contains needle r
  end.

(** Truth value of a string: [if s]. *)
Definition truthy (s : string) : bool :=
  match s with EmptyString => false | String _ _ => true end.

(** [len(s)] as a float operand. *)
Definition len (s : string) : Q := inject_Z (Z.of_nat (String.length s)).

(** [min(x, y)]: the second argument is returned only when it is strictly
    smaller. *)
Definition min (x y : Q) : Q := if Qle_bool x y then x else y.

(** A compiled pattern [re.compile(src, re.I)].  The sources used by the
    program are literals and one alternation of literals. *)
Inductive pattern :=
| Lit (s : string)
| Alt (l r : pattern).

(** [bool(p.search(text))]. *)
Fixpoint search (p : pattern) (text : string) : bool :=
  match p with
  | Lit s => contains (lower s) (lower text)
  | Alt l r => search l text || search r text
  end.

End Py.

(** ** features.py *)
Module Features.

(** A number stored in an attribute: Python does not enforce the
    annotations of the dataclass. *)
Inductive number :=
| PyInt (z : Z)
| PyFloat (q : Q).

Definition to_Q (n : number) : Q :=
  match n with PyInt z => inject_Z z | PyFloat q => q end.

(** Heap address of a [FieldFeatures] instance. *)
Definition addr := nat.

(** class FieldFeatures: the 45 dataclass fields, followed by the two
    entries that [setattr] can add to the instance dictionary and that then
    shadow the methods of the class. *)
Record FieldFeatures := mkFieldFeatures {
  type_text : number;
  type_email : number;
  type_password : number;
  type_tel : number;
  type_number : number;
  type_search : number;
  type_url : number;
  type_other : number;
  auto_username : number;
  auto_email : number;
  auto_current_password : number;
  auto_new_password : number;
  auto_one_time_code : number;
  auto_off : number;
  auto_other : number;
  name_has_user : number;
  name_has_login : number;
  name_has_email : number;
  name_has_pass : number;
  name_length : number;
  id_has_user : number;
  id_has_login : number;
  id_has_email : number;
  id_has_pass : number;
  id_length : number;
  placeholder_has_user : number;
  placeholder_has_email : number;
  placeholder_has_pass : number;
  placeholder_length : number;
  aria_label_has_user : number;
  aria_label_has_email : number;
  aria_label_has_pass : number;
  aria_label_length : number;
  parent_is_form : number;
  parent_is_div : number;
  parent_is_section : number;
  sibling_count : number;
  has_password_sibling : number;
  has_email_sibling : number;
  form_has_submit : number;
  form_action_has_login : number;
  is_required : number;
  has_placeholder : number;
  has_aria_label : number;
  inputmode_numeric : number;
  (* instance-dictionary entry "to_vector": a method bound to this address *)
  own_to_vector : option addr;
  (* instance-dictionary entry "feature_names" present *)
  own_feature_names : bool
}.

(** [FieldFeatures()]: every field at its default. *)
Definition new_FieldFeatures : FieldFeatures :=
  let i := PyInt 0 in
  let f := PyFloat 0 in
  mkFieldFeatures i i i i i i i i  i i i i i i i
                  f f f f f  f f f f f  f f f f  f f f f
                  i i i f i i i i  i i i i  None false.

(** The binary float of precision [prec] and exponent bound [emax] nearest
    to [q], ties to even; an infinity when [q] is beyond the range. *)
Definition round_Q (prec emax : Z) (q : Q) : spec_float :=
  let r := Qred q in
  let round (s : bool) (n : positive) : spec_float :=
    let '(m, e, l) := SFdiv_core_binary prec emax (Zpos n) 0 (Zpos (Qden r)) 0 in
    binary_round_aux prec emax s m e l in
  match Qnum r with
  | Z0 => S754_zero false
  | Zpos n => round false n
  | Zneg n => round true n
  end.

Definition float64_of_Q : Q -> spec_float := round_Q 53 1024.

(** [float(x)], as numpy calls it on an element of the list: a float is the
    double it is; an int is rounded to the nearest double, and
    OverflowError ([None]) is raised when it is too large for one. *)
Definition as_double (n : number) : option spec_float :=
  match n with
  | PyFloat q => Some (float64_of_Q q)
  | PyInt z =>
      match float64_of_Q (inject_Z z) with
      | S754_infinity _ => None
      | d => Some d
      end
  end.

(** The cast of a double to float32: the nearest binary32 value, ties to
    even, an infinity beyond the range. *)
Definition float32_of_double (d : spec_float) : spec_float :=
  match d with
  | S754_finite s m e => binary_round 24 128 s m e
  | _ => d
  end.

(** The float32 element that numpy stores for [n]; [None] is
    OverflowError. *)
Definition float32 (n : number) : option spec_float :=
  float32_of_double <$> as_double n.

(** [FieldFeatures.to_vector(self)]: [np.array([...], dtype=np.float32)];
    [None] is OverflowError. *)
Definition to_vector (self : FieldFeatures) : option (list spec_float) :=
  mapM float32
    [
      type_text self;
      type_email self;
      type_password self;
      type_tel self;
      type_number self;
      type_search self;
      type_url self;
      type_other self;
      auto_username self;
      auto_email self;
      auto_current_password self;
      auto_new_password self;
      auto_one_time_code self;
      auto_off self;
      auto_other self;
      name_has_user self;
      name_has_login self;
      name_has_email self;
      name_has_pass self;
      name_length self;
      id_has_user self;
      id_has_login self;
      id_has_email self;
      id_has_pass self;
      id_length self;
      placeholder_has_user self;
      placeholder_has_email self;
      placeholder_has_pass self;
      placeholder_length self;
      aria_label_has_user self;
      aria_label_has_email self;
      aria_label_has_pass self;
      aria_label_length self;
      parent_is_form self;
      parent_is_div self;
      parent_is_section self;
      sibling_count self;
      has_password_sibling self;
      has_email_sibling self;
      form_has_submit self;
      form_action_has_login self;
      is_required self;
      has_placeholder self;
      has_aria_label self;
      inputmode_numeric self
    ].

(** [FieldFeatures.feature_names()]. *)
Definition feature_names : list string :=
  [
    "type_text";
    "type_email";
    "type_password";
    "type_tel";
    "type_number";
    "type_search";
    "type_url";
    "type_other";
    "auto_username";
    "auto_email";
    "auto_current_password";
    "auto_new_password";
    "auto_one_time_code";
    "auto_off";
    "auto_other";
    "name_has_user";
    "name_has_login";
    "name_has_email";
    "name_has_pass";
    "name_length";
    "id_has_user";
    "id_has_login";
    "id_has_email";
    "id_has_pass";
    "id_length";
    "placeholder_has_user";
    "placeholder_has_email";
    "placeholder_has_pass";
    "placeholder_length";
    "aria_label_has_user";
    "aria_label_has_email";
    "aria_label_has_pass";
    "aria_label_length";
    "parent_is_form";
    "parent_is_div";
    "parent_is_section";
    "sibling_count";
    "has_password_sibling";
    "has_email_sibling";
    "form_has_submit";
    "form_action_has_login";
    "is_required";
    "has_placeholder";
    "has_aria_label";
    "inputmode_numeric"
  ].

(** [getattr(o, name)] for a dataclass field. *)
Definition getfield (name : string) (o : FieldFeatures) : option number :=
  if String.eqb name "type_text" then Some (type_text o)
  else if String.eqb name "type_email" then Some (type_email o)
  else if String.eqb name "type_password" then Some (type_password o)
  else if String.eqb name "type_tel" then Some (type_tel o)
  else if String.eqb name "type_number" then Some (type_number o)
  else if String.eqb name "type_search" then Some (type_search o)
  else if String.eqb name "type_url" then Some (type_url o)
  else if String.eqb name "type_other" then Some (type_other o)
  else if String.eqb name "auto_username" then Some (auto_username o)
  else if String.eqb name "auto_email" then Some (auto_email o)
  else if String.eqb name "auto_current_password" then Some (auto_current_password o)
  else if String.eqb name "auto_new_password" then Some (auto_new_password o)
  else if String.eqb name "auto_one_time_code" then Some (auto_one_time_code o)
  else if String.eqb name "auto_off" then Some (auto_off o)
  else if String.eqb name "auto_other" then Some (auto_other o)
  else if String.eqb name "name_has_user" then Some (name_has_user o)
  else if String.eqb name "name_has_login" then Some (name_has_login o)
  else if String.eqb name "name_has_email" then Some (name_has_email o)
  else if String.eqb name "name_has_pass" then Some (name_has_pass o)
  else if String.eqb name "name_length" then Some (name_length o)
  else if String.eqb name "id_has_user" then Some (id_has_user o)
  else if String.eqb name "id_has_login" then Some (id_has_login o)
  else if String.eqb name "id_has_email" then Some (id_has_email o)
  else if String.eqb name "id_has_pass" then Some (id_has_pass o)
  else if String.eqb name "id_length" then Some (id_length o)
  else if String.eqb name "placeholder_has_user" then Some (placeholder_has_user o)
  else if String.eqb name "placeholder_has_email" then Some (placeholder_has_email o)
  else if String.eqb name "placeholder_has_pass" then Some (placeholder_has_pass o)
  else if String.eqb name "placeholder_length" then Some (placeholder_length o)
  else if String.eqb name "aria_label_has_user" then Some (aria_label_has_user o)
  else if String.eqb name "aria_label_has_email" then Some (aria_label_has_email o)
  else if String.eqb name "aria_label_has_pass" then Some (aria_label_has_pass o)
  else if String.eqb name "aria_label_length" then Some (aria_label_length o)
  else if String.eqb name "parent_is_form" then Some (parent_is_form o)
  else if String.eqb name "parent_is_div" then Some (parent_is_div o)
  else if String.eqb name "parent_is_section" then Some (parent_is_section o)
  else if String.eqb name "sibling_count" then Some (sibling_count o)
  else if String.eqb name "has_password_sibling" then Some (has_password_sibling o)
  else if String.eqb name "has_email_sibling" then Some (has_email_sibling o)
  else if String.eqb name "form_has_submit" then Some (form_has_submit o)
  else if String.eqb name "form_action_has_login" then Some (form_action_has_login o)
  else if String.eqb name "is_required" then Some (is_required o)
  else if String.eqb name "has_placeholder" then Some (has_placeholder o)
  else if String.eqb name "has_aria_label" then Some (has_aria_label o)
  else if String.eqb name "inputmode_numeric" then Some (inputmode_numeric o)
  else None.

(** [setattr(o, name, v)] for a dataclass field; other names are handled by
    the callers. *)
Definition setfield (name : string) (v : number) (o : FieldFeatures) : FieldFeatures :=
  let upd (field : string) (old : number) : number :=
    if String.eqb name field then v else old in
  {|
    type_text := upd "type_text" (type_text o);
    type_email := upd "type_email" (type_email o);
    type_password := upd "type_password" (type_password o);
    type_tel := upd "type_tel" (type_tel o);
    type_number := upd "type_number" (type_number o);
    type_search := upd "type_search" (type_search o);
    type_url := upd "type_url" (type_url o);
    type_other := upd "type_other" (type_other o);
    auto_username := upd "auto_username" (auto_username o);
    auto_email := upd "auto_email" (auto_email o);
    auto_current_password := upd "auto_current_password" (auto_current_password o);
    auto_new_password := upd "auto_new_password" (auto_new_password o);
    auto_one_time_code := upd "auto_one_time_code" (auto_one_time_code o);
    auto_off := upd "auto_off" (auto_off o);
    auto_other := upd "auto_other" (auto_other o);
    name_has_user := upd "name_has_user" (name_has_user o);
    name_has_login := upd "name_has_login" (name_has_login o);
    name_has_email := upd "name_has_email" (name_has_email o);
    name_has_pass := upd "name_has_pass" (name_has_pass o);
    name_length := upd "name_length" (name_length o);
    id_has_user := upd "id_has_user" (id_has_user o);
    id_has_login := upd "id_has_login" (id_has_login o);
    id_has_email := upd "id_has_email" (id_has_email o);
    id_has_pass := upd "id_has_pass" (id_has_pass o);
    id_length := upd "id_length" (id_length o);
    placeholder_has_user := upd "placeholder_has_user" (placeholder_has_user o);
    placeholder_has_email := upd "placeholder_has_email" (placeholder_has_email o);
    placeholder_has_pass := upd "placeholder_has_pass" (placeholder_has_pass o);
    placeholder_length := upd "placeholder_length" (placeholder_length o);
    aria_label_has_user := upd "aria_label_has_user" (aria_label_has_user o);
    aria_label_has_email := upd "aria_label_has_email" (aria_label_has_email o);
    aria_label_has_pass := upd "aria_label_has_pass" (aria_label_has_pass o);
    aria_label_length := upd "aria_label_length" (aria_label_length o);
    parent_is_form := upd "parent_is_form" (parent_is_form o);
    parent_is_div := upd "parent_is_div" (parent_is_div o);
    parent_is_section := upd "parent_is_section" (parent_is_section o);
    sibling_count := upd "sibling_count" (sibling_count o);
    has_password_sibling := upd "has_password_sibling" (has_password_sibling o);
    has_email_sibling := upd "has_email_sibling" (has_email_sibling o);
    form_has_submit := upd "form_has_submit" (form_has_submit o);
    form_action_has_login := upd "form_action_has_login" (form_action_has_login o);
    is_required := upd "is_required" (is_required o);
    has_placeholder := upd "has_placeholder" (has_placeholder o);
    has_aria_label := upd "has_aria_label" (has_aria_label o);
    inputmode_numeric := upd "inputmode_numeric" (inputmode_numeric o);
    own_to_vector := own_to_vector o;
    own_feature_names := own_feature_names o
  |}.

End Features.


(** ** The parse tree handed out by BeautifulSoup *)
Module Bs4.

(** A page element: a tag with its attribute dictionary and contents, or a
    run of text. *)
#[warnings="-register-all"]
Inductive node :=
| Tag (name : string) (attrs : gmap string string) (contents : list node)
| NavigableString (text : string).

Definition name (n : node) : string :=
  match n with Tag nm _ _ => nm | NavigableString _ => "" end.

Definition attrs (n : node) : gmap string string :=
  match n with Tag _ a _ => a | NavigableString _ => ∅ end.

Definition contents (n : node) : list node :=
  match n with Tag _ _ c => c | NavigableString _ => [] end.

Definition is_tag (n : node) : bool :=
  match n with Tag _ _ _ => true | NavigableString _ => false end.

(** [tag.get(key)]. *)
Definition get (n : node) (key : string) : option string := attrs n !! key.

(** [tag.get(key, default)]. *)
Definition get_default (n : node) (key dflt : string) : string :=
  default dflt (get n key).

(** [a == b]: equality of tags is structural (same name, same attribute
    dictionary, equal contents), not identity. *)
Fixpoint eq (a b : node) : bool :=
  match a, b with
  | Tag n1 a1 c1, Tag n2 a2 c2 =>
      String.eqb n1 n2 && bool_decide (a1 = a2) &&
      (fix all2 (l1 l2 : list node) {struct l1} : bool :=
         match l1, l2 with
         | [], [] => true
         | x :: l1', y :: l2' => eq x y && all2 l1' l2'
         | _, _ => false
         end) c1 c2
  | NavigableString s1, NavigableString s2 => String.eqb s1 s2
  | _, _ => false
  end.

(** [a != b]. *)
Definition ne (a b : node) : bool := negb (eq a b).

(** An element together with the chain of its ancestors, nearest first;
    the last ancestor of an element of a parsed page is the document. *)
Record element := mkElement {
  elem : node;
  parents : list node
}.

(** Every element below [n], in document order. *)
Fixpoint descendants (above : list node) (n : node) : list element :=
  match n with
  | Tag _ _ cs =>
      (fix walk (l : list node) : list element :=
         match l with
         | [] => []
         | c :: l' =>
             mkElement c (n :: above) :: descendants (n :: above) c ++ walk l'
         end) cs
  | NavigableString _ => []
  end.

Definition named (nm : string) (n : node) : bool :=
  is_tag n && String.eqb (name n) nm.

(** [soup.find_all(nm)]. *)
Definition find_all (soup : node) (nm : string) : list element :=
  filter (fun e => named nm (elem e)) (descendants [] soup).

(** [tag.find_all(nm, recursive=False)]. *)
Definition find_all_children (tag : node) (nm : string) : list node :=
  filter (fun c => named nm c) (contents tag).

(** [e.find_parent()]. *)
Definition find_parent (e : element) : option node := head (parents e).

(** [e.find_parent(nm)]. *)
Definition find_parent_named (e : element) (nm : string) : option node :=
  head (filter (fun p => named nm p) (parents e)).

(** [tag.find(names, attrs={key: value})]. *)
Definition find (tag : node) (names : list string) (key value : string)
  : option node :=
  head (filter (fun d => existsb (fun nm => named nm d) names &&
                         bool_decide (get d key = Some value))
               (map elem (descendants [] tag))).

End Bs4.

(** ** class FeatureExtractor *)
Module FeatureExtractor.
Import Py Bs4 Features.

Definition USERNAME_PATTERNS : list pattern :=
  [ Lit "user"; Lit "login"; Lit "usr"; Lit "uname"; Lit "account";
    Lit "acct"; Lit "signin"; Lit "sign-in"; Lit "session"; Lit "member";
    Lit "alias" ].

Definition EMAIL_PATTERNS : list pattern :=
  [ Lit "email"; Lit "e-mail"; Lit "mail" ].

Definition PASSWORD_PATTERNS : list pattern :=
  [ Lit "pass"; Lit "password"; Lit "pwd"; Lit "secret"; Lit "passphrase";
    Lit "key"; Lit "credential" ].

Definition TOTP_PATTERNS : list pattern :=
  [ Lit "totp"; Lit "otp"; Lit "2fa"; Lit "mfa"; Lit "two-factor";
    Lit "twofactor"; Lit "authenticat"; Lit "verification"; Lit "code";
    Lit "pin"; Lit "token" ].

(** The list [[re.compile(r"login", re.I)]] built at the call sites. *)
Definition LOGIN_PATTERN : list pattern := [ Lit "login" ].

(** [sum(1 for p in patterns if p.search(text))]. *)
Definition count_matches (text : string) (patterns : list pattern) : nat :=
  length (filter (fun p => search p text) patterns).

Definition _match_score (text : string) (patterns : list pattern) : Q :=
  if negb (truthy text) then 0
  else
    let matches := count_matches text patterns in
    match patterns with
    | _ :: _ =>
        Py.min (inject_Z (Z.of_nat matches)
                  / inject_Z (Z.of_nat (length patterns)) * 3) 1
    | [] => 0
    end.

Definition type_mapping : gmap string string :=
  {[ "text" := "type_text";
     "email" := "type_email";
     "password" := "type_password";
     "tel" := "type_tel";
     "number" := "type_number";
     "search" := "type_search";
     "url" := "type_url" ]}.

Definition _set_input_type (features : FieldFeatures) (input_type : string)
  : FieldFeatures :=
  match type_mapping !! input_type with
  | Some slot => setfield slot (PyInt 1) features
  | None => setfield "type_other" (PyInt 1) features
  end.

Definition _set_autocomplete (features : FieldFeatures) (autocomplete : string)
  : FieldFeatures :=
  let auto := lower autocomplete in
  if contains "username" auto then setfield "auto_username" (PyInt 1) features
  else if contains "email" auto then setfield "auto_email" (PyInt 1) features
  else if contains "current-password" auto
    then setfield "auto_current_password" (PyInt 1) features
  else if contains "new-password" auto
    then setfield "auto_new_password" (PyInt 1) features
  else if contains "one-time-code" auto
    then setfield "auto_one_time_code" (PyInt 1) features
  else if String.eqb auto "off" then setfield "auto_off" (PyInt 1) features
  else setfield "auto_other" (PyInt 1) features.

(** [1 if b else 0]. *)
Definition flag (b : bool) : number := PyInt (if b then 1 else 0).

(** The pattern of [re.search(r"login|signin|auth|session", action, re.I)]. *)
Definition ACTION_PATTERN : pattern :=
  Alt (Lit "login") (Alt (Lit "signin") (Alt (Lit "auth") (Lit "session"))).

(** One round of [for sibling in siblings] in [_extract_context_features]. *)
Definition sibling_step (input_elem : node) (features : FieldFeatures)
  (sibling : node) : FieldFeatures :=
  if ne sibling input_elem then
    let sibling_type := lower (get_default sibling "type" "") in
    let features :=
      if String.eqb sibling_type "password"
      then setfield "has_password_sibling" (PyInt 1) features else features in
    if String.eqb sibling_type "email"
    then setfield "has_email_sibling" (PyInt 1) features else features
  else features.

Definition _extract_context_features (features : FieldFeatures)
  (input_elem : element) : FieldFeatures :=
  let features :=
    match find_parent input_elem with
    | Some parent =>
        let parent_name :=
          if truthy (name parent) then lower (name parent) else "" in
        let features :=
          setfield "parent_is_form" (flag (String.eqb parent_name "form")) features in
        let features :=
          setfield "parent_is_div" (flag (String.eqb parent_name "div")) features in
        let features :=
          setfield "parent_is_section"
                   (flag (String.eqb parent_name "section")) features in
        let siblings := find_all_children parent "input" in
        let features :=
          setfield "sibling_count"
                   (PyFloat (inject_Z (Z.of_nat (length siblings)) / 10)) features in
        fold_left (sibling_step (elem input_elem)) siblings features
    | None => features
    end in
  match find_parent_named input_elem "form" with
  | Some form =>
      let submit_btn := find form ["button"; "input"] "type" "submit" in
      let features :=
        setfield "form_has_submit" (flag (bool_decide (is_Some submit_btn))) features in
      let action := get_default form "action" "" in
      setfield "form_action_has_login" (flag (search ACTION_PATTERN action)) features
  | None => features
  end.

(** The field stores of [extract_from_element], threaded through the local
    object [features]; the object itself is allocated by
    [extract_from_element] below. *)
Definition extract_fields (input_elem : element) : FieldFeatures :=
  let e := elem input_elem in
  let features := new_FieldFeatures in
  let input_type := lower (get_default e "type" "text") in
  let features := _set_input_type features input_type in
  let autocomplete := get_default e "autocomplete" "" in
  let features := _set_autocomplete features autocomplete in
  let name := get_default e "name" "" in
  let features := setfield "name_has_user" (PyFloat (_match_score name USERNAME_PATTERNS)) features in
  let features := setfield "name_has_login" (PyFloat (_match_score name LOGIN_PATTERN)) features in
  let features := setfield "name_has_email" (PyFloat (_match_score name EMAIL_PATTERNS)) features in
  let features := setfield "name_has_pass" (PyFloat (_match_score name PASSWORD_PATTERNS)) features in
  let features := setfield "name_length" (PyFloat (len name / 50)) features in
  let elem_id := get_default e "id" "" in
  let features := setfield "id_has_user" (PyFloat (_match_score elem_id USERNAME_PATTERNS)) features in
  let features := setfield "id_has_login" (PyFloat (_match_score elem_id LOGIN_PATTERN)) features in
  let features := setfield "id_has_email" (PyFloat (_match_score elem_id EMAIL_PATTERNS)) features in
  let features := setfield "id_has_pass" (PyFloat (_match_score elem_id PASSWORD_PATTERNS)) features in
  let features := setfield "id_length" (PyFloat (len elem_id / 50)) features in
  let placeholder := get_default e "placeholder" "" in
  let features := setfield "placeholder_has_user" (PyFloat (_match_score placeholder USERNAME_PATTERNS)) features in
  let features := setfield "placeholder_has_email" (PyFloat (_match_score placeholder EMAIL_PATTERNS)) features in
  let features := setfield "placeholder_has_pass" (PyFloat (_match_score placeholder PASSWORD_PATTERNS)) features in
  let features := setfield "placeholder_length" (PyFloat (len placeholder / 100)) features in
  let aria_label := get_default e "aria-label" "" in
  let features := setfield "aria_label_has_user" (PyFloat (_match_score aria_label USERNAME_PATTERNS)) features in
  let features := setfield "aria_label_has_email" (PyFloat (_match_score aria_label EMAIL_PATTERNS)) features in
  let features := setfield "aria_label_has_pass" (PyFloat (_match_score aria_label PASSWORD_PATTERNS)) features in
  let features := setfield "aria_label_length" (PyFloat (len aria_label / 100)) features in
  let features := _extract_context_features features input_elem in
  let features :=
    setfield "is_required" (flag (truthy (get_default e "required" ""))) features in
  let features := setfield "has_placeholder" (flag (truthy placeholder)) features in
  let features := setfield "has_aria_label" (flag (truthy aria_label)) features in
  setfield "inputmode_numeric"
           (flag (bool_decide (get e "inputmode" = Some "numeric"))) features.

End FeatureExtractor.

(** ** Objects, the heap and the random source *)
Module Runtime.
Import Features.

(** [dir(o)] for an instance of [FieldFeatures]: the attribute names of the
    instance and of its class, sorted (the names with underscores are those
    of CPython 3.10; the loop skips them). *)
Definition dir : list string :=
  [
    "__annotations__"; "__class__"; "__dataclass_fields__";
    "__dataclass_params__"; "__delattr__"; "__dict__"; "__dir__";
    "__doc__"; "__eq__"; "__format__"; "__ge__"; "__getattribute__";
    "__gt__"; "__hash__"; "__init__"; "__init_subclass__"; "__le__";
    "__lt__"; "__match_args__"; "__module__"; "__ne__"; "__new__";
    "__reduce__"; "__reduce_ex__"; "__repr__"; "__setattr__"; "__sizeof__";
    "__str__"; "__subclasshook__"; "__weakref__"; "aria_label_has_email";
    "aria_label_has_pass"; "aria_label_has_user"; "aria_label_length";
    "auto_current_password"; "auto_email"; "auto_new_password"; "auto_off";
    "auto_one_time_code"; "auto_other"; "auto_username"; "feature_names";
    "form_action_has_login"; "form_has_submit"; "has_aria_label";
    "has_email_sibling"; "has_password_sibling"; "has_placeholder";
    "id_has_email"; "id_has_login"; "id_has_pass"; "id_has_user";
    "id_length"; "inputmode_numeric"; "is_required"; "name_has_email";
    "name_has_login"; "name_has_pass"; "name_has_user"; "name_length";
    "parent_is_div"; "parent_is_form"; "parent_is_section";
    "placeholder_has_email"; "placeholder_has_pass";
    "placeholder_has_user"; "placeholder_length"; "sibling_count";
    "to_vector"; "type_email"; "type_number"; "type_other";
    "type_password"; "type_search"; "type_tel"; "type_text"; "type_url"
  ].

(** A value read by [getattr]. *)
Inductive value :=
| VNum (n : number)
| VBoundToVector (self : addr)  (* the method to_vector bound to an instance *)
| VFeatureNames.                (* the class method feature_names *)

(** The instance dictionary with its entries of the two method names
    replaced. *)
Definition with_own (tv : option addr) (fnames : bool) (o : FieldFeatures)
  : FieldFeatures :=
  mkFieldFeatures
    (type_text o) (type_email o) (type_password o) (type_tel o)
    (type_number o) (type_search o) (type_url o) (type_other o)
    (auto_username o) (auto_email o) (auto_current_password o)
    (auto_new_password o) (auto_one_time_code o) (auto_off o)
    (auto_other o) (name_has_user o) (name_has_login o) (name_has_email o)
    (name_has_pass o) (name_length o) (id_has_user o) (id_has_login o)
    (id_has_email o) (id_has_pass o) (id_length o) (placeholder_has_user o)
    (placeholder_has_email o) (placeholder_has_pass o)
    (placeholder_length o) (aria_label_has_user o) (aria_label_has_email o)
    (aria_label_has_pass o) (aria_label_length o) (parent_is_form o)
    (parent_is_div o) (parent_is_section o) (sibling_count o)
    (has_password_sibling o) (has_email_sibling o) (form_has_submit o)
    (form_action_has_login o) (is_required o) (has_placeholder o)
    (has_aria_label o) (inputmode_numeric o)
    tv fnames.

(** [hasattr(o, name)] for an instance of [FieldFeatures]. *)
Definition hasattr (name : string) : bool := bool_decide (name ∈ dir).

(** [getattr(o, name)] where [o] is the instance stored at [a]: the instance
    dictionary first, then the class. *)
Definition getattr (a : addr) (o : FieldFeatures) (name : string) : option value :=
  match getfield name o with
  | Some n => Some (VNum n)
  | None =>
      if String.eqb name "to_vector"
      then Some (VBoundToVector (default a (own_to_vector o)))
      else if String.eqb name "feature_names" then Some VFeatureNames
      else None
  end.

(** [setattr(o, name, v)].  The source stores a value only under the name
    it was read from; a method stored under another name, which the record
    cannot hold, leaves the object as it is. *)
Definition setattr (name : string) (v : value) (o : FieldFeatures) : FieldFeatures :=
  match v with
  | VNum n => setfield name n o
  | VBoundToVector self =>
      if String.eqb name "to_vector"
      then with_own (Some self) (own_feature_names o) o else o
  | VFeatureNames =>
      if String.eqb name "feature_names"
      then with_own (own_to_vector o) true o else o
  end.

(** The state of a run: the heap of [FieldFeatures] instances, and the
    tape of the values that [random.random()] returns with the number of
    values already drawn. *)
Record world := mkWorld {
  heap : list FieldFeatures;
  tape : nat -> Q;
  cursor : nat
}.

Inductive fault :=
| IndexError
| OverflowError
| ValueError
| BadAddress.   (* an address outside the heap: no Python reference is one *)

Inductive result (A : Type) :=
| Ok (a : A) (w : world)
| Raised (e : fault)
| OutOfFuel.
Arguments Ok {A} a w.
Arguments Raised {A} e.
Arguments OutOfFuel {A}.

Definition M (A : Type) : Type := world -> result A.

Definition ret {A} (a : A) : M A := fun w => Ok a w.

Definition bind {A B} (m : M A) (k : A -> M B) : M B :=
  fun w =>
    match m w with
    | Ok a w' => k a w'
    | Raised e => Raised e
    | OutOfFuel => OutOfFuel
    end.

Definition raise {A} (e : fault) : M A := fun _ => Raised e.

Definition out_of_fuel {A} : M A := fun _ => OutOfFuel.

(** Allocation of a new instance. *)
Definition alloc (o : FieldFeatures) : M addr :=
  fun w => Ok (length (heap w)) (mkWorld (heap w ++ [o]) (tape w) (cursor w)).

Definition load (a : addr) : M FieldFeatures :=
  fun w =>
    match heap w !! a with
    | Some o => Ok o w
    | None => Raised BadAddress
    end.

(** In-place update of the instance at [a]. *)
Definition update (a : addr) (f : FieldFeatures -> FieldFeatures) : M unit :=
  fun w =>
    match heap w !! a with
    | Some o => Ok tt (mkWorld (<[a := f o]> (heap w)) (tape w) (cursor w))
    | None => Raised BadAddress
    end.

(** [for x in l: body], with the loop-carried variables in [s]. *)
Fixpoint for_each {A S} (l : list A) (body : S -> A -> M S) (s : S) : M S :=
  match l with
  | [] => ret s
  | x :: l' => bind (body s x) (for_each l' body)
  end.

(** [random.random()]. *)
Definition random : M Q :=
  fun w => Ok (tape w (cursor w)) (mkWorld (heap w) (tape w) (S (cursor w))).

(** [random.uniform(a, b)]. *)
Definition uniform (a b : Q) : M Q :=
  bind random (fun r => ret (a + (b - a) * r)%Q).

(** [seq[i]], with Python's negative indices. *)
Definition index {A} (seq : list A) (i : Z) : option A :=
  if (0 <=? i)%Z then seq !! Z.to_nat i
  else if (- Z.of_nat (length seq) <=? i)%Z
       then seq !! Z.to_nat (Z.of_nat (length seq) + i)
       else None.

(** [random.choice(seq)]: the element at the draw scaled by the length;
    IndexError on the empty sequence. *)
Definition choice {A} (seq : list A) : M A :=
  match seq with
  | [] => raise IndexError
  | _ :: _ =>
      bind random (fun r =>
        match index seq (Qfloor (r * inject_Z (Z.of_nat (length seq)))) with
        | Some x => ret x
        | None => raise IndexError
        end)
  end.

(** [o.to_vector()] for the instance at [a]: attribute lookup finds the
    entry of the instance dictionary before the method of the class. *)
Definition call_to_vector (a : addr) : M (list spec_float) :=
  let method (self : FieldFeatures) : M (list spec_float) :=
    match to_vector self with
    | Some v => ret v
    | None => raise OverflowError
    end in
  bind (load a) (fun o =>
    match own_to_vector o with
    | Some self => bind (load self) method
    | None => method o
    end).

End Runtime.

Declare Scope run_scope.
Delimit Scope run_scope with run.
Notation "x <- m ;; k" := (Runtime.bind m (fun x => k))
  (at level 100, m at next level, right associativity) : run_scope.
Notation "m ;;; k" := (Runtime.bind m (fun _ => k))
  (at level 100, right associativity) : run_scope.

(** ** features.py, module level *)
Module FeaturesPy.
Import Py Bs4 Features Runtime.
Local Open Scope run_scope.

(** [FeatureExtractor.extract_from_element]: a new instance holding the
    extracted fields. *)
Definition extract_from_element (input_elem : element) : M addr :=
  alloc (FeatureExtractor.extract_fields input_elem).

(** One dictionary of the list returned by [extract_features_from_html]. *)
Record extracted := mkExtracted {
  ex_features : addr;
  ex_element_id : string;
  ex_element_name : string;
  ex_input_type : string
}.

Definition SKIPPED_TYPES : list string :=
  [ "hidden"; "submit"; "button"; "image"; "reset" ].

(** The body of [for input_elem in soup.find_all("input")]. *)
Definition extract_step (results : list extracted) (input_elem : element)
  : M (list extracted) :=
  let input_type := lower (get_default (elem input_elem) "type" "text") in
  if bool_decide (input_type ∈ SKIPPED_TYPES) then ret results   (* continue *)
  else
    features <- extract_from_element input_elem ;;
    ret (results ++
         [ mkExtracted features
             (get_default (elem input_elem) "id" "")
             (get_default (elem input_elem) "name" "")
             input_type ]).

(** [extract_features_from_html(html)], from the parse [soup] of [html]. *)
Definition extract_features_from_html (soup : node) : M (list extracted) :=
  for_each (find_all soup "input") extract_step [].

End FeaturesPy.

(** ** dataset.py *)
Module Dataset.
Import Py Bs4 Features Runtime FeaturesPy.
Local Open Scope run_scope.

Record TrainingSample := mkTrainingSample {
  features : addr;
  label : string;
  source : string;
  element_id : string;
  element_name : string
}.

(** An entry of [TEST_SITES] or of [NEGATIVE_EXAMPLES]: its name, its label
    dictionary when it has one, and the parse of its html. *)
Record site := mkSite {
  site_name : string;
  site_labels : option (gmap string string);
  site_html : node
}.

(** The body of the loop over [TEST_SITES] in [build_dataset]. *)
Definition site_step (samples : list TrainingSample) (s : site)
  : M (list TrainingSample) :=
  results <- extract_features_from_html (site_html s) ;;
  let labels := default ∅ (site_labels s) in
  for_each results
    (fun samples result =>
       let element_name := ex_element_name result in
       let label := default "none" (labels !! element_name) in
       ret (samples ++
            [ mkTrainingSample (ex_features result) label (site_name s)
                (ex_element_id result) element_name ]))
    samples.

(** The body of the loop over [NEGATIVE_EXAMPLES] in [build_dataset]. *)
Definition negative_step (samples : list TrainingSample) (example : site)
  : M (list TrainingSample) :=
  results <- extract_features_from_html (site_html example) ;;
  for_each results
    (fun samples result =>
       ret (samples ++
            [ mkTrainingSample (ex_features result) "none" (site_name example)
                (ex_element_id result) (ex_element_name result) ]))
    samples.

(** [build_dataset()], with the two module constants as arguments. *)
Definition build_dataset (TEST_SITES NEGATIVE_EXAMPLES : list site)
  : M (list TrainingSample) :=
  samples <- for_each TEST_SITES site_step [] ;;
  for_each NEGATIVE_EXAMPLES negative_step samples.

(** One round of [for attr in dir(base.features)] in [augment_dataset]. *)
Definition copy_attr (base new_features : addr) (_ : unit) (attr : string)
  : M unit :=
  if negb (startswith "_" attr) && hasattr attr then
    src <- load base ;;
    match getattr base src attr with
    | Some v => update new_features (setattr attr v)
    | None => ret tt
    end
  else ret tt.

Definition lt (x y : Q) : bool := negb (Qle_bool y x).

(** The body of [while len(augmented) < target_size] after a base sample
    with a label other than "none" has been picked. *)
Definition synthesize (base : TrainingSample) : M TrainingSample :=
  new_features <- alloc new_FieldFeatures ;;
  for_each dir (copy_attr (features base) new_features) tt ;;;
  r <- random ;;
  (if lt r 0.3 then
     update new_features (setfield "auto_username" (PyInt 0)) ;;;
     update new_features (setfield "auto_email" (PyInt 0)) ;;;
     update new_features (setfield "auto_current_password" (PyInt 0)) ;;;
     update new_features (setfield "auto_other" (PyInt 1))
   else ret tt) ;;;
  r <- random ;;
  (if lt r 0.2 && String.eqb (label base) "username" then
     u <- uniform 0.3 0.8 ;;
     update new_features (setfield "name_has_user" (PyFloat u)) ;;;
     u <- uniform 0.3 0.8 ;;
     update new_features (setfield "name_has_login" (PyFloat u))
   else ret tt) ;;;
  ret (mkTrainingSample new_features (label base)
         (source base ++ "_augmented") (element_id base) (element_name base)).

(** The [while] loop of [augment_dataset]; [fuel] bounds the number of
    rounds. *)
Fixpoint augment_loop (fuel : nat) (samples : list TrainingSample)
  (target_size : Z) (augmented : list TrainingSample)
  : M (list TrainingSample) :=
  if (Z.of_nat (length augmented) <? target_size)%Z then
    match fuel with
    | O => out_of_fuel
    | S fuel' =>
        base <- choice samples ;;
        if String.eqb (label base) "none"
        then augment_loop fuel' samples target_size augmented   (* continue *)
        else
          sample <- synthesize base ;;
          augment_loop fuel' samples target_size (augmented ++ [sample])
    end
  else ret augmented.

Definition augment_dataset (fuel : nat) (samples : list TrainingSample)
  (target_size : Z) : M (list TrainingSample) :=
  augment_loop fuel samples target_size samples.

(** A record of the list that [save_dataset] hands to [json.dump]. *)
Record row := mkRow {
  row_features : list spec_float;
  row_label : string;
  row_source : string;
  row_element_id : string;
  row_element_name : string
}.

(** [save_dataset(samples, path)]: the list [data] written to the file. *)
Definition save_dataset (samples : list TrainingSample) : M (list row) :=
  for_each samples
    (fun data sample =>
       v <- call_to_vector (features sample) ;;
       ret (data ++
            [ mkRow v (label sample) (source sample) (element_id sample)
                (element_name sample) ]))
    [].

End Dataset.

(** ** dataset.py, the main block *)
Module DatasetMain.
Import Dataset.

(** One round of [for s in augmented] over the dictionary [label_counts]:
    [label_counts[s.label] = label_counts.get(s.label, 0) + 1]. *)
Definition count_label (label_counts : gmap string Z) (s : TrainingSample)
  : gmap string Z :=
  <[label s := (default 0 (label_counts !! label s) + 1)%Z]> label_counts.

(** The dictionary [label_counts] that the main block prints. *)
Definition label_counts (augmented : list TrainingSample) : gmap string Z :=
  fold_left count_label augmented ∅.

End DatasetMain.

(** ** train.py *)
Module Train.
Import Features Runtime.

(** A dictionary built from its items in order, a later item replacing an
    earlier one with the same key. *)
Definition dict {K V} `{Countable K} (items : list (K * V)) : gmap K V :=
  fold_left (fun d kv => <[kv.1 := kv.2]> d) items ∅.

(** The items of [LABEL_MAPPING], in the order of the source. *)
Definition LABEL_ITEMS : list (string * Z) :=
  [ ("username", 0); ("password", 1); ("email", 2); ("totp", 3);
    ("none", 4) ]%Z.

Definition LABEL_MAPPING : gmap string Z := dict LABEL_ITEMS.

(** [{v: k for k, v in LABEL_MAPPING.items()}]. *)
Definition REVERSE_MAPPING : gmap Z string :=
  dict (map (fun kv => (kv.2, kv.1)) LABEL_ITEMS).

(** An item of the list that json.load returns: the numbers under
    "features" and the string under "label"; the other keys are not
    read. *)
Record record := mkRecord {
  rec_features : list number;
  rec_label : string
}.

(** The loop [for item in data] of [load_dataset], with the lists [X] and
    [y]; [np.array(item["features"], dtype=np.float32)] converts every
    number of the record as [to_vector] does. *)
Fixpoint load_loop (data : list record) (X : list (list spec_float))
  (y : list Z) : fault + list (list spec_float) * list Z :=
  match data with
  | [] => inr (X, y)
  | item :: data' =>
      match mapM float32 (rec_features item) with
      | None => inl OverflowError
      | Some features =>
          let label := default 4%Z (LABEL_MAPPING !! rec_label item) in
          load_loop data' (X ++ [ features ]) (y ++ [ label ])
      end
  end.

(** The rows of [X] have one length. *)
Definition rectangular (X : list (list spec_float)) : bool :=
  match X with
  | [] => true
  | v :: X' => forallb (fun v' => Nat.eqb (length v') (length v)) X'
  end.

(** [load_dataset(path)], from the list [data] that json.load returns: the
    arrays X and y as lists.  [np.array(X)] raises ValueError for rows of
    different lengths (numpy 1.24 and later). *)
Definition load_dataset (data : list record)
  : fault + list (list spec_float) * list Z :=
  match load_loop data [] [] with
  | inl e => inl e
  | inr (X, y) => if rectangular X then inr (X, y) else inl ValueError
  end.

(** [target_names] of [evaluate_model]. *)
Definition target_names : list string :=
  [ "username"; "password"; "email"; "totp"; "none" ].

End Train.

(** * Vocabulary of the properties *)

Import Py Bs4 Features FeatureExtractor Runtime FeaturesPy Dataset.

(** [s] occurs somewhere in [t]. *)
Definition Infix (s t : string) : Prop :=
  exists pre post, t = String.append pre (String.append s post).

(** The pattern occurs somewhere in the text, letter case ignored. *)
Inductive Matches : pattern -> string -> Prop :=
| Matches_lit s text : Infix (lower s) (lower text) -> Matches (Lit s) text
| Matches_alt_l l r text : Matches l text -> Matches (Alt l r) text
| Matches_alt_r l r text : Matches r text -> Matches (Alt l r) text.

(** [n] of the patterns of the list match the text. *)
Inductive MatchCount (text : string) : list pattern -> nat -> Prop :=
| MatchCount_nil : MatchCount text [] 0
| MatchCount_hit p ps n :
    Matches p text -> MatchCount text ps n -> MatchCount text (p :: ps) (S n)
| MatchCount_miss p ps n :
    ~ Matches p text -> MatchCount text ps n -> MatchCount text (p :: ps) n.

(** The slot selected for a lower-cased autocomplete value: the first of the
    substrings, in priority order, that occurs in it; then the exact value
    "off"; otherwise "other". *)
Inductive Classified (auto : string) : string -> Prop :=
| Classified_username :
    Infix "username" auto -> Classified auto "auto_username"
| Classified_email :
    ~ Infix "username" auto -> Infix "email" auto -> Classified auto "auto_email"
| Classified_current_password :
    ~ Infix "username" auto -> ~ Infix "email" auto ->
    Infix "current-password" auto -> Classified auto "auto_current_password"
| Classified_new_password :
    ~ Infix "username" auto -> ~ Infix "email" auto ->
    ~ Infix "current-password" auto ->
    Infix "new-password" auto -> Classified auto "auto_new_password"
| Classified_one_time_code :
    ~ Infix "username" auto -> ~ Infix "email" auto ->
    ~ Infix "current-password" auto -> ~ Infix "new-password" auto ->
    Infix "one-time-code" auto -> Classified auto "auto_one_time_code"
| Classified_off :
    ~ Infix "username" auto -> ~ Infix "email" auto ->
    ~ Infix "current-password" auto -> ~ Infix "new-password" auto ->
    ~ Infix "one-time-code" auto ->
    auto = "off" -> Classified auto "auto_off"
| Classified_other :
    ~ Infix "username" auto -> ~ Infix "email" auto ->
    ~ Infix "current-password" auto -> ~ Infix "new-password" auto ->
    ~ Infix "one-time-code" auto ->
    auto <> "off" -> Classified auto "auto_other".

(** The fields written by [_extract_context_features]. *)
Definition context_slots : list string :=
  [ "parent_is_form"; "parent_is_div"; "parent_is_section"; "sibling_count";
    "has_password_sibling"; "has_email_sibling"; "form_has_submit";
    "form_action_has_login" ].

(** The stores of [extract_from_element] up to the autocomplete
    classification. *)
Definition classified_part (e : element) : FieldFeatures :=
  _set_autocomplete
    (_set_input_type new_FieldFeatures (lower (get_default (elem e) "type" "text")))
    (get_default (elem e) "autocomplete" "").

Definition type_slots : list string :=
  [ "type_text"; "type_email"; "type_password"; "type_tel"; "type_number";
    "type_search"; "type_url"; "type_other" ].

Definition auto_slots : list string :=
  [ "auto_username"; "auto_email"; "auto_current_password";
    "auto_new_password"; "auto_one_time_code"; "auto_off"; "auto_other" ].

(** [x == 1] and [x == 0] on numbers. *)
Definition is_one (x : number) : bool :=
  match x with PyInt z => (z =? 1)%Z | PyFloat q => Qeq_bool q 1 end.

Definition is_zero (x : number) : bool :=
  match x with PyInt z => (z =? 0)%Z | PyFloat q => Qeq_bool q 0 end.

(** How many of the numbers are 1, and how many are 0. *)
Definition ones (l : list number) : nat := length (List.filter is_one l).
Definition zeros (l : list number) : nat := length (List.filter is_zero l).

Definition type_flags (f : FieldFeatures) : list number :=
  [ type_text f; type_email f; type_password f; type_tel f; type_number f;
    type_search f; type_url f; type_other f ].

Definition auto_flags (f : FieldFeatures) : list number :=
  [ auto_username f; auto_email f; auto_current_password f;
    auto_new_password f; auto_one_time_code f; auto_off f; auto_other f ].

(** ** Entries of the catalog, parsed *)
Module Catalog.

(** White space between two tags. *)
Definition ws : node := NavigableString (String "010"%char "          ").

Definition input (a : gmap string string) : node := Tag "input" a [].

Definition document (body : list node) : node := Tag "[document]" ∅ body.

(** TEST_SITES, "GitHub Login". *)
Definition github_login : node :=
  input {[ "type" := "text"; "name" := "login"; "id" := "login_field";
           "autocomplete" := "username" ]}.
Definition github_password : node :=
  input {[ "type" := "password"; "name" := "password"; "id" := "password";
           "autocomplete" := "current-password" ]}.
Definition github_commit : node :=
  input {[ "type" := "submit"; "name" := "commit"; "value" := "Sign in" ]}.
Definition github_form : node :=
  Tag "form" {[ "action" := "/session"; "method" := "post" ]}
    [ ws;
      Tag "label" {[ "for" := "login_field" ]}
        [ NavigableString "Username or email address" ];
      ws; github_login; ws;
      Tag "label" {[ "for" := "password" ]} [ NavigableString "Password" ];
      ws; github_password; ws; github_commit; ws ].
Definition github_soup : node := document [ ws; github_form; ws ].
Definition github : site :=
  mkSite "GitHub Login"
         (Some {[ "login" := "username"; "password" := "password" ]})
         github_soup.

(** TEST_SITES, "Stripe Dashboard". *)
Definition stripe_email : node :=
  input {[ "type" := "email"; "name" := "email";
           "autocomplete" := "username email"; "placeholder" := "Email" ]}.
Definition stripe_password : node :=
  input {[ "type" := "password"; "name" := "password";
           "autocomplete" := "current-password" ]}.
Definition stripe_form : node :=
  Tag "form" ∅
    [ ws; stripe_email; ws; stripe_password; ws;
      Tag "button" {[ "type" := "submit" ]}
        [ NavigableString "Sign in to your account" ];
      ws ].
Definition stripe_soup : node := document [ ws; stripe_form; ws ].
Definition stripe : site :=
  mkSite "Stripe Dashboard"
         (Some {[ "email" := "email"; "password" := "password" ]})
         stripe_soup.

(** TEST_SITES, "2FA/TOTP Form". *)
Definition totp_pin : node :=
  input {[ "type" := "tel"; "name" := "totpPin";
           "autocomplete" := "one-time-code"; "inputmode" := "numeric";
           "pattern" := "[0-9]*"; "placeholder" := "6-digit code" ]}.
Definition totp_form : node :=
  Tag "form" ∅
    [ ws; totp_pin; ws;
      Tag "button" {[ "type" := "submit" ]} [ NavigableString "Verify" ];
      ws ].
Definition totp_soup : node := document [ ws; totp_form; ws ].
Definition totp : site :=
  mkSite "2FA/TOTP Form" (Some {[ "totpPin" := "totp" ]}) totp_soup.

(** NEGATIVE_EXAMPLES, "Search Form". *)
Definition search_q : node :=
  input {[ "type" := "text"; "name" := "q"; "placeholder" := "Search..." ]}.
Definition search_form : node :=
  Tag "form" {[ "action" := "/search"; "method" := "get" ]}
    [ ws; search_q; ws;
      Tag "button" {[ "type" := "submit" ]} [ NavigableString "Search" ];
      ws ].
Definition search_soup : node := document [ ws; search_form; ws ].
Definition search_site : site := mkSite "Search Form" None search_soup.

(** An element of a page in its place. *)
Definition within (form soup : node) (n : node) : element :=
  mkElement n [ form; soup ].

(** A world with an empty heap in which every draw is [u]. *)
Definition world_of (u : Q) : world := mkWorld [] (fun _ => u) 0.

End Catalog.


Definition text_sources : list string :=
  [ "name"; "id"; "placeholder"; "aria_label" ].

Definition target_categories : list string :=
  [ "user"; "login"; "email"; "pass" ].

(** The slot of the score of a text source for a category, and the slot of
    the normalised length of a text source. *)
Definition score_slot (src cat : string) : string :=
  String.append src (String.append "_has_" cat).

Definition length_slot (src : string) : string := String.append src "_length".

(** The attribute a text source is read from. *)
Definition source_attribute (src : string) : string :=
  if String.eqb src "aria_label" then "aria-label" else src.

(** The scale constant of a text source. *)
Definition source_scale (src : string) : Q :=
  if String.eqb src "name" || String.eqb src "id" then 50 else 100.

Definition category_patterns (cat : string) : list pattern :=
  if String.eqb cat "user" then USERNAME_PATTERNS
  else if String.eqb cat "login" then LOGIN_PATTERN
  else if String.eqb cat "email" then EMAIL_PATTERNS
  else PASSWORD_PATTERNS.

(** The pairs that have a slot: all but the login score of the placeholder
    and of the aria-label. *)
Definition scored (src cat : string) : bool :=
  negb (String.eqb cat "login" &&
        (String.eqb src "placeholder" || String.eqb src "aria_label")).

(** What the claim asks of an instance: a score for every pair. *)
Definition has_every_score (f : FieldFeatures) : Prop :=
  Forall (fun src =>
            Forall (fun cat => is_Some (getfield (score_slot src cat) f))
                   target_categories)
         text_sources.

(** What an extracted instance holds for the source [src] of element [e]. *)
Definition source_scores (e : element) (src : string) : Prop :=
  let f := extract_fields e in
  let text := get_default (elem e) (source_attribute src) "" in
  Forall (fun cat =>
            if scored src cat then
              exists q,
                getfield (score_slot src cat) f = Some (PyFloat q) /\
                q = _match_score text (category_patterns cat) /\
                (0 <= q <= 1)%Q
            else getfield (score_slot src cat) f = None)
         target_categories /\
  getfield (length_slot src) f =
    Some (PyFloat (inject_Z (Z.of_nat (String.length text)) / source_scale src)).

(** A form with a password field and its confirmation, written alike. *)
Definition twin_password : node := Catalog.input {[ "type" := "password" ]}.
Definition twin_form : node := Tag "form" ∅ [ twin_password; twin_password ].
Definition twin_soup : node := Catalog.document [ twin_form ].

(** The other input children of a tag, for its input child number [i]. *)
Definition other_inputs (parent : node) (i : nat) : list node :=
  delete i (find_all_children parent "input").

(** What one round of the copy loop does to the new instance [dst], [src]
    being the instance at [base]. *)
Definition copy_one (base : addr) (src dst : FieldFeatures) (attr : string)
  : FieldFeatures :=
  if negb (startswith "_" attr) && hasattr attr then
    match getattr base src attr with
    | Some v => setattr attr v dst
    | None => dst
    end
  else dst.

(** The instance built by one round of the augmentation loop from the base
    instance [src] at [base] and the draws [r1], [r2], [u1], [u2]. *)
Definition synthesized (base : addr) (src : FieldFeatures) (lbl : string)
  (r1 r2 u1 u2 : Q) : FieldFeatures :=
  let o := with_own (Some (default base (own_to_vector src))) true src in
  let o :=
    if lt r1 0.3 then
      setfield "auto_other" (PyInt 1)
        (setfield "auto_current_password" (PyInt 0)
           (setfield "auto_email" (PyInt 0)
              (setfield "auto_username" (PyInt 0) o)))
    else o in
  if lt r2 0.2 && String.eqb lbl "username" then
    setfield "name_has_login" (PyFloat (0.3 + (0.8 - 0.3) * u2))
      (setfield "name_has_user" (PyFloat (0.3 + (0.8 - 0.3) * u1)) o)
  else o.

(** The number of draws of that round after the choice of the base. *)
Definition draws (lbl : string) (r2 : Q) : nat :=
  if lt r2 0.2 && String.eqb lbl "username" then 4%nat else 2%nat.

(** Every draw lies in [0, 1). *)
Definition unit_tape (tp : nat -> Q) : Prop := forall i, (0 <= tp i < 1)%Q.

(** The sample that [random.choice] returns on the draw [u]. *)
Definition pick (samples : list TrainingSample) (u : Q) : option TrainingSample :=
  index samples (Qfloor (u * inject_Z (Z.of_nat (length samples)))).

(** The tape picks a sample with a label other than "none" again and again. *)
Definition fair (tp : nat -> Q) (samples : list TrainingSample) : Prop :=
  forall c, exists c' s,
    (c <= c')%nat /\ pick samples (tp c') = Some s /\ label s <> "none".

(** Every sample refers to an instance of the heap. *)
Definition addressable (h : list FieldFeatures) (samples : list TrainingSample)
  : Prop :=
  Forall (fun s => (features s < length h)%nat) samples.

(** The corpus built from the catalog entry "2FA/TOTP Form" and the negative
    example "Search Form". *)
Definition totp_sample : TrainingSample :=
  mkTrainingSample 0 "totp" "2FA/TOTP Form" "" "totpPin".

Definition search_sample : TrainingSample :=
  mkTrainingSample 1 "none" "Search Form" "" "q".

Definition corpus_heap : list FieldFeatures :=
  [ extract_fields
      (Catalog.within Catalog.totp_form Catalog.totp_soup Catalog.totp_pin);
    extract_fields
      (Catalog.within Catalog.search_form Catalog.search_soup Catalog.search_q) ].

(** The world after [build_dataset], every draw of the tape being [u]. *)
Definition corpus_world (u : Q) : world := mkWorld corpus_heap (fun _ => u) 0.

(** An input element with nothing but a type, at the top of a page. *)
Definition bare_input (t : string) : element :=
  let i := Catalog.input {[ "type" := t ]} in
  mkElement i [ Catalog.document [ i ] ].

(** The vector that [o.to_vector()] returns for the instance at [a] of the
    heap [h]. *)
Definition vector_of (h : list FieldFeatures) (a : addr) : option (list spec_float) :=
  match h !! a with
  | Some o =>
      match own_to_vector o with
      | Some self => h !! self ≫= to_vector
      | None => to_vector o
      end
  | None => None
  end.

(** The record that [save_dataset] writes for a sample. *)
Definition row_of (h : list FieldFeatures) (s : TrainingSample) : option row :=
  match vector_of h (features s) with
  | Some v => Some (mkRow v (label s) (source s) (element_id s) (element_name s))
  | None => None
  end.

(** A synthesized sample: a new instance, carrying the to_vector method
    bound by the instance of one of the base samples. *)
Definition made_from (samples : list TrainingSample) (h0 hfin : list FieldFeatures)
  (s : TrainingSample) : Prop :=
  exists base src o,
    base ∈ samples /\
    h0 !! features base = Some src /\
    hfin !! features s = Some o /\
    own_to_vector o = Some (default (features base) (own_to_vector src)) /\
    label s = label base /\
    source s = String.append (source base) "_augmented".

(** The type of an input element: lower-cased, "text" when absent. *)
Definition input_type_of (e : element) : string :=
  lower (get_default (elem e) "type" "text").

(** The input carries a role: its type is none of the skipped ones. *)
Definition qualifies (e : element) : bool :=
  negb (bool_decide (input_type_of e ∈ SKIPPED_TYPES)).

(** The input elements of a page that yield a sample, in document order. *)
Definition qualifying (soup : node) : list element :=
  List.filter qualifies (find_all soup "input").

(** The label of an element in an entry: the entry's label for the name of
    the element, "none" when there is none. *)
Definition label_for (s : site) (e : element) : string :=
  default "none"
    (default (∅ : gmap string string) (site_labels s)
       !! get_default (elem e) "name" "").

(** The samples of one entry, one for each qualifying input, the instance of
    the first one being allocated at [a0].  Entries of the negative examples
    are not [labelled]. *)
Definition entry_samples (labelled : bool) (s : site) (a0 : addr)
  : list TrainingSample :=
  imap (fun i e =>
          mkTrainingSample (a0 + i)
            (if labelled then label_for s e else "none")
            (site_name s)
            (get_default (elem e) "id" "")
            (get_default (elem e) "name" ""))
       (qualifying (site_html s)).

(** The instances allocated for one entry. *)
Definition entry_instances (s : site) : list FieldFeatures :=
  map extract_fields (qualifying (site_html s)).

Fixpoint corpus_samples (labelled : bool) (sites : list site) (a0 : addr)
  : list TrainingSample :=
  match sites with
  | [] => []
  | s :: rest =>
      entry_samples labelled s a0 ++
      corpus_samples labelled rest (a0 + length (qualifying (site_html s)))
  end.

Definition corpus_instances (sites : list site) : list FieldFeatures :=
  flat_map entry_instances sites.

(** The dictionaries returned for a page, the first instance at [a0]. *)
Definition extracted_at (a0 : addr) (es : list element) : list extracted :=
  imap (fun i e =>
          mkExtracted (a0 + i)
            (get_default (elem e) "id" "")
            (get_default (elem e) "name" "")
            (input_type_of e))
       es.

(** ** Vocabulary of the further properties *)

(** The type slot of a lower-cased input type: the slot of the table, or
    "type_other". *)
Definition type_slot_of (t : string) : string :=
  if String.eqb t "text" then "type_text"
  else if String.eqb t "email" then "type_email"
  else if String.eqb t "password" then "type_password"
  else if String.eqb t "tel" then "type_tel"
  else if String.eqb t "number" then "type_number"
  else if String.eqb t "search" then "type_search"
  else if String.eqb t "url" then "type_url"
  else "type_other".

(** Some other input child of [parent], as the loop of
    [_extract_context_features] tells them apart, has the type [ty]. *)
Definition has_sibling_of_type (parent : node) (e : element) (ty : string) : bool :=
  existsb (fun s => ne s (elem e) &&
                    String.eqb (lower (get_default s "type" "")) ty)
          (find_all_children parent "input").

(** A submit control: a button or an input whose type is exactly "submit". *)
Definition is_submit (d : node) : bool :=
  (named "button" d || named "input" d) &&
  bool_decide (get d "type" = Some "submit").

(** The slots that hold flags, those that hold scores, and those that hold
    lengths and counts. *)
Definition flag_slots : list string :=
  [ "type_text"; "type_email"; "type_password"; "type_tel"; "type_number";
    "type_search"; "type_url"; "type_other";
    "auto_username"; "auto_email"; "auto_current_password";
    "auto_new_password"; "auto_one_time_code"; "auto_off"; "auto_other";
    "parent_is_form"; "parent_is_div"; "parent_is_section";
    "has_password_sibling"; "has_email_sibling"; "form_has_submit";
    "form_action_has_login"; "is_required"; "has_placeholder";
    "has_aria_label"; "inputmode_numeric" ].

Definition score_slots : list string :=
  [ "name_has_user"; "name_has_login"; "name_has_email"; "name_has_pass";
    "id_has_user"; "id_has_login"; "id_has_email"; "id_has_pass";
    "placeholder_has_user"; "placeholder_has_email"; "placeholder_has_pass";
    "aria_label_has_user"; "aria_label_has_email"; "aria_label_has_pass" ].

Definition measure_slots : list string :=
  [ "name_length"; "id_length"; "placeholder_length"; "aria_label_length";
    "sibling_count" ].

(** The fields that the perturbations of augment_dataset store to. *)
Definition perturbed_slots : list string :=
  [ "auto_username"; "auto_email"; "auto_current_password"; "auto_other";
    "name_has_user"; "name_has_login" ].

(** The sample [s] and the instance [o] of one round of the augmentation
    loop: built from a base sample with a label other than "none", on four
    consecutive draws of the tape. *)
Definition round_of (samples : list TrainingSample) (h0 : list FieldFeatures)
  (tp : nat -> Q) (s : TrainingSample) (o : FieldFeatures) : Prop :=
  exists base src k,
    base ∈ samples /\ label base <> "none" /\
    h0 !! features base = Some src /\
    o = synthesized (features base) src (label base)
          (tp k) (tp (S k)) (tp (S (S k))) (tp (S (S (S k)))) /\
    label s = label base /\
    source s = String.append (source base) "_augmented" /\
    element_id s = element_id base /\
    element_name s = element_name base.

(** The records written for the samples of one entry, and of a catalog, when
    the vectors of the extracted features can be made. *)
Definition entry_rows (labelled : bool) (s : site) : option (list row) :=
  mapM (fun e =>
          v ← to_vector (extract_fields e);
          Some (mkRow v
                  (if labelled then label_for s e else "none")
                  (site_name s)
                  (get_default (elem e) "id" "")
                  (get_default (elem e) "name" "")))
       (qualifying (site_html s)).

Definition corpus_rows (labelled : bool) (sites : list site) : option (list row) :=
  (fun rows => List.concat rows) <$> mapM (entry_rows labelled) sites.

Import DatasetMain Train.

(** The sum of the counts of a dictionary. *)
Definition total (m : gmap string Z) : Z :=
  map_fold (fun _ n acc => (n + acc)%Z) 0%Z m.

(** The number of samples with the label [l]. *)
Definition labelled_with (l : string) (samples : list TrainingSample) : Z :=
  Z.of_nat (length (List.filter (fun s => String.eqb (label s) l) samples)).

(** * Properties *)

(** ** Strings *)

Lemma startswith_spec p s :
  startswith p s = true <-> exists post, s = String.append p post.
Proof.
  revert s. induction p as [|a p IH]; intros s; simpl.
  - split; eauto.
  - destruct s as [|b s].
    + split; [discriminate | intros [post H]; discriminate].
    + rewrite andb_true_iff, IH. split.
      * intros [Hab [post ->]]. apply Ascii.eqb_eq in Hab. subst. eauto.
      * intros [post H]. injection H as -> ->. split; [apply Ascii.eqb_refl | eauto].
Qed.

Lemma contains_spec needle hay :
  contains needle hay = true <-> Infix needle hay.
Proof.
  induction hay as [|c hay IH]; simpl.
  - rewrite orb_false_r, startswith_spec. split.
    + intros [post H]. exists "", post. exact H.
    + intros [pre [post H]]. destruct pre; simpl in H; [eauto | discriminate].
  - rewrite orb_true_iff, startswith_spec, IH. split.
    + intros [[post H] | [pre [post H]]].
      * exists "", post. exact H.
      * exists (String c pre), post. simpl. now rewrite H.
    + intros [pre [post H]]. destruct pre as [|c' pre]; simpl in H.
      * left. eauto.
      * right. injection H as _ H. exists pre, post. exact H.
Qed.

Lemma lower_app s t : lower (String.append s t) = String.append (lower s) (lower t).
Proof. induction s as [|c s IH]; simpl; [reflexivity | now rewrite IH]. Qed.

Lemma Infix_lower s t : Infix s t -> Infix (lower s) (lower t).
Proof.
  intros [pre [post ->]]. exists (lower pre), (lower post).
  now rewrite !lower_app.
Qed.

(** ** Pattern matcher *)

Lemma search_spec p text : search p text = true <-> Matches p text.
Proof.
  induction p as [s | l IHl r IHr]; simpl.
  - rewrite contains_spec. split; [now constructor | now inversion 1].
  - rewrite orb_true_iff, IHl, IHr. split.
    + intros [H | H]; [now apply Matches_alt_l | now apply Matches_alt_r].
    + inversion 1; subst; auto.
Qed.

Lemma count_matches_spec text ps : MatchCount text ps (count_matches text ps).
Proof.
  unfold count_matches. induction ps as [|p ps IH]; simpl.
  - constructor.
  - destruct (search p text) eqn:E.
    + rewrite filter_cons_True by (now rewrite E). simpl.
      apply MatchCount_hit; [now apply search_spec | exact IH].
    + rewrite filter_cons_False by (now rewrite E).
      apply MatchCount_miss; [|exact IH].
      intros H. apply search_spec in H. congruence.
Qed.

Lemma MatchCount_functional text ps n m :
  MatchCount text ps n -> MatchCount text ps m -> n = m.
Proof.
  intros Hn. revert m. induction Hn; intros m Hm; inversion Hm; subst;
    try reflexivity; try contradiction; auto.
Qed.

Lemma count_matches_le text ps : (count_matches text ps <= length ps)%nat.
Proof. unfold count_matches. apply length_filter. Qed.

Lemma py_min_Qmin x y : Py.min x y = Qmin x y.
Proof.
  unfold Py.min, Qmin, GenericMinMax.gmin.
  destruct (Qle_bool x y) eqn:E.
  - apply Qle_bool_iff in E. destruct (x ?= y)%Q eqn:C; try reflexivity.
    apply Qgt_alt in C. exfalso. apply (Qlt_not_le _ _ C E).
  - destruct (x ?= y)%Q eqn:C; try reflexivity; exfalso.
    + apply Qeq_alt in C. assert (H : (x <= y)%Q) by (rewrite C; apply Qle_refl).
      apply Qle_bool_iff in H. congruence.
    + apply Qlt_alt in C. apply Qlt_le_weak, Qle_bool_iff in C. congruence.
Qed.

Lemma ratio_nonneg (m n : nat) :
  (0 <= inject_Z (Z.of_nat m) / inject_Z (Z.of_nat n) * 3)%Q.
Proof.
  apply Qmult_le_0_compat; [|discriminate].
  apply Qmult_le_0_compat.
  - change 0%Q with (inject_Z 0). rewrite <- Zle_Qle. lia.
  - apply Qinv_le_0_compat. change 0%Q with (inject_Z 0). rewrite <- Zle_Qle. lia.
Qed.

Lemma match_score_bounds text ps : (0 <= _match_score text ps <= 1)%Q.
Proof.
  unfold _match_score.
  destruct (negb (truthy text)); [split; discriminate|].
  destruct ps as [|p ps]; [split; discriminate|].
  unfold Py.min.
  destruct (Qle_bool _ 1) eqn:E.
  - split; [apply ratio_nonneg | now apply Qle_bool_iff].
  - split; [discriminate | apply Qle_refl].
Qed.

(** C2.  For a non-empty pattern list, the score of the empty text is 0.0;
    the score of any other text is min(matchCount / patternCount * 3, 1.0),
    where matchCount is the number of patterns of the list that occur in the
    text with letter case ignored; and the score always lies in [0, 1]. *)
Theorem match_score_spec (text : string) (patterns : list pattern) :
  patterns <> [] ->
  (text = "" -> _match_score text patterns = 0%Q) /\
  (text <> "" ->
     exists matchCount,
       MatchCount text patterns matchCount /\
       _match_score text patterns =
         Qmin (inject_Z (Z.of_nat matchCount)
                 / inject_Z (Z.of_nat (length patterns)) * 3) 1) /\
  (0 <= _match_score text patterns <= 1)%Q.
Proof.
  intros Hne. split; [|split].
  - intros ->. reflexivity.
  - intros Htext. exists (count_matches text patterns).
    split; [apply count_matches_spec|].
    unfold _match_score. destruct text; [congruence|]. simpl.
    destruct patterns; [congruence|]. apply py_min_Qmin.
  - apply match_score_bounds.
Qed.

Lemma match_score_spec_witness :
  _match_score "" USERNAME_PATTERNS = 0%Q /\
  (exists matchCount,
     MatchCount "user_login" USERNAME_PATTERNS matchCount /\
     _match_score "user_login" USERNAME_PATTERNS =
       Qmin (inject_Z (Z.of_nat matchCount) / inject_Z 11 * 3) 1) /\
  (0 <= _match_score "user_login" USERNAME_PATTERNS <= 1)%Q.
Proof.
  split; [|split].
  - apply (match_score_spec "" USERNAME_PATTERNS); [discriminate | reflexivity].
  - apply (match_score_spec "user_login" USERNAME_PATTERNS); discriminate.
  - apply (match_score_spec "user_login" USERNAME_PATTERNS); discriminate.
Defined.

(** ** Autocomplete classification *)

Lemma contains_false needle hay : contains needle hay = false -> ~ Infix needle hay.
Proof. intros E H. apply contains_spec in H. congruence. Qed.

Lemma set_autocomplete_classified (f : FieldFeatures) (autocomplete : string) :
  exists slot,
    Classified (lower autocomplete) slot /\
    _set_autocomplete f autocomplete = setfield slot (PyInt 1) f.
Proof.
  unfold _set_autocomplete.
  destruct (contains "username" _) eqn:E1.
  { eexists; split; [|reflexivity]. apply Classified_username, contains_spec, E1. }
  apply contains_false in E1.
  destruct (contains "email" _) eqn:E2.
  { eexists; split; [|reflexivity]. apply Classified_email; [|apply contains_spec]; auto. }
  apply contains_false in E2.
  destruct (contains "current-password" _) eqn:E3.
  { eexists; split; [|reflexivity].
    apply Classified_current_password; [| |apply contains_spec]; auto. }
  apply contains_false in E3.
  destruct (contains "new-password" _) eqn:E4.
  { eexists; split; [|reflexivity].
    apply Classified_new_password; [| | |apply contains_spec]; auto. }
  apply contains_false in E4.
  destruct (contains "one-time-code" _) eqn:E5.
  { eexists; split; [|reflexivity].
    apply Classified_one_time_code; [| | | |apply contains_spec]; auto. }
  apply contains_false in E5.
  destruct (String.eqb_spec (lower autocomplete) "off") as [E6 | E6].
  - eexists; split; [|reflexivity]. now apply Classified_off.
  - eexists; split; [|reflexivity]. now apply Classified_other.
Qed.

Lemma Classified_functional auto s1 s2 :
  Classified auto s1 -> Classified auto s2 -> s1 = s2.
Proof. destruct 1; destruct 1; try reflexivity; contradiction. Qed.

(** ** Which fields a store touches *)

Lemma getfield_setfield_ne n m v f :
  n <> m -> getfield n (setfield m v f) = getfield n f.
Proof.
  intros Hne. unfold getfield.
  repeat match goal with
  | |- context [String.eqb n ?s] =>
      destruct (String.eqb_spec n s) as [-> | _];
      [ cbn [setfield type_text type_email type_password type_tel type_number
             type_search type_url type_other auto_username auto_email
             auto_current_password auto_new_password auto_one_time_code
             auto_off auto_other name_has_user name_has_login name_has_email
             name_has_pass name_length id_has_user id_has_login id_has_email
             id_has_pass id_length placeholder_has_user placeholder_has_email
             placeholder_has_pass placeholder_length aria_label_has_user
             aria_label_has_email aria_label_has_pass aria_label_length
             parent_is_form parent_is_div parent_is_section sibling_count
             has_password_sibling has_email_sibling form_has_submit
             form_action_has_login is_required has_placeholder has_aria_label
             inputmode_numeric];
        destruct (String.eqb_spec m s) as [-> | _]; [congruence | reflexivity] |]
  end.
  reflexivity.
Qed.

Lemma getfield_setfield_eq n v f :
  is_Some (getfield n f) -> getfield n (setfield n v f) = Some v.
Proof.
  unfold getfield.
  repeat match goal with
  | |- context [String.eqb n ?s] =>
      destruct (String.eqb_spec n s) as [-> | _]; [reflexivity |]
  end.
  intros [x Hx]. discriminate.
Qed.

Lemma sibling_step_frame n x f s :
  n <> "has_password_sibling" -> n <> "has_email_sibling" ->
  getfield n (sibling_step x f s) = getfield n f.
Proof.
  intros H1 H2.
  unfold sibling_step.
  repeat match goal with
  | |- context [if ?b then _ else _] => destruct b
  end;
  repeat (rewrite getfield_setfield_ne by assumption); reflexivity.
Qed.

Lemma siblings_frame n x l f :
  n <> "has_password_sibling" -> n <> "has_email_sibling" ->
  getfield n (fold_left (sibling_step x) l f) = getfield n f.
Proof.
  intros H1 H2. revert f. induction l as [|s l IH]; intros f; simpl; [reflexivity|].
  rewrite IH. now apply sibling_step_frame.
Qed.

Lemma context_frame n f e :
  Forall (fun slot => n <> slot) context_slots ->
  getfield n (_extract_context_features f e) = getfield n f.
Proof.
  intros H. pose proof H as H'. unfold context_slots in H.
  repeat match goal with
  | H : Forall _ (_ :: _) |- _ => apply Forall_cons in H; destruct H as [? H]
  end.
  unfold _extract_context_features.
  destruct (find_parent_named e "form"); destruct (find_parent e);
    repeat (rewrite getfield_setfield_ne by assumption);
    try rewrite siblings_frame by assumption;
    repeat (rewrite getfield_setfield_ne by assumption); reflexivity.
Qed.

Ltac solve_distinct :=
  repeat constructor; discriminate.

Lemma extract_fields_flags n e :
  n ∈ type_slots ++ auto_slots ->
  getfield n (extract_fields e) = getfield n (classified_part e).
Proof.
  intros Hn. unfold extract_fields, classified_part. cbv zeta.
  set (base := _set_autocomplete _ _). clearbody base.
  unfold type_slots, auto_slots in Hn. simpl in Hn.
  repeat match goal with
  | H : _ ∈ _ :: _ |- _ => apply elem_of_cons in H; destruct H as [-> | H]
  | H : _ ∈ [] |- _ => apply elem_of_nil in H; destruct H
  end;
  repeat (rewrite getfield_setfield_ne by discriminate);
  (rewrite context_frame by solve_distinct);
  repeat (rewrite getfield_setfield_ne by discriminate); reflexivity.
Qed.

Lemma set_input_type_cases f t :
  exists slot, slot ∈ type_slots /\ _set_input_type f t = setfield slot (PyInt 1) f.
Proof.
  unfold _set_input_type, type_mapping.
  destruct (_ !! t) as [slot|] eqn:E.
  - exists slot. split; [|reflexivity].
    repeat (rewrite lookup_insert in E; case_decide;
            [injection E as <-; unfold type_slots; set_solver|]).
    rewrite lookup_singleton in E. case_decide; [|discriminate].
    injection E as <-. unfold type_slots; set_solver.
  - exists "type_other". split; [unfold type_slots; set_solver | reflexivity].
Qed.

Lemma Classified_auto_slot auto slot : Classified auto slot -> slot ∈ auto_slots.
Proof. destruct 1; unfold auto_slots; set_solver. Qed.

(** ** One-hot groups *)

Lemma type_flags_getfield f g :
  (forall n, n ∈ type_slots -> getfield n f = getfield n g) ->
  type_flags f = type_flags g.
Proof.
  intros H. unfold type_flags.
  assert (E : Forall (fun n => getfield n f = getfield n g) type_slots).
  { apply Forall_forall. intros n Hn. apply H. exact Hn. }
  unfold type_slots in E.
  repeat match goal with
  | H : Forall _ (_ :: _) |- _ =>
      let E1 := fresh in
      apply Forall_cons in H; destruct H as [E1 H]; injection E1 as E1
  end.
  congruence.
Qed.

Lemma auto_flags_getfield f g :
  (forall n, n ∈ auto_slots -> getfield n f = getfield n g) ->
  auto_flags f = auto_flags g.
Proof.
  intros H. unfold auto_flags.
  assert (E : Forall (fun n => getfield n f = getfield n g) auto_slots).
  { apply Forall_forall. intros n Hn. apply H. exact Hn. }
  unfold auto_slots in E.
  repeat match goal with
  | H : Forall _ (_ :: _) |- _ =>
      let E1 := fresh in
      apply Forall_cons in H; destruct H as [E1 H]; injection E1 as E1
  end.
  congruence.
Qed.

Lemma extract_fields_type_flags e :
  type_flags (extract_fields e) = type_flags (classified_part e).
Proof.
  apply type_flags_getfield. intros n Hn. apply extract_fields_flags.
  apply elem_of_app. now left.
Qed.

Lemma extract_fields_auto_flags e :
  auto_flags (extract_fields e) = auto_flags (classified_part e).
Proof.
  apply auto_flags_getfield. intros n Hn. apply extract_fields_flags.
  apply elem_of_app. now right.
Qed.

Ltac split_slot H :=
  repeat match type of H with
  | _ ∈ _ :: _ => apply elem_of_cons in H; destruct H as [-> | H]
  | _ ∈ [] => apply elem_of_nil in H; destruct H
  end.

(** After the two classifications of a new instance, the slot chosen in each
    group holds 1 and the other flags of the two groups hold 0. *)
Lemma classified_part_flags e :
  exists tslot aslot,
    tslot ∈ type_slots /\
    Classified (lower (get_default (elem e) "autocomplete" "")) aslot /\
    classified_part e =
      setfield aslot (PyInt 1) (setfield tslot (PyInt 1) new_FieldFeatures).
Proof.
  unfold classified_part.
  destruct (set_input_type_cases new_FieldFeatures
              (lower (get_default (elem e) "type" "text"))) as [tslot [Ht ->]].
  destruct (set_autocomplete_classified (setfield tslot (PyInt 1) new_FieldFeatures)
              (get_default (elem e) "autocomplete" "")) as [aslot [Ha ->]].
  eauto.
Qed.

Lemma extract_fields_one_hot e :
  ones (type_flags (extract_fields e)) = 1%nat /\
  zeros (type_flags (extract_fields e)) = 7%nat /\
  ones (auto_flags (extract_fields e)) = 1%nat /\
  zeros (auto_flags (extract_fields e)) = 6%nat.
Proof.
  rewrite extract_fields_type_flags, extract_fields_auto_flags.
  destruct (classified_part_flags e) as [tslot [aslot [Ht [Ha ->]]]].
  apply Classified_auto_slot in Ha.
  unfold type_slots in Ht. unfold auto_slots in Ha.
  split_slot Ht; split_slot Ha; repeat split; reflexivity.
Qed.

(** C3.  The autocomplete value is lower-cased and classified by the first
    substring that occurs in it, in the order username, email,
    current-password, new-password, one-time-code, then the exact value off,
    else other: the chosen flag is stored as 1 and, in extracted features,
    the other autocomplete flags stay 0.  A value that contains both
    username and email gives auto_username = 1 and auto_email = 0. *)
Theorem autocomplete_first_match (f : FieldFeatures) (e : element)
  (autocomplete : string) :
  (exists slot,
     Classified (lower autocomplete) slot /\
     _set_autocomplete f autocomplete = setfield slot (PyInt 1) f) /\
  (exists slot,
     Classified (lower (get_default (elem e) "autocomplete" "")) slot /\
     getfield slot (extract_fields e) = Some (PyInt 1) /\
     forall s, s ∈ auto_slots -> s <> slot ->
       getfield s (extract_fields e) = Some (PyInt 0)) /\
  (Infix "username" (get_default (elem e) "autocomplete" "") ->
   Infix "email" (get_default (elem e) "autocomplete" "") ->
   auto_username (extract_fields e) = PyInt 1 /\
   auto_email (extract_fields e) = PyInt 0).
Proof.
  assert (Hflags : exists slot,
     Classified (lower (get_default (elem e) "autocomplete" "")) slot /\
     getfield slot (extract_fields e) = Some (PyInt 1) /\
     forall s, s ∈ auto_slots -> s <> slot ->
       getfield s (extract_fields e) = Some (PyInt 0)).
  { destruct (classified_part_flags e) as [tslot [aslot [Ht [Ha Heq]]]].
    exists aslot. split; [exact Ha|].
    pose proof (Classified_auto_slot _ _ Ha) as Hin.
    split.
    - rewrite extract_fields_flags by (apply elem_of_app; now right).
      rewrite Heq. clear Heq Ha.
      unfold type_slots in Ht. unfold auto_slots in Hin.
      split_slot Ht; split_slot Hin; reflexivity.
    - intros s Hs Hne.
      rewrite extract_fields_flags by (apply elem_of_app; now right).
      rewrite Heq. clear Heq Ha.
      unfold type_slots in Ht. unfold auto_slots in Hin, Hs.
      split_slot Ht; split_slot Hin; split_slot Hs;
        first [reflexivity | congruence]. }
  split; [apply set_autocomplete_classified | split; [exact Hflags|]].
  intros Hu _. destruct Hflags as [slot [Hc [H1 H0]]].
  assert (slot = "auto_username") as ->.
  { apply (Classified_functional _ _ _ Hc). apply Classified_username.
    apply (Infix_lower "username"), Hu. }
  split.
  - now injection H1.
  - assert (H : getfield "auto_email" (extract_fields e) = Some (PyInt 0)).
    { apply H0; [unfold auto_slots; set_solver | discriminate]. }
    now injection H.
Qed.

Lemma autocomplete_first_match_witness :
  auto_username
    (extract_fields (Catalog.within Catalog.stripe_form Catalog.stripe_soup
                       Catalog.stripe_email)) = PyInt 1 /\
  auto_email
    (extract_fields (Catalog.within Catalog.stripe_form Catalog.stripe_soup
                       Catalog.stripe_email)) = PyInt 0.
Proof.
  apply (autocomplete_first_match new_FieldFeatures
           (Catalog.within Catalog.stripe_form Catalog.stripe_soup
              Catalog.stripe_email) "username email").
  - exists "", " email". reflexivity.
  - exists "username ", "". reflexivity.
Defined.

(** ** The feature vector *)




(** The method reads the fields in the order of feature_names. *)
Lemma to_vector_fields f :
  to_vector f = mapM (fun name => getfield name f ≫= float32) feature_names.
Proof. reflexivity. Qed.



Lemma to_vector_length f v : to_vector f = Some v -> length v = 45%nat.
Proof. intros H. apply length_mapM in H. now rewrite <- H. Qed.

Lemma to_vector_returns f :
  is_Some (to_vector f) <->
  Forall (fun name => exists x, getfield name f = Some x /\ is_Some (float32 x))
         feature_names.
Proof.
  rewrite to_vector_fields, mapM_is_Some. apply Forall_iff. intros name.
  unfold compose. destruct (getfield name f) as [x|]; cbn.
  - split; [eauto | now intros [x' [[= <-] H]]].
  - split; [now intros [? ?] | now intros [x' [? _]]].
Qed.






(** The conversion is not exact: these two integers differ and have the same
    float32 value.  An int is rounded twice, to a double and then to
    float32: the second integer below is nearer to 2^60 + 2^37 than to 2^60,
    and its element is 2^60. *)
Lemma float32_rounds :
  float32 (PyInt 16777217) = float32 (PyInt 16777216) /\
  float32 (PyInt (2 ^ 60 + 2 ^ 36 + 1)) = float32 (PyInt (2 ^ 60)) /\
  round_Q 24 128 (inject_Z (2 ^ 60 + 2 ^ 36 + 1)) =
    round_Q 24 128 (inject_Z (2 ^ 60 + 2 ^ 37)).
Proof. repeat split; vm_compute; reflexivity. Qed.

(** ** Textual scores *)

Ltac read_store :=
  repeat (rewrite getfield_setfield_ne by discriminate);
  try (rewrite context_frame by solve_distinct);
  repeat (rewrite getfield_setfield_ne by discriminate).

(** C8, as amended.  The name and the id have a score in [0, 1] for each of
    the categories user, login, email and pass; the placeholder and the
    aria-label have one for user, email and pass only (there is no login
    slot for them); each score is the pattern matcher's result on the
    attribute; and each of the four sources has a normalised length, the
    character count of the attribute divided by 50 (name, id) or 100
    (placeholder, aria-label). *)
Theorem textual_scores (e : element) :
  Forall (source_scores e) text_sources.
Proof.
  unfold text_sources, source_scores, target_categories.
  repeat (apply Forall_cons; split); try exact (List.Forall_nil _);
    (split; [repeat (apply Forall_cons; split); try exact (List.Forall_nil _)|]);
    cbv [scored String.eqb Ascii.eqb Bool.eqb andb orb negb score_slot
         length_slot String.append source_attribute source_scale
         category_patterns];
    try (eexists; split; [|split; [reflexivity | apply match_score_bounds]]);
    unfold extract_fields; cbv zeta; read_store; reflexivity.
Qed.

(** C8 as stated fails: extracted features have no login score for the
    placeholder, nor for the aria-label. *)
Lemma textual_scores_no_placeholder_login :
  ~ has_every_score
      (extract_fields (Catalog.within Catalog.stripe_form Catalog.stripe_soup
                         Catalog.stripe_email)) /\
  ~ In "placeholder_has_login" feature_names /\
  ~ In "aria_label_has_login" feature_names.
Proof.
  split; [|split].
  - unfold has_every_score, text_sources, target_categories. intros H.
    apply Forall_cons in H as [_ H]. apply Forall_cons in H as [_ H].
    apply Forall_cons in H as [H _].
    apply Forall_cons in H as [_ H]. apply Forall_cons in H as [[x H] _].
    discriminate H.
  - intros H. cbv in H. intuition discriminate.
  - intros H. cbv in H. intuition discriminate.
Qed.

(** ** Context features *)

Lemma sibling_count_spec e parent :
  find_parent e = Some parent ->
  sibling_count (extract_fields e) =
    PyFloat (inject_Z (Z.of_nat (length (find_all_children parent "input"))) / 10).
Proof.
  intros Hp.
  assert (H : getfield "sibling_count" (extract_fields e) =
              Some (PyFloat (inject_Z (Z.of_nat
                       (length (find_all_children parent "input"))) / 10))).
  { unfold extract_fields; cbv zeta.
    repeat (rewrite getfield_setfield_ne by discriminate).
    unfold _extract_context_features. rewrite Hp.
    destruct (find_parent_named e "form");
      repeat (rewrite getfield_setfield_ne by discriminate);
      rewrite siblings_frame by discriminate; reflexivity. }
  now injection H.
Qed.

(** C7.  The code at two inputs.  The login field of the GitHub form has two
    sibling inputs, and its sibling_count is 3 / 10: the element is counted
    with its siblings.  The first of two password fields that are written
    alike has a sibling of type password, and its has_password_sibling is 0:
    the loop leaves out every input equal to the element, and equality of
    tags is structural. *)
Theorem sibling_features_at_failing_inputs :
  let login :=
    Catalog.within Catalog.github_form Catalog.github_soup Catalog.github_login in
  let twin := mkElement twin_password [ twin_form; twin_soup ] in
  (find_all_children Catalog.github_form "input" !! 0%nat = Some (elem login) /\
   length (other_inputs Catalog.github_form 0) = 2%nat /\
   sibling_count (extract_fields login) = PyFloat (3 # 10)) /\
  (find_all_children twin_form "input" !! 0%nat = Some (elem twin) /\
   other_inputs twin_form 0 = [ twin_password ] /\
   get twin_password "type" = Some "password" /\
   sibling_count (extract_fields twin) = PyFloat (2 # 10) /\
   has_password_sibling (extract_fields twin) = PyInt 0).
Proof. vm_compute. repeat split; reflexivity. Qed.

(** ** The attribute-copy loop *)

Lemma lookup_snoc_last {A} (h : list A) (o : A) : (h ++ [o]) !! length h = Some o.
Proof. rewrite lookup_app_r by lia. now rewrite Nat.sub_diag. Qed.

Lemma insert_snoc_last {A} (h : list A) (o o' : A) :
  <[length h := o']> (h ++ [o]) = h ++ [o'].
Proof.
  rewrite insert_app_r_alt by lia. now rewrite Nat.sub_diag.
Qed.

Lemma copy_loop_spec attrs base h src dst tp c :
  h !! base = Some src ->
  for_each attrs (copy_attr base (length h)) tt (mkWorld (h ++ [dst]) tp c) =
  Ok tt (mkWorld (h ++ [fold_left (copy_one base src) attrs dst]) tp c).
Proof.
  intros Hb. revert dst. induction attrs as [|attr attrs IH]; intros dst.
  - reflexivity.
  - cbn [for_each fold_left]. unfold bind at 1.
    assert (Hstep : copy_attr base (length h) tt attr (mkWorld (h ++ [dst]) tp c) =
                    Ok tt (mkWorld (h ++ [copy_one base src dst attr]) tp c)).
    { unfold copy_attr, copy_one.
      destruct (negb (startswith "_" attr) && hasattr attr); [|reflexivity].
      unfold bind, load. cbn [heap tape cursor].
      rewrite (lookup_app_l_Some _ _ _ _ Hb).
      destruct (getattr base src attr) as [v|]; [|reflexivity].
      unfold update. cbn [heap tape cursor].
      rewrite lookup_snoc_last, insert_snoc_last. reflexivity. }
    rewrite Hstep. apply IH.
Qed.

(** The loop copies the 45 fields, and stores under "to_vector" the method
    bound to the base instance (or the one the base instance itself
    carries). *)
Lemma copy_dir base src :
  fold_left (copy_one base src) dir new_FieldFeatures =
  with_own (Some (default base (own_to_vector src))) true src.
Proof. destruct src. reflexivity. Qed.

Lemma synthesize_spec base h src tp c :
  h !! features base = Some src ->
  synthesize base (mkWorld h tp c) =
  Ok (mkTrainingSample (length h) (label base)
        (String.append (source base) "_augmented")
        (element_id base) (element_name base))
     (mkWorld
        (h ++ [synthesized (features base) src (label base)
                 (tp c) (tp (S c)) (tp (S (S c))) (tp (S (S (S c))))])
        tp (draws (label base) (tp (S c)) + c)).
Proof.
  intros Hb. unfold synthesize.
  unfold bind at 1. unfold alloc at 1. cbn [heap tape cursor].
  unfold bind at 1. rewrite (copy_loop_spec _ _ _ _ _ _ _ Hb), copy_dir.
  unfold synthesized, draws.
  unfold bind at 1. unfold random at 1. cbn [heap tape cursor].
  unfold bind at 1.
  destruct (lt (tp c) 0.3).
  - unfold bind, update, random, uniform, ret. cbn [heap tape cursor].
    repeat (rewrite ?lookup_snoc_last, ?insert_snoc_last; cbn [heap tape cursor]).
    destruct (lt (tp (S c)) 0.2 && String.eqb (label base) "username");
      unfold bind, update, random, uniform, ret; cbn [heap tape cursor];
      repeat (rewrite ?lookup_snoc_last, ?insert_snoc_last; cbn [heap tape cursor]);
      reflexivity.
  - unfold bind, update, random, uniform, ret. cbn [heap tape cursor].
    destruct (lt (tp (S c)) 0.2 && String.eqb (label base) "username");
      unfold bind, update, random, uniform, ret; cbn [heap tape cursor];
      repeat (rewrite ?lookup_snoc_last, ?insert_snoc_last; cbn [heap tape cursor]);
      reflexivity.
Qed.

(** ** The augmentation loop *)

Lemma choice_spec samples h tp c :
  samples <> [] ->
  choice samples (mkWorld h tp c) =
  match pick samples (tp c) with
  | Some x => Ok x (mkWorld h tp (S c))
  | None => Raised IndexError
  end.
Proof.
  intros Hne. destruct samples as [|s l]; [congruence|].
  unfold choice, bind, random, pick. cbn [heap tape cursor].
  destruct (index _ _); reflexivity.
Qed.

Lemma pick_unit samples u :
  samples <> [] -> (0 <= u < 1)%Q ->
  exists x, pick samples u = Some x /\ x ∈ samples.
Proof.
  intros Hne [H0 H1]. unfold pick, index.
  set (n := Z.of_nat (length samples)).
  assert (Hn : (0 < n)%Z).
  { unfold n. destruct samples; [congruence | cbn [length]; lia]. }
  set (i := Qfloor (u * inject_Z n)).
  assert (Hi0 : (0 <= i)%Z).
  { change 0%Z with (Qfloor 0). apply Qfloor_resp_le.
    apply Qmult_le_0_compat; [exact H0|].
    change 0%Q with (inject_Z 0). rewrite <- Zle_Qle. lia. }
  assert (Hi1 : (i < n)%Z).
  { rewrite Zlt_Qlt. eapply Qle_lt_trans; [apply Qfloor_le|].
    rewrite <- (Qmult_1_l (inject_Z n)) at 2.
    apply Qmult_lt_compat_r; [|exact H1].
    change 0%Q with (inject_Z 0). rewrite <- Zlt_Qlt. exact Hn. }
  destruct (Z.leb_spec 0 i) as [_|]; [|lia].
  destruct (lookup_lt_is_Some_2 samples (Z.to_nat i)) as [x Hx]; [unfold n in Hi1; lia|].
  exists x. split; [exact Hx|]. eapply list_elem_of_lookup_2, Hx.
Qed.

(** One round of the loop. *)
Lemma augment_loop_step fuel samples target augmented h tp c :
  samples <> [] ->
  (Z.of_nat (length augmented) < target)%Z ->
  augment_loop (S fuel) samples target augmented (mkWorld h tp c) =
  match pick samples (tp c) with
  | None => Raised IndexError
  | Some base =>
      if String.eqb (label base) "none"
      then augment_loop fuel samples target augmented (mkWorld h tp (S c))
      else
        match synthesize base (mkWorld h tp (S c)) with
        | Ok sample w' =>
            augment_loop fuel samples target (augmented ++ [sample]) w'
        | Raised e => Raised e
        | OutOfFuel => OutOfFuel
        end
  end.
Proof.
  intros Hne Hlt. cbn [augment_loop].
  apply Z.ltb_lt in Hlt. rewrite Hlt.
  unfold bind at 1. rewrite choice_spec by exact Hne.
  destruct (pick samples (tp c)) as [base|]; [|reflexivity].
  destruct (String.eqb (label base) "none"); reflexivity.
Qed.

Lemma augment_loop_done fuel samples target augmented w :
  (target <= Z.of_nat (length augmented))%Z ->
  augment_loop fuel samples target augmented w = Ok augmented w.
Proof.
  intros Hge. apply Z.ltb_ge in Hge.
  destruct fuel; cbn [augment_loop]; rewrite Hge; reflexivity.
Qed.

(** On a tape that picks nothing but "none" samples every round is a
    rejection. *)
Lemma rejecting_tape_never_returns fuel samples target augmented h tp c :
  samples <> [] ->
  (forall i, exists x, pick samples (tp i) = Some x /\ label x = "none") ->
  (Z.of_nat (length augmented) < target)%Z ->
  augment_loop fuel samples target augmented (mkWorld h tp c) = OutOfFuel.
Proof.
  intros Hne Hrej Hlt. revert c.
  induction fuel as [|fuel IH]; intros c.
  - cbn [augment_loop]. apply Z.ltb_lt in Hlt. now rewrite Hlt.
  - rewrite augment_loop_step by assumption.
    destruct (Hrej c) as [x [-> Hx]]. rewrite Hx. cbn. apply IH.
Qed.

(** With nothing but "none" samples every tape is such a tape. *)
Lemma all_none_never_returns fuel samples target augmented h tp c :
  unit_tape tp ->
  samples <> [] ->
  (forall s, s ∈ samples -> label s = "none") ->
  (Z.of_nat (length augmented) < target)%Z ->
  augment_loop fuel samples target augmented (mkWorld h tp c) = OutOfFuel.
Proof.
  intros Htp Hne Hnone Hlt. apply rejecting_tape_never_returns; try assumption.
  intros i. destruct (pick_unit samples (tp i) Hne (Htp i)) as [x [Hx Hin]].
  exists x. split; [exact Hx | now apply Hnone].
Qed.

Lemma empty_corpus_raises fuel target augmented w :
  (Z.of_nat (length augmented) < target)%Z ->
  augment_loop (S fuel) [] target augmented w = Raised IndexError.
Proof.
  intros Hlt. cbn [augment_loop]. apply Z.ltb_lt in Hlt. now rewrite Hlt.
Qed.

Lemma addressable_grow h o samples :
  addressable h samples -> addressable (h ++ [o]) samples.
Proof.
  unfold addressable. intros H. eapply Forall_impl; [exact H|].
  cbv beta. intros s Hs. rewrite length_app. cbn [length]. lia.
Qed.

Lemma addressable_lookup h samples s :
  addressable h samples -> s ∈ samples -> exists src, h !! features s = Some src.
Proof.
  intros Ha Hs. unfold addressable in Ha. rewrite Forall_forall in Ha.
  apply lookup_lt_is_Some_2, Ha, Hs.
Qed.

(** On a fair tape the loop returns, with [augmented] grown up to the
    target. *)
Lemma augment_loop_terminates samples target tp :
  unit_tape tp -> fair tp samples ->
  forall n augmented h c,
    Z.to_nat (target - Z.of_nat (length augmented)) = n ->
    addressable h samples ->
    exists fuel out w',
      augment_loop fuel samples target augmented (mkWorld h tp c) = Ok out w' /\
      Z.of_nat (length out) = Z.max (Z.of_nat (length augmented)) target /\
      exists synths, out = augmented ++ synths.
Proof.
  intros Htp Hfair.
  assert (Hne : samples <> []).
  { destruct (Hfair 0%nat) as [c' [s [_ [Hp _]]]]. intros ->.
    unfold pick, index in Hp. cbn in Hp.
    destruct (0 <=? _)%Z; [|destruct (_ <=? _)%Z]; discriminate. }
  induction n as [|n IHn]; intros augmented h c Hn Ha.
  - exists 0%nat, augmented, (mkWorld h tp c).
    split; [apply augment_loop_done; lia|]. split; [lia|].
    exists []. now rewrite app_nil_r.
  - assert (Hlt : (Z.of_nat (length augmented) < target)%Z) by lia.
    destruct (Hfair c) as [c' [good [Hle [Hgood Hlabel]]]].
    remember (c' - c)%nat as d eqn:Hd.
    revert c Hle Hd. induction d as [|d IHd]; intros c Hle Hd.
    + assert (c = c') as -> by lia.
      destruct (addressable_lookup h samples good Ha) as [src Hsrc].
      { unfold pick, index in Hgood.
        destruct (0 <=? _)%Z; [|destruct (_ <=? _)%Z; [|discriminate]];
          eapply list_elem_of_lookup_2, Hgood. }
      destruct (IHn (augmented ++
                       [mkTrainingSample (length h) (label good)
                          (String.append (source good) "_augmented")
                          (element_id good) (element_name good)])
                    (h ++ [synthesized (features good) src (label good)
                             (tp (S c')) (tp (S (S c'))) (tp (S (S (S c'))))
                             (tp (S (S (S (S c')))))])
                    (draws (label good) (tp (S (S c'))) + S c')%nat)
        as [fuel [out [w' [Hrun [Hlen [synths Hout]]]]]].
      { rewrite length_app. cbn [length]. lia. }
      { now apply addressable_grow. }
      exists (S fuel), out, w'. split; [|split].
      * rewrite augment_loop_step by assumption. rewrite Hgood.
        apply String.eqb_neq in Hlabel. rewrite Hlabel.
        rewrite (synthesize_spec _ _ _ _ _ Hsrc). exact Hrun.
      * rewrite length_app in Hlen. cbn [length] in Hlen. lia.
      * eexists. rewrite Hout, <- app_assoc. reflexivity.
    + destruct (pick_unit samples (tp c) Hne (Htp c)) as [base [Hpick Hin]].
      destruct (String.eqb_spec (label base) "none") as [Hnone | Hsome].
      * destruct (IHd (S c)) as [fuel [out [w' [Hrun Hrest]]]]; [lia | lia |].
        exists (S fuel), out, w'. split; [|exact Hrest].
        rewrite augment_loop_step by assumption. rewrite Hpick.
        apply String.eqb_eq in Hnone. rewrite Hnone. exact Hrun.
      * destruct (addressable_lookup h samples base Ha Hin) as [src Hsrc].
        destruct (IHn (augmented ++
                         [mkTrainingSample (length h) (label base)
                            (String.append (source base) "_augmented")
                            (element_id base) (element_name base)])
                      (h ++ [synthesized (features base) src (label base)
                               (tp (S c)) (tp (S (S c))) (tp (S (S (S c))))
                               (tp (S (S (S (S c)))))])
                      (draws (label base) (tp (S (S c))) + S c)%nat)
          as [fuel [out [w' [Hrun [Hlen [synths Hout]]]]]].
        { rewrite length_app. cbn [length]. lia. }
        { now apply addressable_grow. }
        exists (S fuel), out, w'. split; [|split].
        -- rewrite augment_loop_step by assumption. rewrite Hpick.
           apply String.eqb_neq in Hsome. rewrite Hsome.
           rewrite (synthesize_spec _ _ _ _ _ Hsrc). exact Hrun.
        -- rewrite length_app in Hlen. cbn [length] in Hlen. lia.
        -- eexists. rewrite Hout, <- app_assoc. reflexivity.
Qed.

(** A corpus without "none" samples makes every tape fair. *)
Lemma fair_without_none tp samples :
  unit_tape tp -> samples <> [] ->
  (forall s, s ∈ samples -> label s <> "none") ->
  fair tp samples.
Proof.
  intros Htp Hne Hall c.
  destruct (pick_unit samples (tp c) Hne (Htp c)) as [x [Hx Hin]].
  exists c, x. split; [lia|]. split; [exact Hx | now apply Hall].
Qed.

(** ** A small base corpus *)

Lemma build_small_corpus u :
  build_dataset [ Catalog.totp ] [ Catalog.search_site ] (Catalog.world_of u) =
  Ok [ totp_sample; search_sample ] (corpus_world u).
Proof. reflexivity. Qed.

Lemma unit_tape_const (u : Q) : (0 <= u < 1)%Q -> unit_tape (fun _ => u).
Proof. intros H i. exact H. Qed.

(** C6, as amended.  With a non-empty base corpus of "none" samples only and
    a target above its size, augment_dataset neither returns nor raises: no
    amount of fuel ends the loop.  With an empty base corpus and a positive
    target it raises IndexError, out of random.choice.  With a base corpus
    whose samples refer to instances of the heap, on every tape that keeps
    picking a sample with a label other than "none", it returns, the base
    samples first, max(len(samples), target_size) samples in all; it does so
    on every tape when the corpus is not empty and has no "none" sample. *)
Theorem augment_dataset_returns_or_loops (samples : list TrainingSample)
  (target_size : Z) (w : world) :
  unit_tape (tape w) ->
  (samples <> [] ->
   (forall s, s ∈ samples -> label s = "none") ->
   (Z.of_nat (length samples) < target_size)%Z ->
   forall fuel, augment_dataset fuel samples target_size w = OutOfFuel) /\
  (samples = [] -> (0 < target_size)%Z ->
   forall fuel, augment_dataset (S fuel) samples target_size w = Raised IndexError) /\
  (addressable (heap w) samples -> fair (tape w) samples ->
   exists fuel out w',
     augment_dataset fuel samples target_size w = Ok out w' /\
     Z.of_nat (length out) = Z.max (Z.of_nat (length samples)) target_size /\
     (target_size <= Z.of_nat (length out))%Z /\
     take (length samples) out = samples) /\
  (addressable (heap w) samples -> samples <> [] ->
   (forall s, s ∈ samples -> label s <> "none") ->
   exists fuel out w',
     augment_dataset fuel samples target_size w = Ok out w' /\
     Z.of_nat (length out) = Z.max (Z.of_nat (length samples)) target_size /\
     (target_size <= Z.of_nat (length out))%Z /\
     take (length samples) out = samples).
Proof.
  intros Htp. destruct w as [h tp c]. cbn [tape heap] in *.
  assert (Hfair : addressable h samples -> fair tp samples ->
            exists fuel out w',
              augment_dataset fuel samples target_size (mkWorld h tp c) =
                Ok out w' /\
              Z.of_nat (length out) =
                Z.max (Z.of_nat (length samples)) target_size /\
              (target_size <= Z.of_nat (length out))%Z /\
              take (length samples) out = samples).
  { intros Ha Hfair.
    destruct (augment_loop_terminates samples target_size tp Htp Hfair _
                samples h c eq_refl Ha)
      as [fuel [out [w' [Hrun [Hlen [synths ->]]]]]].
    exists fuel, (samples ++ synths), w'.
    split; [exact Hrun|]. split; [exact Hlen|]. split; [lia|].
    now rewrite take_app_length. }
  split; [|split; [|split]].
  - intros Hne Hnone Hlt fuel. unfold augment_dataset.
    now apply all_none_never_returns.
  - intros -> Hlt fuel. unfold augment_dataset.
    apply empty_corpus_raises. cbn [length]. lia.
  - exact Hfair.
  - intros Ha Hne Hall. apply Hfair; [exact Ha|].
    now apply fair_without_none.
Qed.

Lemma augment_dataset_returns_or_loops_witness :
  (forall fuel, augment_dataset fuel [ search_sample ] 2 (corpus_world 0.1) = OutOfFuel) /\
  (exists fuel out w',
     augment_dataset fuel [ totp_sample; search_sample ] 4 (corpus_world 0.1) =
       Ok out w' /\
     Z.of_nat (length out) = Z.max 2 4 /\
     (4 <= Z.of_nat (length out))%Z /\
     take 2 out = [ totp_sample; search_sample ]).
Proof.
  split.
  - apply (augment_dataset_returns_or_loops [ search_sample ] 2 (corpus_world 0.1)).
    + apply (unit_tape_const 0.1). split; [discriminate | reflexivity].
    + discriminate.
    + intros s Hs. apply list_elem_of_singleton in Hs. now subst.
    + reflexivity.
  - assert (Hunit : unit_tape (tape (corpus_world 0.1))).
    { apply (unit_tape_const 0.1). split; [discriminate | reflexivity]. }
    apply (proj1 (proj2 (proj2 (augment_dataset_returns_or_loops
                                  [ totp_sample; search_sample ] 4
                                  (corpus_world 0.1) Hunit)))).
    + repeat constructor.
    + intros c. exists c, totp_sample.
      split; [lia|]. split; [reflexivity | discriminate].
Defined.

(** Why the tape has to be fair: with one sample of each kind, the tape whose
    every draw is 0.6 picks the "none" sample each time, and the loop goes
    on for any amount of fuel. *)
Lemma unfair_tape_never_returns fuel :
  augment_dataset fuel [ totp_sample; search_sample ] 4 (corpus_world 0.6) =
  OutOfFuel.
Proof.
  unfold augment_dataset, corpus_world.
  apply rejecting_tape_never_returns.
  - discriminate.
  - intros i. exists search_sample. split; reflexivity.
  - reflexivity.
Qed.

(** C6 as stated fails: on the corpus made of the one "none" sample of the
    search form, with target size 2, no run raises an error and no run
    returns. *)
Lemma all_none_corpus_is_not_reported :
  ~ (exists fuel e,
       augment_dataset fuel [ search_sample ] 2 (corpus_world 0.1) = Raised e) /\
  ~ (exists fuel out w',
       augment_dataset fuel [ search_sample ] 2 (corpus_world 0.1) = Ok out w').
Proof.
  assert (H : forall fuel,
            augment_dataset fuel [ search_sample ] 2 (corpus_world 0.1) = OutOfFuel).
  { intros fuel. unfold augment_dataset, corpus_world.
    apply all_none_never_returns.
    - apply (unit_tape_const 0.1). split; [discriminate | reflexivity].
    - discriminate.
    - intros s Hs. apply list_elem_of_singleton in Hs. now subst.
    - reflexivity. }
  split.
  - intros [fuel [e He]]. rewrite H in He. discriminate.
  - intros [fuel [out [w' He]]]. rewrite H in He. discriminate.
Qed.

(** ** What the perturbations change *)

Lemma synthesized_type_flags base src lbl r1 r2 u1 u2 :
  type_flags (synthesized base src lbl r1 r2 u1 u2) = type_flags src.
Proof.
  unfold synthesized.
  destruct (lt r1 0.3); destruct (lt r2 0.2 && String.eqb lbl "username");
    destruct src; reflexivity.
Qed.

(** When the first perturbation fires, three autocomplete flags are zeroed
    and "other" is set; the remaining three keep the value of the base. *)
Lemma synthesized_autocomplete base src lbl r1 r2 u1 u2 :
  lt r1 0.3 = true ->
  let o := synthesized base src lbl r1 r2 u1 u2 in
  auto_username o = PyInt 0 /\
  auto_email o = PyInt 0 /\
  auto_current_password o = PyInt 0 /\
  auto_other o = PyInt 1 /\
  auto_new_password o = auto_new_password src /\
  auto_one_time_code o = auto_one_time_code src /\
  auto_off o = auto_off src.
Proof.
  intros H. unfold synthesized. rewrite H.
  destruct (lt r2 0.2 && String.eqb lbl "username");
    destruct src; repeat split; reflexivity.
Qed.

Lemma synthesized_own_to_vector base src lbl r1 r2 u1 u2 :
  own_to_vector (synthesized base src lbl r1 r2 u1 u2) =
  Some (default base (own_to_vector src)).
Proof.
  unfold synthesized.
  destruct (lt r1 0.3); destruct (lt r2 0.2 && String.eqb lbl "username");
    destruct src; reflexivity.
Qed.

(** Evaluate the run [m w] of the goal. *)
Ltac run_concrete :=
  match goal with
  | |- context [?m ?w] =>
      match type of (m w) with
      | result _ =>
          let r := fresh "r" in
          let E := fresh "E" in
          remember (m w) as r eqn:E; vm_compute in E; subst r
      end
  end.

(** C5.  The code at the 2FA entry of the catalog, whose only field has
    autocomplete="one-time-code" and the label "totp".  The second draw is
    0.1, so the 30% perturbation fires; the synthesized features keep
    auto_one_time_code = 1 next to auto_other = 1. *)
Theorem perturbation_at_one_time_code :
  exists sample w' o,
    augment_dataset 1 [ totp_sample ] 2 (corpus_world 0.1) =
      Ok [ totp_sample; sample ] w' /\
    lt (tape (corpus_world 0.1) 1) 0.3 = true /\
    heap w' !! features sample = Some o /\
    auto_one_time_code o = PyInt 1 /\
    auto_other o = PyInt 1 /\
    ones (auto_flags o) = 2%nat.
Proof.
  run_concrete.
  do 3 eexists. split; [reflexivity|]. repeat split; reflexivity.
Qed.

(** C4, as amended.  Extracted features have exactly one of the eight type
    flags (text, email, password, tel, number, search, url, other) at 1 and
    the other seven at 0, and exactly one of the seven autocomplete flags at
    1 and the other six at 0.  Synthesized features carry the eight type
    flags of their base sample. *)
Theorem one_hot_groups (e : element) (base : TrainingSample)
  (h : list FieldFeatures) (src : FieldFeatures) (tp : nat -> Q) (c : nat) :
  (ones (type_flags (extract_fields e)) = 1%nat /\
   zeros (type_flags (extract_fields e)) = 7%nat /\
   ones (auto_flags (extract_fields e)) = 1%nat /\
   zeros (auto_flags (extract_fields e)) = 6%nat) /\
  (h !! features base = Some src ->
   exists sample w' o,
     synthesize base (mkWorld h tp c) = Ok sample w' /\
     heap w' !! features sample = Some o /\
     type_flags o = type_flags src).
Proof.
  split; [apply extract_fields_one_hot|].
  intros Hb. do 3 eexists.
  split; [apply (synthesize_spec _ _ _ _ _ Hb)|].
  cbn [heap features]. split; [apply lookup_snoc_last|].
  apply synthesized_type_flags.
Qed.

Lemma one_hot_groups_witness :
  exists sample w' o,
    synthesize totp_sample (corpus_world 0.1) = Ok sample w' /\
    heap w' !! features sample = Some o /\
    type_flags o =
      type_flags (extract_fields
                    (Catalog.within Catalog.totp_form Catalog.totp_soup
                       Catalog.totp_pin)).
Proof.
  apply (one_hot_groups (bare_input "text") totp_sample corpus_heap
           (extract_fields
              (Catalog.within Catalog.totp_form Catalog.totp_soup
                 Catalog.totp_pin))
           (fun _ => 0.1%Q) 0%nat).
  reflexivity.
Defined.

(** C4 as stated fails.  There are eight type flags; whichever one of them
    is left out of the count, some input has none of the other seven set.
    And the features synthesized from the 2FA entry have two autocomplete
    flags set. *)
Lemma one_hot_of_seven_type_flags_fails :
  (forall f, length (type_flags f) = 8%nat) /\
  Forall2 (fun i t =>
             ones (delete i (type_flags (extract_fields (bare_input t)))) = 0%nat)
          [ 0; 1; 2; 3; 4; 5; 6; 7 ]%nat
          [ "text"; "email"; "password"; "tel"; "number"; "search"; "url";
            "checkbox" ] /\
  (exists sample w' o,
     synthesize totp_sample (corpus_world 0.1) = Ok sample w' /\
     heap w' !! features sample = Some o /\
     ones (auto_flags o) = 2%nat).
Proof.
  split; [reflexivity|]. split.
  - repeat (constructor; [vm_compute; reflexivity|]). constructor.
  - run_concrete. do 3 eexists. repeat split; reflexivity.
Qed.

(** ** Serialisation of synthesized samples *)

Lemma call_to_vector_returns a h tp c v :
  vector_of h a = Some v ->
  call_to_vector a (mkWorld h tp c) = Ok v (mkWorld h tp c).
Proof.
  unfold call_to_vector, vector_of, bind, load, ret. cbv zeta.
  cbn [heap tape cursor].
  destruct (h !! a) as [o|]; [|discriminate].
  destruct (own_to_vector o) as [self|].
  - cbn [heap]. destruct (h !! self) as [o'|]; [|discriminate].
    cbn [mbind option_bind]. now intros ->.
  - now intros ->.
Qed.

Lemma call_to_vector_Ok a h tp c v w' :
  call_to_vector a (mkWorld h tp c) = Ok v w' <->
  vector_of h a = Some v /\ w' = mkWorld h tp c.
Proof.
  split.
  - unfold call_to_vector, vector_of, bind, load, ret, raise.
    cbv zeta. cbn [heap tape cursor].
    destruct (h !! a) as [o|]; [|discriminate].
    destruct (own_to_vector o) as [self|].
    + cbn [heap]. destruct (h !! self) as [o'|]; [|discriminate].
      cbn [mbind option_bind].
      destruct (to_vector o') as [x|]; [|discriminate].
      intros H. injection H as -> <-. split; reflexivity.
    + destruct (to_vector o) as [x|]; [|discriminate].
      intros H. injection H as -> <-. split; reflexivity.
  - intros [Hv ->]. now apply call_to_vector_returns.
Qed.

(** A call of to_vector returns and leaves the world as it is, or raises. *)
Lemma call_to_vector_cases a w :
  (exists v, call_to_vector a w = Ok v w) \/
  (exists e, call_to_vector a w = Raised e).
Proof.
  destruct w as [h tp c].
  unfold call_to_vector, bind, load, ret, raise. cbv zeta.
  cbn [heap tape cursor].
  destruct (h !! a) as [o|]; [|eauto].
  destruct (own_to_vector o) as [self|].
  - cbn [heap]. destruct (h !! self) as [o'|]; [|eauto].
    destruct (to_vector o'); eauto.
  - destruct (to_vector o); eauto.
Qed.

Lemma vector_of_grow h ext a v :
  vector_of h a = Some v -> vector_of (h ++ ext) a = Some v.
Proof.
  unfold vector_of. destruct (h !! a) as [o|] eqn:Ho; [|discriminate].
  rewrite (lookup_app_l_Some _ _ _ _ Ho).
  destruct (own_to_vector o) as [self|]; [|auto].
  destruct (h !! self) as [o'|] eqn:Hs; [|discriminate].
  now rewrite (lookup_app_l_Some _ _ _ _ Hs).
Qed.

Lemma pick_elem samples u x : pick samples u = Some x -> x ∈ samples.
Proof.
  unfold pick, index. intros H.
  destruct (0 <=? _)%Z; [|destruct (_ <=? _)%Z; [|discriminate]];
    eapply list_elem_of_lookup_2, H.
Qed.

(** The loop only appends: samples to [augmented], instances to the heap. *)
Lemma augment_loop_appends samples target tp h0 :
  (forall s, s ∈ samples -> is_Some (h0 !! features s)) ->
  forall fuel augmented ext c out w',
    augment_loop fuel samples target augmented (mkWorld (h0 ++ ext) tp c) =
      Ok out w' ->
    exists synths ext' c',
      out = augmented ++ synths /\
      w' = mkWorld (h0 ++ ext ++ ext') tp c' /\
      Forall (made_from samples h0 (heap w')) synths.
Proof.
  intros Hvalid. induction fuel as [|fuel IH]; intros augmented ext c out w' Hrun.
  - cbn [augment_loop] in Hrun.
    destruct (Z.of_nat (length augmented) <? target)%Z; [discriminate|].
    injection Hrun as <- <-. exists [], [], c.
    rewrite !app_nil_r. repeat split. constructor.
  - destruct (Z.ltb_spec (Z.of_nat (length augmented)) target) as [Hlt | Hge].
    2:{ rewrite augment_loop_done in Hrun by exact Hge.
        injection Hrun as <- <-. exists [], [], c.
        rewrite !app_nil_r. repeat split. constructor. }
    destruct (decide (samples = [])) as [-> | Hne].
    { rewrite empty_corpus_raises in Hrun by exact Hlt. discriminate. }
    rewrite augment_loop_step in Hrun by assumption.
    destruct (pick samples (tp c)) as [base|] eqn:Hpick; [|discriminate].
    destruct (String.eqb (label base) "none").
    { apply IH in Hrun. exact Hrun. }
    pose proof (pick_elem _ _ _ Hpick) as Hin.
    destruct (Hvalid base Hin) as [src Hsrc].
    rewrite (synthesize_spec _ _ _ _ _ (lookup_app_l_Some _ ext _ _ Hsrc)) in Hrun.
    rewrite <- app_assoc in Hrun. apply IH in Hrun.
    destruct Hrun as [synths [ext' [c' [-> [-> Hmade]]]]].
    eexists (_ :: synths), (_ :: ext'), c'.
    split; [now rewrite <- app_assoc|].
    split; [now rewrite <- !app_assoc|].
    constructor; [|exact Hmade].
    exists base, src. eexists. cbn [features label source heap].
    split; [exact Hin|]. split; [exact Hsrc|]. split.
    { rewrite !app_assoc. rewrite <- (app_assoc _ [_] ext').
      apply list_lookup_middle. reflexivity. }
    split; [apply synthesized_own_to_vector|]. split; reflexivity.
Qed.

Lemma save_dataset_spec samples h tp c rows :
  mapM (row_of h) samples = Some rows ->
  save_dataset samples (mkWorld h tp c) = Ok rows (mkWorld h tp c).
Proof.
  unfold save_dataset. intros H.
  assert (G : forall data,
            for_each samples
              (fun data sample =>
                 bind (call_to_vector (features sample)) (fun v =>
                   ret (data ++
                        [ mkRow v (label sample) (source sample)
                            (element_id sample) (element_name sample) ])))
              data (mkWorld h tp c) =
            Ok (data ++ rows) (mkWorld h tp c)).
  { apply mapM_Some in H. induction H as [|s r l k Hs _ IH]; intros data.
    - cbn. now rewrite app_nil_r.
    - cbn [for_each]. unfold bind at 1. unfold bind at 1.
      unfold row_of in Hs.
      destruct (vector_of h (features s)) as [v|] eqn:Hv; [|discriminate].
      rewrite (call_to_vector_returns _ _ _ _ _ Hv).
      injection Hs as <-. unfold ret at 1. rewrite IH.
      now rewrite <- app_assoc. }
  apply (G []).
Qed.

Lemma made_from_vector samples h0 ext s :
  (forall b, b ∈ samples -> is_Some (vector_of h0 (features b))) ->
  made_from samples h0 (h0 ++ ext) s ->
  exists base o v,
    base ∈ samples /\ label s = label base /\
    source s = String.append (source base) "_augmented" /\
    (h0 ++ ext) !! features s = Some o /\ is_Some (own_to_vector o) /\
    vector_of h0 (features base) = Some v /\
    vector_of (h0 ++ ext) (features s) = Some v.
Proof.
  intros Hall [base [src [o [Hin [Hsrc [Ho [Hown [Hlabel Hsource]]]]]]]].
  destruct (Hall base Hin) as [v Hv].
  exists base, o, v. repeat split; try assumption.
  { rewrite Hown. eauto. }
  unfold vector_of. rewrite Ho, Hown.
  unfold vector_of in Hv. rewrite Hsrc in Hv.
  destruct (own_to_vector src) as [self|]; cbn [default].
  - destruct (h0 !! self) as [o'|] eqn:Hs; [|discriminate].
    now rewrite (lookup_app_l_Some _ _ _ _ Hs).
  - rewrite (lookup_app_l_Some _ _ _ _ Hsrc). exact Hv.
Qed.

(** C10.  The copy loop stores under "to_vector" of the new instance the
    method bound by the base instance.  So, when the base samples can be
    serialised, every record that save_dataset writes for a synthesized
    sample holds the vector that the base sample had before the
    augmentation, whatever the perturbations stored in the fields of the new
    instance; the records of the base samples hold their own vectors. *)
Theorem synthesized_rows_are_base_rows (fuel : nat)
  (samples : list TrainingSample) (target_size : Z) (w : world)
  (out : list TrainingSample) (w' : world) :
  Forall (fun s => exists v, call_to_vector (features s) w = Ok v w) samples ->
  augment_dataset fuel samples target_size w = Ok out w' ->
  exists synths rows,
    out = samples ++ synths /\
    save_dataset out w' = Ok rows w' /\
    Forall2 (fun s r => call_to_vector (features s) w = Ok (row_features r) w)
            samples (take (length samples) rows) /\
    Forall2 (fun s r =>
               exists base o,
                 base ∈ samples /\
                 label s = label base /\
                 heap w' !! features s = Some o /\
                 is_Some (own_to_vector o) /\
                 call_to_vector (features s) w' = Ok (row_features r) w' /\
                 call_to_vector (features base) w = Ok (row_features r) w)
            synths (drop (length samples) rows).
Proof.
  destruct w as [h tp c]. intros Hser Hrun.
  assert (Hall : forall b, b ∈ samples -> is_Some (vector_of h (features b))).
  { intros b Hb. rewrite Forall_forall in Hser.
    destruct (Hser b Hb) as [v Hv]. apply call_to_vector_Ok in Hv as [Hv _]. eauto. }
  assert (Hvalid : forall s, s ∈ samples -> is_Some (h !! features s)).
  { intros s Hs. destruct (Hall s Hs) as [v Hv]. unfold vector_of in Hv.
    destruct (h !! features s); [eauto | discriminate]. }
  unfold augment_dataset in Hrun.
  rewrite <- (app_nil_r h) in Hrun.
  apply (augment_loop_appends samples target_size tp h Hvalid) in Hrun.
  destruct Hrun as [synths [ext [c' [-> [-> Hmade]]]]].
  cbn [app heap] in *.
  assert (Hbase : Forall2 (fun s r => row_of (h ++ ext) s = Some r /\
                                      vector_of h (features s) = Some (row_features r))
                          samples
                          (map (fun s => mkRow (default [] (vector_of h (features s)))
                                           (label s) (source s) (element_id s)
                                           (element_name s)) samples)).
  { apply Forall2_fmap_r, Forall_Forall2_diag, Forall_forall. intros s Hs.
    destruct (Hall s Hs) as [v Hv]. unfold row_of, compose. cbv beta.
    rewrite (vector_of_grow _ ext _ _ Hv), Hv. split; reflexivity. }
  assert (Hsyn : exists rows2,
            Forall2 (fun s r => row_of (h ++ ext) s = Some r /\
                       exists base o,
                         base ∈ samples /\ label s = label base /\
                         (h ++ ext) !! features s = Some o /\
                         is_Some (own_to_vector o) /\
                         vector_of (h ++ ext) (features s) = Some (row_features r) /\
                         vector_of h (features base) = Some (row_features r))
                    synths rows2).
  { clear Hbase. induction Hmade as [|s l Hs _ IH].
    - exists []. constructor.
    - destruct IH as [rows2 IH].
      destruct (made_from_vector samples h ext s Hall Hs)
        as [base [o [v [Hin [Hl [_ [Ho [Hown [Hvb Hvs]]]]]]]]].
      exists (mkRow v (label s) (source s) (element_id s) (element_name s) :: rows2).
      constructor; [|exact IH]. split.
      + unfold row_of. now rewrite Hvs.
      + exists base, o. cbn [row_features]. repeat split; assumption. }
  destruct Hsyn as [rows2 Hsyn].
  set (rows1 := map _ samples) in Hbase.
  assert (Hlen : length rows1 = length samples) by (unfold rows1; apply length_map).
  exists synths, (rows1 ++ rows2).
  split; [reflexivity|]. split; [|split].
  - apply save_dataset_spec, mapM_Some, Forall2_app.
    + eapply Forall2_impl; [exact Hbase|]. cbv beta. intros s r [H _]. exact H.
    + eapply Forall2_impl; [exact Hsyn|]. cbv beta. intros s r [H _]. exact H.
  - rewrite <- Hlen, take_app_length.
    eapply Forall2_impl; [exact Hbase|]. cbv beta. intros s r [_ H].
    apply call_to_vector_Ok. auto.
  - rewrite <- Hlen, drop_app_length.
    eapply Forall2_impl; [exact Hsyn|]. cbv beta.
    intros s r [_ [base [o [Hin [Hl [Ho [Hown [Hvs Hvb]]]]]]]].
    exists base, o. repeat split; try assumption.
    + apply call_to_vector_Ok. auto.
    + apply call_to_vector_Ok. auto.
Qed.

Lemma synthesized_rows_are_base_rows_witness :
  exists out w',
    augment_dataset 1 [ totp_sample ] 2 (corpus_world 0.1) = Ok out w' /\
    exists synths rows,
      out = [ totp_sample ] ++ synths /\
      save_dataset out w' = Ok rows w' /\
      Forall2 (fun s r =>
                 call_to_vector (features s) (corpus_world 0.1) =
                   Ok (row_features r) (corpus_world 0.1))
              [ totp_sample ] (take 1 rows) /\
      Forall2 (fun s r =>
                 exists base o,
                   base ∈ [ totp_sample ] /\
                   label s = label base /\
                   heap w' !! features s = Some o /\
                   is_Some (own_to_vector o) /\
                   call_to_vector (features s) w' = Ok (row_features r) w' /\
                   call_to_vector (features base) (corpus_world 0.1) =
                     Ok (row_features r) (corpus_world 0.1))
              synths (drop 1 rows).
Proof.
  run_concrete. do 2 eexists. split; [reflexivity|].
  apply (synthesized_rows_are_base_rows 1 [ totp_sample ] 2 (corpus_world 0.1)).
  - constructor; [|constructor].
    run_concrete. eexists. reflexivity.
  - vm_compute. reflexivity.
Defined.

(** The run of the witness: the perturbation fires and sets auto_other in
    the fields of the new instance, and slot 14 of its record is 0.0. *)
Lemma perturbation_not_serialised :
  exists out w' rows o r,
    augment_dataset 1 [ totp_sample ] 2 (corpus_world 0.1) = Ok out w' /\
    save_dataset out w' = Ok rows w' /\
    heap w' !! 2%nat = Some o /\ auto_other o = PyInt 1 /\
    feature_names !! 14%nat = Some "auto_other" /\
    rows !! 1%nat = Some r /\
    row_features r !! 14%nat = float32 (PyInt 0).
Proof.
  run_concrete. do 5 eexists. split; [reflexivity|].
  run_concrete. split; [reflexivity|]. repeat split; reflexivity.
Qed.

(** ** The corpus builder *)

Lemma extracted_at_cons a0 e es :
  extracted_at a0 (e :: es) =
  mkExtracted a0 (get_default (elem e) "id" "") (get_default (elem e) "name" "")
              (input_type_of e) :: extracted_at (S a0) es.
Proof.
  unfold extracted_at. cbn [imap]. rewrite Nat.add_0_r. f_equal.
  apply imap_ext. intros i x _. cbn. f_equal. lia.
Qed.

Lemma extract_loop_spec l acc h tp c :
  for_each l extract_step acc (mkWorld h tp c) =
  Ok (acc ++ extracted_at (length h) (List.filter qualifies l))
     (mkWorld (h ++ map extract_fields (List.filter qualifies l)) tp c).
Proof.
  revert acc h. induction l as [|e l IH]; intros acc h.
  - cbn. now rewrite !app_nil_r.
  - cbn [for_each List.filter]. unfold bind at 1.
    unfold extract_step, qualifies, input_type_of.
    destruct (bool_decide _); cbn [negb].
    + unfold ret at 1. apply IH.
    + unfold bind at 1. unfold extract_from_element, alloc. cbn [heap tape cursor].
      unfold ret at 1. rewrite IH.
      rewrite extracted_at_cons, length_app. cbn [length map].
      rewrite Nat.add_1_r, <- !app_assoc. reflexivity.
Qed.

Lemma extract_features_from_html_spec soup h tp c :
  extract_features_from_html soup (mkWorld h tp c) =
  Ok (extracted_at (length h) (qualifying soup))
     (mkWorld (h ++ map extract_fields (qualifying soup)) tp c).
Proof. unfold extract_features_from_html. apply extract_loop_spec. Qed.

Lemma pure_loop_spec {A B} (f : A -> B) (l : list A) (acc : list B) w :
  for_each l (fun acc x => ret (acc ++ [f x])) acc w = Ok (acc ++ map f l) w.
Proof.
  revert acc. induction l as [|x l IH]; intros acc.
  - cbn. now rewrite app_nil_r.
  - cbn [for_each map]. unfold bind at 1. unfold ret at 1. rewrite IH.
    now rewrite <- app_assoc.
Qed.

Lemma entry_samples_extracted (labelled : bool) (s : site) (a0 : addr) :
  map (fun result =>
         mkTrainingSample (ex_features result)
           (if labelled
            then default "none"
                   (default (∅ : gmap string string) (site_labels s)
                      !! ex_element_name result)
            else "none")
           (site_name s) (ex_element_id result) (ex_element_name result))
      (extracted_at a0 (qualifying (site_html s))) =
  entry_samples labelled s a0.
Proof.
  unfold extracted_at, entry_samples.
  change (map ?f ?l) with (f <$> l). rewrite fmap_imap.
  apply imap_ext. intros i e _. destruct labelled; reflexivity.
Qed.

Lemma site_step_spec samples s h tp c :
  site_step samples s (mkWorld h tp c) =
  Ok (samples ++ entry_samples true s (length h))
     (mkWorld (h ++ entry_instances s) tp c).
Proof.
  unfold site_step. unfold bind at 1.
  rewrite extract_features_from_html_spec. cbv zeta.
  rewrite (pure_loop_spec
             (fun result =>
                mkTrainingSample (ex_features result)
                  (default "none"
                     (default (∅ : gmap string string) (site_labels s)
                        !! ex_element_name result))
                  (site_name s) (ex_element_id result) (ex_element_name result))).
  now rewrite (entry_samples_extracted true).
Qed.

Lemma negative_step_spec samples s h tp c :
  negative_step samples s (mkWorld h tp c) =
  Ok (samples ++ entry_samples false s (length h))
     (mkWorld (h ++ entry_instances s) tp c).
Proof.
  unfold negative_step. unfold bind at 1.
  rewrite extract_features_from_html_spec.
  rewrite (pure_loop_spec
             (fun result =>
                mkTrainingSample (ex_features result) "none"
                  (site_name s) (ex_element_id result) (ex_element_name result))).
  now rewrite (entry_samples_extracted false).
Qed.

Lemma entries_loop_spec (labelled : bool) sites acc h tp c :
  for_each sites (if labelled then site_step else negative_step) acc
           (mkWorld h tp c) =
  Ok (acc ++ corpus_samples labelled sites (length h))
     (mkWorld (h ++ corpus_instances sites) tp c).
Proof.
  revert acc h. induction sites as [|s sites IH]; intros acc h.
  - cbn. now rewrite !app_nil_r.
  - cbn [for_each corpus_samples]. unfold bind at 1.
    assert (Hstep : (if labelled then site_step else negative_step) acc s
                      (mkWorld h tp c) =
                    Ok (acc ++ entry_samples labelled s (length h))
                       (mkWorld (h ++ entry_instances s) tp c)).
    { destruct labelled; [apply site_step_spec | apply negative_step_spec]. }
    rewrite Hstep, IH. unfold corpus_instances. cbn [flat_map].
    rewrite length_app. unfold entry_instances at 1. rewrite length_map.
    now rewrite <- !app_assoc.
Qed.

Lemma qualifying_spec soup e :
  In e (qualifying soup) <->
  In e (find_all soup "input") /\ ~ In (input_type_of e) SKIPPED_TYPES.
Proof.
  unfold qualifying, qualifies. rewrite filter_In, negb_true_iff.
  rewrite bool_decide_eq_false, list_elem_of_In. reflexivity.
Qed.

Lemma corpus_samples_negative sites a0 sample :
  In sample (corpus_samples false sites a0) -> label sample = "none".
Proof.
  revert a0. induction sites as [|s sites IH]; intros a0; cbn [corpus_samples].
  - intros [].
  - rewrite in_app_iff. intros [H | H]; [|eapply IH, H].
    unfold entry_samples in H. apply list_elem_of_In, elem_of_lookup_imap in H.
    destruct H as [i [e [-> _]]]. reflexivity.
Qed.

(** C9.  build_dataset returns, for each entry of the catalog in turn, one
    sample for each input element of its page whose type (lower-cased,
    "text" when absent) is none of hidden, submit, button, image, reset;
    nothing for the other inputs; the label is the one the entry gives to the
    name of the field, "none" when it gives none; the samples of the
    negative examples follow, every one labelled "none".  Each sample refers
    to a new instance holding the extracted features. *)
Theorem build_dataset_spec (TEST_SITES NEGATIVE_EXAMPLES : list site)
  (h : list FieldFeatures) (tp : nat -> Q) (c : nat) :
  build_dataset TEST_SITES NEGATIVE_EXAMPLES (mkWorld h tp c) =
    Ok (corpus_samples true TEST_SITES (length h) ++
        corpus_samples false NEGATIVE_EXAMPLES
          (length h + length (corpus_instances TEST_SITES)))
       (mkWorld (h ++ corpus_instances TEST_SITES ++
                      corpus_instances NEGATIVE_EXAMPLES) tp c) /\
  (forall (s : site) (a0 : addr),
     length (entry_samples true s a0) = length (qualifying (site_html s)) /\
     forall (i : nat) (e : element),
       qualifying (site_html s) !! i = Some e ->
       entry_samples true s a0 !! i =
         Some (mkTrainingSample (a0 + i) (label_for s e) (site_name s)
                 (get_default (elem e) "id" "") (get_default (elem e) "name" ""))) /\
  (forall (soup : node) (e : element),
     In e (qualifying soup) <->
     In e (find_all soup "input") /\ ~ In (input_type_of e) SKIPPED_TYPES) /\
  (forall (a0 : addr) (sample : TrainingSample),
     In sample (corpus_samples false NEGATIVE_EXAMPLES a0) ->
     label sample = "none").
Proof.
  split; [|split; [|split]].
  - unfold build_dataset. unfold bind at 1.
    rewrite (entries_loop_spec true). cbn [app].
    rewrite (entries_loop_spec false), length_app.
    now rewrite <- app_assoc.
  - intros s a0. unfold entry_samples. split; [apply length_imap|].
    intros i e He. now rewrite list_lookup_imap, He.
  - apply qualifying_spec.
  - intros a0 sample. apply corpus_samples_negative.
Qed.

Lemma build_dataset_spec_witness :
  build_dataset [ Catalog.github ] [ Catalog.search_site ]
                (mkWorld [] (fun _ => 0.1%Q) 0) =
    Ok (corpus_samples true [ Catalog.github ] 0 ++
        corpus_samples false [ Catalog.search_site ]
          (0 + length (corpus_instances [ Catalog.github ])))
       (mkWorld ([] ++ corpus_instances [ Catalog.github ] ++
                       corpus_instances [ Catalog.search_site ])
                (fun _ => 0.1%Q) 0) /\
  entry_samples true Catalog.github 0 !! 1%nat =
    Some (mkTrainingSample 1 "password" "GitHub Login" "password" "password") /\
  length (entry_samples true Catalog.github 0) = 2%nat /\
  length (find_all Catalog.github_soup "input") = 3%nat.
Proof.
  destruct (build_dataset_spec [ Catalog.github ] [ Catalog.search_site ] []
              (fun _ => 0.1%Q) 0%nat) as [Hrun [Hentry _]].
  destruct (Hentry Catalog.github 0%nat) as [Hlen Hlookup].
  split; [exact Hrun|]. split; [|split; [|reflexivity]].
  - exact (Hlookup 1%nat
             (Catalog.within Catalog.github_form Catalog.github_soup
                Catalog.github_password) eq_refl).
  - rewrite Hlen. reflexivity.
Defined.

(** * Further properties *)

(** ** Type classification *)

Lemma set_input_type_slot f t :
  _set_input_type f t = setfield (type_slot_of t) (PyInt 1) f.
Proof.
  unfold _set_input_type, type_mapping, type_slot_of.
  repeat (rewrite lookup_insert;
          match goal with
          | |- context [String.eqb t ?s] =>
              destruct (String.eqb_spec t s) as [-> | ?];
              [reflexivity | rewrite decide_False by congruence]
          end).
  rewrite lookup_singleton.
  destruct (String.eqb_spec t "url") as [-> | ?]; [reflexivity|].
  now rewrite decide_False by congruence.
Qed.

Lemma type_slot_of_slot t : type_slot_of t ∈ type_slots.
Proof.
  unfold type_slot_of, type_slots.
  repeat (destruct (String.eqb t _); [set_solver|]). set_solver.
Qed.

Lemma type_flag_fields (e : element) (slot : string) :
  slot ∈ type_slots ->
  getfield slot (extract_fields e) =
    Some (PyInt (if String.eqb slot (type_slot_of (input_type_of e)) then 1 else 0)).
Proof.
  intros Hs.
  rewrite extract_fields_flags by (apply elem_of_app; now left).
  unfold classified_part. rewrite set_input_type_slot.
  fold (input_type_of e).
  pose proof (type_slot_of_slot (input_type_of e)) as Ht.
  destruct (set_autocomplete_classified
              (setfield (type_slot_of (input_type_of e)) (PyInt 1) new_FieldFeatures)
              (get_default (elem e) "autocomplete" "")) as [aslot [Ha ->]].
  apply Classified_auto_slot in Ha.
  set (tslot := type_slot_of (input_type_of e)) in *. clearbody tslot.
  unfold type_slots in Hs, Ht. unfold auto_slots in Ha.
  split_slot Hs; split_slot Ht; split_slot Ha; reflexivity.
Qed.

(** The type attribute, lower-cased and "text" when absent, selects one type
    flag through the table; that flag is 1 and the seven others are 0.  The
    letter case of the attribute does not matter, and a type outside the
    table gives type_other. *)
Theorem extracted_type_flags (e : element) (slot : string) :
  slot ∈ type_slots ->
  getfield slot (extract_fields e) =
    Some (PyInt (if String.eqb slot (type_slot_of (input_type_of e)) then 1 else 0)).
Proof. exact (type_flag_fields e slot). Qed.

Lemma extracted_type_flags_witness :
  getfield "type_password"
    (extract_fields (Catalog.within Catalog.github_form Catalog.github_soup
                       Catalog.github_password)) = Some (PyInt 1) /\
  getfield "type_text"
    (extract_fields (Catalog.within Catalog.github_form Catalog.github_soup
                       Catalog.github_password)) = Some (PyInt 0).
Proof.
  split.
  - apply (extracted_type_flags
             (Catalog.within Catalog.github_form Catalog.github_soup
                Catalog.github_password) "type_password").
    unfold type_slots. set_solver.
  - apply (extracted_type_flags
             (Catalog.within Catalog.github_form Catalog.github_soup
                Catalog.github_password) "type_text").
    unfold type_slots. set_solver.
Defined.

(** ** Context features *)

Lemma parent_name_lower s : (if truthy s then lower s else "") = lower s.
Proof. destruct s; reflexivity. Qed.

Lemma sibling_flag_fold (slot ty : string) x l f :
  (slot = "has_password_sibling" /\ ty = "password") \/
  (slot = "has_email_sibling" /\ ty = "email") ->
  getfield slot (fold_left (sibling_step x) l f) =
  if existsb (fun s => ne s x && String.eqb (lower (get_default s "type" "")) ty) l
  then Some (PyInt 1) else getfield slot f.
Proof.
  intros Hslot. revert f. induction l as [|s l IH]; intros f; [reflexivity|].
  cbn [fold_left existsb]. rewrite IH. unfold sibling_step.
  destruct (existsb _ l) eqn:El; [now rewrite orb_true_r|]. rewrite orb_false_r.
  destruct (ne s x); cbn [andb]; [|reflexivity].
  destruct Hslot as [[-> ->] | [-> ->]].
  - destruct (String.eqb (lower (get_default s "type" "")) "password") eqn:E1;
      destruct (String.eqb (lower (get_default s "type" "")) "email") eqn:E2;
      reflexivity.
  - destruct (String.eqb (lower (get_default s "type" "")) "password") eqn:E1;
      destruct (String.eqb (lower (get_default s "type" "")) "email") eqn:E2;
      reflexivity.
Qed.

Lemma existsb_flag (b : bool) (n : number) :
  (if b then Some (PyInt 1) else Some (PyInt 0)) = Some n <-> n = flag b.
Proof. unfold flag. destruct b; split; congruence. Qed.

Lemma parent_fields (e : element) :
  let f := extract_fields e in
  match find_parent e with
  | Some parent =>
      parent_is_form f = flag (String.eqb (lower (name parent)) "form") /\
      parent_is_div f = flag (String.eqb (lower (name parent)) "div") /\
      parent_is_section f = flag (String.eqb (lower (name parent)) "section") /\
      sibling_count f =
        PyFloat (inject_Z (Z.of_nat (length (find_all_children parent "input"))) / 10) /\
      has_password_sibling f = flag (has_sibling_of_type parent e "password") /\
      has_email_sibling f = flag (has_sibling_of_type parent e "email")
  | None =>
      parent_is_form f = PyInt 0 /\ parent_is_div f = PyInt 0 /\
      parent_is_section f = PyInt 0 /\ sibling_count f = PyFloat 0 /\
      has_password_sibling f = PyInt 0 /\ has_email_sibling f = PyInt 0
  end.
Proof.
  cbv zeta.
  assert (Hread : forall n,
            n = "parent_is_form" \/ n = "parent_is_div" \/
            n = "parent_is_section" \/ n = "sibling_count" \/
            n = "has_password_sibling" \/ n = "has_email_sibling" ->
            exists base,
              getfield n base = getfield n new_FieldFeatures /\
              getfield n (extract_fields e) =
              getfield n
                (match find_parent e with
                 | Some parent =>
                     fold_left (sibling_step (elem e))
                       (find_all_children parent "input")
                       (setfield "sibling_count"
                          (PyFloat (inject_Z (Z.of_nat
                             (length (find_all_children parent "input"))) / 10))
                          (setfield "parent_is_section"
                             (flag (String.eqb (lower (name parent)) "section"))
                             (setfield "parent_is_div"
                                (flag (String.eqb (lower (name parent)) "div"))
                                (setfield "parent_is_form"
                                   (flag (String.eqb (lower (name parent)) "form"))
                                   base))))
                 | None => base
                 end)).
  { intros n Hn. unfold extract_fields. cbv zeta.
    match goal with
    | |- context [_extract_context_features ?b _] => exists b
    end.
    split.
    - destruct (classified_part_flags e) as [tslot [aslot [Ht [Ha Heq]]]].
      unfold classified_part in Heq. rewrite Heq.
      apply Classified_auto_slot in Ha.
      unfold type_slots in Ht. unfold auto_slots in Ha.
      destruct Hn as [-> | [-> | [-> | [-> | [-> | ->]]]]];
        repeat (rewrite getfield_setfield_ne by discriminate);
        split_slot Ht; split_slot Ha; reflexivity.
    - unfold _extract_context_features.
      destruct Hn as [-> | [-> | [-> | [-> | [-> | ->]]]]];
        repeat (rewrite getfield_setfield_ne by discriminate);
        destruct (find_parent_named e "form");
        repeat (rewrite getfield_setfield_ne by discriminate);
        destruct (find_parent e); rewrite ?parent_name_lower; reflexivity. }
  destruct (find_parent e) as [parent|] eqn:Hp.
  - repeat split.
    + destruct (Hread "parent_is_form") as [b [_ H]]; [tauto|].
      rewrite siblings_frame in H by discriminate.
      repeat (rewrite getfield_setfield_ne in H by discriminate).
      now injection H.
    + destruct (Hread "parent_is_div") as [b [_ H]]; [tauto|].
      rewrite siblings_frame in H by discriminate.
      repeat (rewrite getfield_setfield_ne in H by discriminate).
      now injection H.
    + destruct (Hread "parent_is_section") as [b [_ H]]; [tauto|].
      rewrite siblings_frame in H by discriminate.
      repeat (rewrite getfield_setfield_ne in H by discriminate).
      now injection H.
    + destruct (Hread "sibling_count") as [b [_ H]]; [tauto|].
      rewrite siblings_frame in H by discriminate.
      now injection H.
    + destruct (Hread "has_password_sibling") as [b [Hb H]]; [tauto|].
      rewrite (sibling_flag_fold "has_password_sibling" "password") in H by tauto.
      repeat (rewrite getfield_setfield_ne in H by discriminate).
      rewrite Hb in H. unfold has_sibling_of_type.
      destruct (existsb _ _); now injection H.
    + destruct (Hread "has_email_sibling") as [b [Hb H]]; [tauto|].
      rewrite (sibling_flag_fold "has_email_sibling" "email") in H by tauto.
      repeat (rewrite getfield_setfield_ne in H by discriminate).
      rewrite Hb in H. unfold has_sibling_of_type.
      destruct (existsb _ _); now injection H.
  - repeat split.
    + destruct (Hread "parent_is_form") as [b [Hb H]]; [tauto|].
      rewrite Hb in H. now injection H.
    + destruct (Hread "parent_is_div") as [b [Hb H]]; [tauto|].
      rewrite Hb in H. now injection H.
    + destruct (Hread "parent_is_section") as [b [Hb H]]; [tauto|].
      rewrite Hb in H. now injection H.
    + destruct (Hread "sibling_count") as [b [Hb H]]; [tauto|].
      rewrite Hb in H. now injection H.
    + destruct (Hread "has_password_sibling") as [b [Hb H]]; [tauto|].
      rewrite Hb in H. now injection H.
    + destruct (Hread "has_email_sibling") as [b [Hb H]]; [tauto|].
      rewrite Hb in H. now injection H.
Qed.

(** The features read off the parent.  With a parent, the three parent flags
    tell whether its tag name is form, div or section (so at most one is 1,
    and none for any other tag); sibling_count is the number of direct input
    children of the parent divided by 10; a sibling flag is 1 exactly when
    some direct input child that differs from the element has that type, the
    letter case of the type ignored.  Without a parent all six stay 0. *)
Theorem parent_features (e : element) :
  let f := extract_fields e in
  match find_parent e with
  | Some parent =>
      parent_is_form f = flag (String.eqb (lower (name parent)) "form") /\
      parent_is_div f = flag (String.eqb (lower (name parent)) "div") /\
      parent_is_section f = flag (String.eqb (lower (name parent)) "section") /\
      sibling_count f =
        PyFloat (inject_Z (Z.of_nat (length (find_all_children parent "input"))) / 10) /\
      has_password_sibling f = flag (has_sibling_of_type parent e "password") /\
      has_email_sibling f = flag (has_sibling_of_type parent e "email")
  | None =>
      parent_is_form f = PyInt 0 /\ parent_is_div f = PyInt 0 /\
      parent_is_section f = PyInt 0 /\ sibling_count f = PyFloat 0 /\
      has_password_sibling f = PyInt 0 /\ has_email_sibling f = PyInt 0
  end.
Proof. exact (parent_fields e). Qed.

(** ** Form features *)

Lemma head_filter_existsb {A} (P : A -> bool) (l : list A) :
  bool_decide (is_Some (head (filter (fun x => P x) l))) = existsb P l.
Proof.
  induction l as [|x l IH]; [reflexivity|].
  cbn [existsb]. destruct (P x) eqn:E.
  - rewrite filter_cons_True by (now rewrite E). reflexivity.
  - rewrite filter_cons_False by (now rewrite E). exact IH.
Qed.

Lemma existsb_pointwise {A} (P Q : A -> bool) (l : list A) :
  (forall x, P x = Q x) -> existsb P l = existsb Q l.
Proof.
  intros H. induction l as [|x l IH]; [reflexivity|].
  cbn [existsb]. now rewrite H, IH.
Qed.

Lemma find_submit form :
  bool_decide (is_Some (find form ["button"; "input"] "type" "submit")) =
  existsb is_submit (map elem (descendants [] form)).
Proof.
  unfold find.
  rewrite (head_filter_existsb
             (fun d => existsb (fun nm => named nm d) ["button"; "input"] &&
                       bool_decide (get d "type" = Some "submit"))).
  apply existsb_pointwise. intros d. unfold is_submit. cbn [existsb].
  now rewrite orb_false_r.
Qed.

Lemma form_fields (e : element) :
  let f := extract_fields e in
  match find_parent_named e "form" with
  | Some form =>
      form_has_submit f =
        flag (existsb is_submit (map elem (descendants [] form))) /\
      form_action_has_login f =
        flag (search ACTION_PATTERN (get_default form "action" ""))
  | None => form_has_submit f = PyInt 0 /\ form_action_has_login f = PyInt 0
  end.
Proof.
  cbv zeta.
  assert (Hbase : forall n,
            n = "form_has_submit" \/ n = "form_action_has_login" ->
            getfield n (classified_part e) = Some (PyInt 0)).
  { intros n Hn.
    destruct (classified_part_flags e) as [tslot [aslot [Ht [Ha ->]]]].
    apply Classified_auto_slot in Ha.
    unfold type_slots in Ht. unfold auto_slots in Ha.
    destruct Hn as [-> | ->]; split_slot Ht; split_slot Ha; reflexivity. }
  assert (Hread : forall n,
            n = "form_has_submit" \/ n = "form_action_has_login" ->
            getfield n (extract_fields e) =
            match find_parent_named e "form" with
            | Some form =>
                getfield n
                  (setfield "form_action_has_login"
                     (flag (search ACTION_PATTERN (get_default form "action" "")))
                     (setfield "form_has_submit"
                        (flag (bool_decide
                                 (is_Some (find form ["button"; "input"] "type" "submit"))))
                        new_FieldFeatures))
            | None => Some (PyInt 0)
            end).
  { intros n Hn. rewrite <- (Hbase n Hn).
    unfold extract_fields, classified_part. cbv zeta.
    unfold _extract_context_features.
    destruct Hn as [-> | ->];
      repeat (rewrite getfield_setfield_ne by discriminate);
      destruct (find_parent_named e "form");
      try reflexivity;
      destruct (find_parent e);
      repeat (rewrite getfield_setfield_ne by discriminate);
      try (rewrite siblings_frame by discriminate);
      repeat (rewrite getfield_setfield_ne by discriminate);
      reflexivity. }
  pose proof (Hread "form_has_submit" (or_introl eq_refl)) as H1.
  pose proof (Hread "form_action_has_login" (or_intror eq_refl)) as H2.
  destruct (find_parent_named e "form") as [form|].
  - rewrite <- find_submit. split; [now injection H1 | now injection H2].
  - split; [now injection H1 | now injection H2].
Qed.

(** [find_parent("form")] is the nearest ancestor whose tag is form. *)
Lemma find_parent_named_nearest e nm p :
  find_parent_named e nm = Some p <->
  exists pre post,
    parents e = pre ++ p :: post /\ named nm p = true /\
    Forall (fun a => named nm a = false) pre.
Proof.
  unfold find_parent_named. generalize (parents e). intros l.
  induction l as [|a l IH].
  - split; [discriminate|]. intros [pre [post [H _]]]. destruct pre; discriminate.
  - destruct (named nm a) eqn:Ea.
    + rewrite filter_cons_True by (now rewrite Ea). cbn [head]. split.
      * intros [= ->]. exists [], l. repeat split; [exact Ea | constructor].
      * intros [pre [post [H [Hp Hpre]]]]. destruct pre as [|b pre].
        -- now injection H as ->.
        -- injection H as -> _. apply Forall_cons in Hpre as [Hb _]. congruence.
    + rewrite filter_cons_False by (now rewrite Ea). rewrite IH. split.
      * intros [pre [post [-> [Hp Hpre]]]]. exists (a :: pre), post.
        repeat split; [exact Hp | now constructor].
      * intros [pre [post [H [Hp Hpre]]]]. destruct pre as [|b pre].
        -- injection H as -> _. congruence.
        -- injection H as -> ->. apply Forall_cons in Hpre as [_ Hpre].
           exists pre, post. auto.
Qed.

Lemma search_action text :
  search ACTION_PATTERN text = true <->
  exists kw, In kw ["login"; "signin"; "auth"; "session"] /\ Infix kw (lower text).
Proof.
  unfold ACTION_PATTERN. cbn [search]. rewrite !orb_true_iff, !contains_spec.
  cbn [lower lower_char]. split.
  - intros [H | [H | [H | H]]]; eexists; (split; [|exact H]); cbn; auto.
  - intros [kw [Hin H]]. cbn in Hin.
    destruct Hin as [<- | [<- | [<- | [<- | []]]]]; auto.
Qed.

(** The features read off the enclosing form, which is the nearest ancestor
    whose tag is form.  form_has_submit is 1 exactly when the form contains,
    at any depth, a button or an input whose type attribute is exactly
    "submit"; form_action_has_login is 1 exactly when the action attribute
    contains login, signin, auth or session, letter case ignored.  Without an
    enclosing form both are 0. *)
Theorem form_features (e : element) :
  let f := extract_fields e in
  match find_parent_named e "form" with
  | Some form =>
      (exists pre post,
         parents e = pre ++ form :: post /\ named "form" form = true /\
         Forall (fun a => named "form" a = false) pre) /\
      form_has_submit f =
        flag (existsb is_submit (map elem (descendants [] form))) /\
      form_action_has_login f =
        flag (search ACTION_PATTERN (get_default form "action" "")) /\
      (form_action_has_login f = PyInt 1 <->
       exists kw, In kw ["login"; "signin"; "auth"; "session"] /\
                  Infix kw (lower (get_default form "action" "")))
  | None => form_has_submit f = PyInt 0 /\ form_action_has_login f = PyInt 0
  end.
Proof.
  cbv zeta. pose proof (form_fields e) as H. cbv zeta in H.
  destruct (find_parent_named e "form") as [form|] eqn:Hf; [|exact H].
  destruct H as [H1 H2].
  split; [now apply find_parent_named_nearest|].
  split; [exact H1|]. split; [exact H2|].
  rewrite H2, <- search_action. unfold flag.
  destruct (search ACTION_PATTERN _); split; congruence.
Qed.

(** ** Attribute features *)

(** Read a field of [extract_fields e] that a store of [extract_from_element]
    itself sets. *)
Ltac read_field name e :=
  match goal with
  | |- _ = ?v =>
      let H := fresh in
      assert (H : getfield name (extract_fields e) = Some v);
      [ unfold extract_fields; cbv zeta; read_store; reflexivity
      | exact (f_equal (default (PyInt 0)) H) ]
  end.

Lemma text_fields (e : element) :
  let f := extract_fields e in
  let name := get_default (elem e) "name" "" in
  let elem_id := get_default (elem e) "id" "" in
  let placeholder := get_default (elem e) "placeholder" "" in
  let aria_label := get_default (elem e) "aria-label" "" in
  (name_has_user f = PyFloat (_match_score name USERNAME_PATTERNS) /\
   name_has_login f = PyFloat (_match_score name LOGIN_PATTERN) /\
   name_has_email f = PyFloat (_match_score name EMAIL_PATTERNS) /\
   name_has_pass f = PyFloat (_match_score name PASSWORD_PATTERNS) /\
   name_length f = PyFloat (len name / 50)) /\
  (id_has_user f = PyFloat (_match_score elem_id USERNAME_PATTERNS) /\
   id_has_login f = PyFloat (_match_score elem_id LOGIN_PATTERN) /\
   id_has_email f = PyFloat (_match_score elem_id EMAIL_PATTERNS) /\
   id_has_pass f = PyFloat (_match_score elem_id PASSWORD_PATTERNS) /\
   id_length f = PyFloat (len elem_id / 50)) /\
  (placeholder_has_user f = PyFloat (_match_score placeholder USERNAME_PATTERNS) /\
   placeholder_has_email f = PyFloat (_match_score placeholder EMAIL_PATTERNS) /\
   placeholder_has_pass f = PyFloat (_match_score placeholder PASSWORD_PATTERNS) /\
   placeholder_length f = PyFloat (len placeholder / 100)) /\
  (aria_label_has_user f = PyFloat (_match_score aria_label USERNAME_PATTERNS) /\
   aria_label_has_email f = PyFloat (_match_score aria_label EMAIL_PATTERNS) /\
   aria_label_has_pass f = PyFloat (_match_score aria_label PASSWORD_PATTERNS) /\
   aria_label_length f = PyFloat (len aria_label / 100)).
Proof.
  cbv zeta. repeat split.
  - read_field "name_has_user" e.
  - read_field "name_has_login" e.
  - read_field "name_has_email" e.
  - read_field "name_has_pass" e.
  - read_field "name_length" e.
  - read_field "id_has_user" e.
  - read_field "id_has_login" e.
  - read_field "id_has_email" e.
  - read_field "id_has_pass" e.
  - read_field "id_length" e.
  - read_field "placeholder_has_user" e.
  - read_field "placeholder_has_email" e.
  - read_field "placeholder_has_pass" e.
  - read_field "placeholder_length" e.
  - read_field "aria_label_has_user" e.
  - read_field "aria_label_has_email" e.
  - read_field "aria_label_has_pass" e.
  - read_field "aria_label_length" e.
Qed.

Lemma terminal_fields (e : element) :
  let f := extract_fields e in
  is_required f = flag (truthy (get_default (elem e) "required" "")) /\
  has_placeholder f = flag (truthy (get_default (elem e) "placeholder" "")) /\
  has_aria_label f = flag (truthy (get_default (elem e) "aria-label" "")) /\
  inputmode_numeric f =
    flag (bool_decide (get (elem e) "inputmode" = Some "numeric")).
Proof.
  cbv zeta. split; [|split; [|split]].
  - read_field "is_required" e.
  - read_field "has_placeholder" e.
  - read_field "has_aria_label" e.
  - read_field "inputmode_numeric" e.
Qed.

Lemma truthy_get_default (n : node) (key : string) :
  truthy (get_default n key "") = true <->
  exists v, get n key = Some v /\ v <> "".
Proof.
  unfold get_default. destruct (get n key) as [v|]; cbn [default].
  - destruct v; cbn; split; try discriminate.
    + intros [v [[= <-] H]]. congruence.
    + intros _. eexists. split; [reflexivity | discriminate].
    + reflexivity.
  - cbn. split; [discriminate | intros [v [H _]]; discriminate].
Qed.

Lemma flag_one (b : bool) : flag b = PyInt 1 <-> b = true.
Proof. unfold flag. destruct b; split; congruence. Qed.

Lemma len_positive (s : string) : (0 < len s / 100)%Q <-> s <> "".
Proof.
  unfold len. destruct s as [|c s]; cbn [String.length].
  - split; [intros H; vm_compute in H; discriminate | congruence].
  - split; [discriminate|]. intros _.
    apply Qlt_shift_div_l; [reflexivity|]. rewrite Qmult_0_l.
    change 0%Q with (inject_Z 0). rewrite <- Zlt_Qlt. lia.
Qed.

(** The four flags set last.  is_required is 1 exactly when the element has
    a required attribute with a non-empty value: one with the empty value
    counts as absent.  has_placeholder and has_aria_label ask the same of
    their attributes, so has_placeholder is 1 exactly when
    placeholder_length is positive.  inputmode_numeric is 1 exactly when the
    inputmode attribute is "numeric", letter for letter. *)
Theorem attribute_flags (e : element) :
  let f := extract_fields e in
  (is_required f = PyInt 1 <->
   exists v, get (elem e) "required" = Some v /\ v <> "") /\
  (has_placeholder f = PyInt 1 <->
   exists v, get (elem e) "placeholder" = Some v /\ v <> "") /\
  (has_placeholder f = PyInt 1 <-> (0 < to_Q (placeholder_length f))%Q) /\
  (has_aria_label f = PyInt 1 <->
   exists v, get (elem e) "aria-label" = Some v /\ v <> "") /\
  (has_aria_label f = PyInt 1 <-> (0 < to_Q (aria_label_length f))%Q) /\
  (inputmode_numeric f = PyInt 1 <-> get (elem e) "inputmode" = Some "numeric") /\
  Forall (fun v => v = PyInt 0 \/ v = PyInt 1)
         [ is_required f; has_placeholder f; has_aria_label f;
           inputmode_numeric f ].
Proof.
  cbv zeta.
  destruct (terminal_fields e) as [Hr [Hp [Ha Hi]]].
  destruct (text_fields e) as [_ [_ [[_ [_ [_ Hpl]]] [_ [_ [_ Hal]]]]]].
  cbv zeta in *. rewrite Hr, Hp, Ha, Hi, Hpl, Hal. cbn [to_Q].
  rewrite !flag_one, !truthy_get_default, !len_positive, bool_decide_eq_true.
  repeat split; try tauto.
  - intros [v [Hv Hne]]. unfold get_default. now rewrite Hv.
  - unfold get_default. destruct (get (elem e) "placeholder") as [v|]; cbn; eauto.
    congruence.
  - intros [v [Hv Hne]]. unfold get_default. now rewrite Hv.
  - unfold get_default. destruct (get (elem e) "aria-label") as [v|]; cbn; eauto.
    congruence.
  - repeat (apply List.Forall_cons;
            [unfold flag;
             match goal with |- context [if ?b then _ else _] => destruct b end;
             auto|]).
    apply List.Forall_nil.
Qed.

(** ** More on the pattern matcher *)

Lemma lower_char_idem c : lower_char (lower_char c) = lower_char c.
Proof. destruct c as [[] [] [] [] [] [] [] []]; reflexivity. Qed.

Lemma lower_idem s : lower (lower s) = lower s.
Proof.
  induction s as [|c s IH]; [reflexivity|].
  cbn [lower]. now rewrite lower_char_idem, IH.
Qed.

Lemma truthy_lower s : truthy (lower s) = truthy s.
Proof. destruct s; reflexivity. Qed.

Lemma search_same_lower p t1 t2 :
  lower t1 = lower t2 -> search p t1 = search p t2.
Proof.
  intros H. induction p as [s | l IHl r IHr]; cbn [search].
  - now rewrite H.
  - now rewrite IHl, IHr.
Qed.

Lemma count_matches_same_lower ps t1 t2 :
  lower t1 = lower t2 -> count_matches t1 ps = count_matches t2 ps.
Proof.
  intros H. unfold count_matches. induction ps as [|p ps IH]; [reflexivity|].
  pose proof (search_same_lower p t1 t2 H) as Hp.
  destruct (search p t2) eqn:E.
  - rewrite !filter_cons_True by (rewrite ?Hp, ?E; exact I). cbn [length].
    now rewrite IH.
  - rewrite !filter_cons_False by (rewrite ?Hp, ?E; exact id). exact IH.
Qed.

(** The score does not depend on the letter case of the text: two texts that
    are equal once lower-cased have the same score for every pattern list. *)
Theorem match_score_ignores_case (text1 text2 : string) (patterns : list pattern) :
  lower text1 = lower text2 ->
  _match_score text1 patterns = _match_score text2 patterns.
Proof.
  intros H. unfold _match_score.
  rewrite <- (truthy_lower text1), <- (truthy_lower text2), H.
  now rewrite (count_matches_same_lower patterns text1 text2 H).
Qed.

Lemma match_score_ignores_case_witness :
  _match_score "LOGIN_Email" USERNAME_PATTERNS =
  _match_score "login_email" USERNAME_PATTERNS.
Proof.
  apply (match_score_ignores_case "LOGIN_Email" "login_email" USERNAME_PATTERNS).
  reflexivity.
Defined.

Lemma count_matches_zero text ps :
  count_matches text ps = 0%nat <-> Forall (fun p => ~ Matches p text) ps.
Proof.
  unfold count_matches. induction ps as [|p ps IH].
  - split; [constructor | reflexivity].
  - destruct (search p text) eqn:E.
    + rewrite filter_cons_True by (now rewrite E). cbn [length]. split.
      * discriminate.
      * intros H. apply Forall_cons in H as [H _].
        exfalso. apply H. now apply search_spec.
    + rewrite filter_cons_False by (now rewrite E). rewrite IH. split.
      * intros H. constructor; [|exact H].
        intros Hm. apply search_spec in Hm. congruence.
      * intros H. now apply Forall_cons in H as [_ H].
Qed.

Lemma ratio_zero (m n : nat) :
  (0 < n)%nat ->
  (inject_Z (Z.of_nat m) / inject_Z (Z.of_nat n) * 3 == 0)%Q <-> m = 0%nat.
Proof.
  intros Hn. unfold Qeq, Qdiv, Qmult, Qinv, inject_Z. cbn [Qnum Qden].
  destruct (Z.of_nat n) as [|pn|pn] eqn:En; try lia.
  cbn [Qnum Qden]. split; [|intros ->; reflexivity].
  intros H. rewrite !Z.mul_1_r, Z.mul_0_l in H. lia.
Qed.

Lemma ratio_ge_one (m n : nat) :
  (0 < n)%nat ->
  (1 <= inject_Z (Z.of_nat m) / inject_Z (Z.of_nat n) * 3)%Q <-> (n <= 3 * m)%nat.
Proof.
  intros Hn. unfold Qle, Qdiv, Qmult, Qinv, inject_Z. cbn [Qnum Qden].
  destruct (Z.of_nat n) as [|pn|pn] eqn:En; try lia.
  cbn [Qnum Qden]. rewrite !Pos2Z.inj_mul. lia.
Qed.

(** When the score is 0 and when it is 1.  It is 0 exactly when the text is
    empty or no pattern of the list matches; it is 1 exactly when the text is
    not empty and at least a third of the patterns of a non-empty list
    match.  So a list of at most three patterns only gives 0 or 1. *)
Theorem match_score_extremes (text : string) (patterns : list pattern) :
  (_match_score text patterns == 0 <->
   text = "" \/ Forall (fun p => ~ Matches p text) patterns)%Q /\
  (_match_score text patterns == 1 <->
   text <> "" /\ patterns <> [] /\
   (length patterns <= 3 * count_matches text patterns)%nat)%Q /\
  ((length patterns <= 3)%nat ->
   (_match_score text patterns == 0 \/ _match_score text patterns == 1)%Q).
Proof.
  assert (H0 : (_match_score text patterns == 0 <->
                text = "" \/ Forall (fun p => ~ Matches p text) patterns)%Q).
  { unfold _match_score. destruct text as [|c text]; cbn [truthy negb].
    { split; [auto | reflexivity]. }
    destruct patterns as [|p ps] eqn:Ep.
    { split; [intros _; right; constructor | reflexivity]. }
    rewrite <- Ep. rewrite <- count_matches_zero.
    set (m := count_matches _ _). set (n := length patterns).
    assert (Hn : (0 < n)%nat) by (unfold n; rewrite Ep; cbn; lia).
    rewrite py_min_Qmin. split.
    - intros H. right. apply (ratio_zero m n Hn).
      destruct (Q.min_spec (inject_Z (Z.of_nat m) / inject_Z (Z.of_nat n) * 3) 1)
        as [[_ Hmin] | [_ Hmin]]; rewrite Hmin in H; [exact H|].
      discriminate H.
    - intros [H | H]; [discriminate|].
      apply (ratio_zero m n Hn) in H.
      rewrite Q.min_l; [exact H|]. rewrite H. discriminate. }
  assert (H1 : (_match_score text patterns == 1 <->
                text <> "" /\ patterns <> [] /\
                (length patterns <= 3 * count_matches text patterns)%nat)%Q).
  { unfold _match_score. destruct text as [|c text]; cbn [truthy negb].
    { split; [discriminate | intros [H _]; congruence]. }
    destruct patterns as [|p ps] eqn:Ep.
    { split; [discriminate | intros [_ [H _]]; congruence]. }
    rewrite <- Ep.
    set (m := count_matches _ _). set (n := length patterns).
    assert (Hn : (0 < n)%nat) by (unfold n; rewrite Ep; cbn; lia).
    rewrite py_min_Qmin, <- (ratio_ge_one m n Hn). split.
    - intros H. split; [discriminate|]. split; [rewrite Ep; discriminate|].
      destruct (Q.min_spec (inject_Z (Z.of_nat m) / inject_Z (Z.of_nat n) * 3) 1)
        as [[Hlt Hmin] | [Hle _]]; [|exact Hle].
      rewrite Hmin in H. rewrite H. apply Qle_refl.
    - intros [_ [_ H]]. now apply Q.min_r. }
  split; [exact H0|]. split; [exact H1|].
  intros Hlen.
  destruct (decide (text = "")) as [Ht | Ht]; [left; apply H0; auto|].
  destruct (decide (count_matches text patterns = 0%nat)) as [Hc | Hc].
  - left. apply H0. right. now apply count_matches_zero.
  - right. apply H1. split; [exact Ht|]. split; [|lia].
    intros ->. cbn in Hc. congruence.
Qed.

Lemma match_score_extremes_witness :
  (_match_score "user_email" EMAIL_PATTERNS == 0 \/
   _match_score "user_email" EMAIL_PATTERNS == 1)%Q.
Proof.
  apply (match_score_extremes "user_email" EMAIL_PATTERNS).
  cbn. lia.
Defined.

(** ** Defaults and ranges of the extracted features *)

Lemma auto_flag_fields (e : element) :
  exists aslot,
    Classified (lower (get_default (elem e) "autocomplete" "")) aslot /\
    forall s, s ∈ auto_slots ->
      getfield s (extract_fields e) =
        Some (PyInt (if String.eqb s aslot then 1 else 0)).
Proof.
  destruct (classified_part_flags e) as [tslot [aslot [Ht [Ha Heq]]]].
  exists aslot. split; [exact Ha|]. intros s Hs.
  rewrite extract_fields_flags by (apply elem_of_app; now right).
  rewrite Heq. apply Classified_auto_slot in Ha.
  unfold type_slots in Ht. unfold auto_slots in Ha, Hs.
  split_slot Ht; split_slot Ha; split_slot Hs; reflexivity.
Qed.

Lemma classified_empty slot : Classified "" slot -> slot = "auto_other".
Proof.
  intros H. apply (Classified_functional "" _ _ H).
  apply Classified_other; try (apply contains_false; reflexivity).
  discriminate.
Qed.

Lemma len_empty_zero (k : Q) : (len "" / k == 0)%Q.
Proof. unfold len. cbn. unfold Qdiv. now rewrite Qmult_0_l. Qed.

(** What missing attributes give.  Without a type attribute the field
    counts as a text field; with an empty one as "other".  Without an
    autocomplete attribute, or with an empty one, the autocomplete flag is
    "other".  A text source that is absent or empty has all its scores and
    its length at 0. *)
Theorem absent_attributes (e : element) :
  let f := extract_fields e in
  (get (elem e) "type" = None -> type_text f = PyInt 1) /\
  (get (elem e) "type" = Some "" -> type_other f = PyInt 1) /\
  (get_default (elem e) "autocomplete" "" = "" -> auto_other f = PyInt 1) /\
  (get_default (elem e) "name" "" = "" ->
   name_has_user f = PyFloat 0 /\ name_has_login f = PyFloat 0 /\
   name_has_email f = PyFloat 0 /\ name_has_pass f = PyFloat 0 /\
   (to_Q (name_length f) == 0)%Q) /\
  (get_default (elem e) "id" "" = "" ->
   id_has_user f = PyFloat 0 /\ id_has_login f = PyFloat 0 /\
   id_has_email f = PyFloat 0 /\ id_has_pass f = PyFloat 0 /\
   (to_Q (id_length f) == 0)%Q) /\
  (get_default (elem e) "placeholder" "" = "" ->
   placeholder_has_user f = PyFloat 0 /\ placeholder_has_email f = PyFloat 0 /\
   placeholder_has_pass f = PyFloat 0 /\
   (to_Q (placeholder_length f) == 0)%Q /\ has_placeholder f = PyInt 0) /\
  (get_default (elem e) "aria-label" "" = "" ->
   aria_label_has_user f = PyFloat 0 /\ aria_label_has_email f = PyFloat 0 /\
   aria_label_has_pass f = PyFloat 0 /\
   (to_Q (aria_label_length f) == 0)%Q /\ has_aria_label f = PyInt 0).
Proof.
  cbv zeta.
  destruct (text_fields e) as [[N1 [N2 [N3 [N4 N5]]]] [[I1 [I2 [I3 [I4 I5]]]]
                               [[P1 [P2 [P3 P4]]] [A1 [A2 [A3 A4]]]]]].
  destruct (terminal_fields e) as [_ [Hp [Ha _]]]. cbv zeta in *.
  split; [|split; [|split; [|split; [|split; [|split]]]]].
  - intros Ht.
    assert (H : getfield "type_text" (extract_fields e) = Some (PyInt 1)).
    { rewrite type_flag_fields by (unfold type_slots; set_solver).
      unfold input_type_of, get_default. now rewrite Ht. }
    now injection H.
  - intros Ht.
    assert (H : getfield "type_other" (extract_fields e) = Some (PyInt 1)).
    { rewrite type_flag_fields by (unfold type_slots; set_solver).
      unfold input_type_of, get_default. now rewrite Ht. }
    now injection H.
  - intros Hauto. destruct (auto_flag_fields e) as [aslot [Hc Hall]].
    rewrite Hauto in Hc. apply classified_empty in Hc. subst aslot.
    assert (H : getfield "auto_other" (extract_fields e) = Some (PyInt 1)).
    { now rewrite Hall by (unfold auto_slots; set_solver). }
    now injection H.
  - intros E. rewrite E in *. rewrite N1, N2, N3, N4, N5.
    repeat split; try apply len_empty_zero.
  - intros E. rewrite E in *. rewrite I1, I2, I3, I4, I5.
    repeat split; try apply len_empty_zero.
  - intros E. rewrite E in *. rewrite P1, P2, P3, P4, Hp.
    repeat split; try apply len_empty_zero.
  - intros E. rewrite E in *. rewrite A1, A2, A3, A4, Ha.
    repeat split; try apply len_empty_zero.
Qed.

Lemma absent_attributes_witness :
  type_text (extract_fields (bare_input "text")) = PyInt 1 \/
  auto_other (extract_fields (bare_input "text")) = PyInt 1.
Proof.
  right.
  apply (absent_attributes (bare_input "text")).
  reflexivity.
Defined.

Lemma flag_binary (b : bool) : flag b = PyInt 0 \/ flag b = PyInt 1.
Proof. destruct b; auto. Qed.

Lemma len_ratio_nonneg (s : string) (k : Q) : (0 < k)%Q -> (0 <= len s / k)%Q.
Proof.
  intros Hk. apply Qle_shift_div_l; [exact Hk|]. rewrite Qmult_0_l.
  unfold len. change 0%Q with (inject_Z 0). rewrite <- Zle_Qle. lia.
Qed.

Ltac slot_of proj :=
  match goal with
  | |- context [getfield ?n ?f] => change (getfield n f) with (Some (proj f))
  end.

Ltac score_slot proj H :=
  apply List.Forall_cons;
  [ eexists; split; [slot_of proj; rewrite H; reflexivity | apply match_score_bounds] |].

Ltac length_slot proj H :=
  apply List.Forall_cons;
  [ eexists; split; [slot_of proj; rewrite H; reflexivity
                    | now apply len_ratio_nonneg] |].

Ltac binary_slot proj H :=
  apply List.Forall_cons; [ slot_of proj; destruct H as [-> | ->]; auto |].

Lemma extracted_fields_ranges (e : element) :
  let f := extract_fields e in
  Forall (fun n => getfield n f = Some (PyInt 0) \/ getfield n f = Some (PyInt 1))
         flag_slots /\
  Forall (fun n => exists q, getfield n f = Some (PyFloat q) /\ (0 <= q <= 1)%Q)
         score_slots /\
  Forall (fun n => exists q, getfield n f = Some (PyFloat q) /\ (0 <= q)%Q)
         measure_slots /\
  NoDup (flag_slots ++ score_slots ++ measure_slots) /\
  (forall n, n ∈ feature_names <-> n ∈ flag_slots ++ score_slots ++ measure_slots).
Proof.
  cbv zeta.
  destruct (text_fields e) as [[N1 [N2 [N3 [N4 N5]]]] [[I1 [I2 [I3 [I4 I5]]]]
                               [[P1 [P2 [P3 P4]]] [A1 [A2 [A3 A4]]]]]].
  destruct (terminal_fields e) as [T1 [T2 [T3 T4]]].
  pose proof (parent_fields e) as Hpar. pose proof (form_fields e) as Hform.
  cbv zeta in *.
  split; [|split; [|split; [|split]]].
  - assert (Htype : Forall (fun s =>
              getfield s (extract_fields e) = Some (PyInt 0) \/
              getfield s (extract_fields e) = Some (PyInt 1)) type_slots).
    { apply Forall_forall. intros s Hs. rewrite (type_flag_fields e s Hs).
      destruct (String.eqb s _); auto. }
    assert (Hauto : Forall (fun s =>
              getfield s (extract_fields e) = Some (PyInt 0) \/
              getfield s (extract_fields e) = Some (PyInt 1)) auto_slots).
    { destruct (auto_flag_fields e) as [aslot [_ Hall]].
      apply Forall_forall. intros s Hs. rewrite (Hall s Hs).
      destruct (String.eqb s aslot); auto. }
    assert (Hctx :
      (parent_is_form (extract_fields e) = PyInt 0 \/
       parent_is_form (extract_fields e) = PyInt 1) /\
      (parent_is_div (extract_fields e) = PyInt 0 \/
       parent_is_div (extract_fields e) = PyInt 1) /\
      (parent_is_section (extract_fields e) = PyInt 0 \/
       parent_is_section (extract_fields e) = PyInt 1) /\
      (has_password_sibling (extract_fields e) = PyInt 0 \/
       has_password_sibling (extract_fields e) = PyInt 1) /\
      (has_email_sibling (extract_fields e) = PyInt 0 \/
       has_email_sibling (extract_fields e) = PyInt 1)).
    { destruct (find_parent e).
      - destruct Hpar as [-> [-> [-> [_ [-> ->]]]]].
        repeat split; apply flag_binary.
      - destruct Hpar as [-> [-> [-> [_ [-> ->]]]]]. repeat split; auto. }
    assert (Hf :
      (form_has_submit (extract_fields e) = PyInt 0 \/
       form_has_submit (extract_fields e) = PyInt 1) /\
      (form_action_has_login (extract_fields e) = PyInt 0 \/
       form_action_has_login (extract_fields e) = PyInt 1)).
    { destruct (find_parent_named e "form").
      - destruct Hform as [-> ->]. split; apply flag_binary.
      - destruct Hform as [-> ->]. split; auto. }
    assert (Hterm :
      (is_required (extract_fields e) = PyInt 0 \/
       is_required (extract_fields e) = PyInt 1) /\
      (has_placeholder (extract_fields e) = PyInt 0 \/
       has_placeholder (extract_fields e) = PyInt 1) /\
      (has_aria_label (extract_fields e) = PyInt 0 \/
       has_aria_label (extract_fields e) = PyInt 1) /\
      (inputmode_numeric (extract_fields e) = PyInt 0 \/
       inputmode_numeric (extract_fields e) = PyInt 1)).
    { rewrite T1, T2, T3, T4. repeat split; apply flag_binary. }
    destruct Hctx as [C1 [C2 [C3 [C4 C5]]]]. destruct Hf as [F1 F2].
    destruct Hterm as [R1 [R2 [R3 R4]]].
    change flag_slots with
      (type_slots ++ auto_slots ++
       [ "parent_is_form"; "parent_is_div"; "parent_is_section";
         "has_password_sibling"; "has_email_sibling"; "form_has_submit";
         "form_action_has_login"; "is_required"; "has_placeholder";
         "has_aria_label"; "inputmode_numeric" ]).
    apply Forall_app. split; [exact Htype|].
    apply Forall_app. split; [exact Hauto|].
    binary_slot parent_is_form C1. binary_slot parent_is_div C2.
    binary_slot parent_is_section C3. binary_slot has_password_sibling C4.
    binary_slot has_email_sibling C5. binary_slot form_has_submit F1.
    binary_slot form_action_has_login F2. binary_slot is_required R1.
    binary_slot has_placeholder R2. binary_slot has_aria_label R3.
    binary_slot inputmode_numeric R4.
    apply List.Forall_nil.
  - unfold score_slots.
    score_slot name_has_user N1. score_slot name_has_login N2.
    score_slot name_has_email N3. score_slot name_has_pass N4.
    score_slot id_has_user I1. score_slot id_has_login I2.
    score_slot id_has_email I3. score_slot id_has_pass I4.
    score_slot placeholder_has_user P1. score_slot placeholder_has_email P2.
    score_slot placeholder_has_pass P3.
    score_slot aria_label_has_user A1. score_slot aria_label_has_email A2.
    score_slot aria_label_has_pass A3.
    apply List.Forall_nil.
  - unfold measure_slots.
    length_slot name_length N5. length_slot id_length I5.
    length_slot placeholder_length P4. length_slot aria_label_length A4.
    apply List.Forall_cons; [|apply List.Forall_nil].
    slot_of sibling_count.
    destruct (find_parent e) as [parent|].
    + destruct Hpar as [_ [_ [_ [Hs _]]]]. rewrite Hs.
      eexists; split; [reflexivity|].
      apply Qle_shift_div_l; [reflexivity|]. rewrite Qmult_0_l.
      change 0%Q with (inject_Z 0). rewrite <- Zle_Qle. unfold len. lia.
    + destruct Hpar as [_ [_ [_ [Hs _]]]]. rewrite Hs.
      eexists; split; [reflexivity|]. apply Qle_refl.
  - refine (bool_decide_unpack (NoDup (flag_slots ++ score_slots ++ measure_slots)) _).
    vm_compute. exact I.
  - assert (E : (list_to_set feature_names : gset string) =
                list_to_set (flag_slots ++ score_slots ++ measure_slots)).
    { refine (bool_decide_unpack _ _). vm_compute. exact I. }
    intros n.
    rewrite <- (elem_of_list_to_set (C := gset string) n feature_names).
    rewrite E. apply elem_of_list_to_set.
Qed.

(** The vector of extracted features can always be made: the flags are 0 or
    1 and the other fields are floats. *)
Lemma to_vector_extracted (e : element) : is_Some (to_vector (extract_fields e)).
Proof.
  destruct (extracted_fields_ranges e) as [Hf [Hs [Hm [_ Hcover]]]].
  cbv zeta in *.
  apply to_vector_returns, Forall_forall. intros name Hname.
  apply Hcover in Hname. rewrite !elem_of_app in Hname.
  rewrite Forall_forall in Hf, Hs, Hm.
  assert (Hfloat : forall q, is_Some (float32 (PyFloat q))).
  { intros q. unfold float32, as_double. cbn. eauto. }
  destruct Hname as [H | [H | H]].
  - destruct (Hf name H) as [-> | ->]; eexists; (split; [reflexivity|]);
      vm_compute; eauto.
  - destruct (Hs name H) as [q [-> _]]. eauto.
  - destruct (Hm name H) as [q [-> _]]. eauto.
Qed.

(** Every slot of extracted features has its range: the 26 flags are 0 or 1,
    the 14 scores lie in [0, 1], and the four lengths and the sibling count
    are not negative.  These three groups are the 45 slots of the vector. *)
Theorem extracted_ranges (e : element) :
  let f := extract_fields e in
  Forall (fun n => getfield n f = Some (PyInt 0) \/ getfield n f = Some (PyInt 1))
         flag_slots /\
  Forall (fun n => exists q, getfield n f = Some (PyFloat q) /\ (0 <= q <= 1)%Q)
         score_slots /\
  Forall (fun n => exists q, getfield n f = Some (PyFloat q) /\ (0 <= q)%Q)
         measure_slots /\
  NoDup (flag_slots ++ score_slots ++ measure_slots) /\
  (forall n, n ∈ feature_names <-> n ∈ flag_slots ++ score_slots ++ measure_slots).
Proof. exact (extracted_fields_ranges e). Qed.

(** ** The loop over the inputs of a page *)

(** extract_features_from_html never raises and draws nothing from the
    random source.  It returns one dictionary for each input of the page
    whose type is none of the skipped ones, in document order, and never more
    dictionaries than the page has inputs.  The instances it allocates are
    new ones, one after the other behind the instances already there, which
    stay as they were; the i-th dictionary refers to the i-th of them, holds
    the id and the name of its element, and a type that is lower-cased and
    not a skipped one. *)
Theorem extract_features_from_html_results (soup : node) (w : world) :
  exists results,
    extract_features_from_html soup w =
      Ok results
         (mkWorld (heap w ++ map extract_fields (qualifying soup))
                  (tape w) (cursor w)) /\
    length results = length (qualifying soup) /\
    (length results <= length (find_all soup "input"))%nat /\
    (forall a o, heap w !! a = Some o ->
       (heap w ++ map extract_fields (qualifying soup)) !! a = Some o) /\
    forall i r, results !! i = Some r ->
      ex_features r = (length (heap w) + i)%nat /\
      (ex_input_type r ∉ SKIPPED_TYPES) /\
      lower (ex_input_type r) = ex_input_type r /\
      exists e,
        qualifying soup !! i = Some e /\
        e ∈ find_all soup "input" /\
        (heap w ++ map extract_fields (qualifying soup)) !! ex_features r =
          Some (extract_fields e) /\
        ex_element_id r = get_default (elem e) "id" "" /\
        ex_element_name r = get_default (elem e) "name" "" /\
        ex_input_type r = input_type_of e.
Proof.
  destruct w as [h tp c]. cbn [heap tape cursor].
  exists (extracted_at (length h) (qualifying soup)).
  split; [apply extract_features_from_html_spec|].
  assert (Hlen : length (extracted_at (length h) (qualifying soup)) =
                 length (qualifying soup)) by apply length_imap.
  split; [exact Hlen|]. split.
  { rewrite Hlen. apply List.filter_length_le. }
  split.
  { intros a o Ha. now apply lookup_app_l_Some. }
  intros i r Hr. unfold extracted_at in Hr.
  rewrite list_lookup_imap in Hr.
  destruct (qualifying soup !! i) as [e|] eqn:He; [|discriminate].
  injection Hr as <-. cbn [ex_features ex_input_type ex_element_id ex_element_name].
  assert (Hq : In e (qualifying soup)).
  { apply list_elem_of_In. eapply list_elem_of_lookup_2, He. }
  apply qualifying_spec in Hq as [Hin Hskip].
  split; [reflexivity|]. split.
  { intros Hs. apply Hskip. now apply list_elem_of_In. }
  split; [apply lower_idem|].
  exists e. split; [reflexivity|]. split; [now apply list_elem_of_In|].
  split; [|repeat split].
  rewrite lookup_app_r by lia.
  replace (length h + i - length h)%nat with i by lia.
  change (map extract_fields ?l) with (extract_fields <$> l).
  now rewrite list_lookup_fmap, He.
Qed.

(** ** Runs of the augmentation loop *)

Lemma augment_loop_rounds samples target tp h0 :
  (forall s, s ∈ samples -> is_Some (h0 !! features s)) ->
  forall fuel augmented ext c out w',
    augment_loop fuel samples target augmented (mkWorld (h0 ++ ext) tp c) =
      Ok out w' ->
    exists synths ext' c',
      out = augmented ++ synths /\
      w' = mkWorld (h0 ++ ext ++ ext') tp c' /\
      (c <= c')%nat /\
      Z.of_nat (length out) = Z.max (Z.of_nat (length augmented)) target /\
      map features synths = seq (length (h0 ++ ext)) (length synths) /\
      Forall2 (round_of samples h0 tp) synths ext'.
Proof.
  intros Hvalid. induction fuel as [|fuel IH]; intros augmented ext c out w' Hrun.
  - cbn [augment_loop] in Hrun.
    destruct (Z.ltb_spec (Z.of_nat (length augmented)) target); [discriminate|].
    injection Hrun as <- <-. exists [], [], c.
    rewrite !app_nil_r. repeat split; [lia | lia | constructor].
  - destruct (Z.ltb_spec (Z.of_nat (length augmented)) target) as [Hlt | Hge].
    2:{ rewrite augment_loop_done in Hrun by exact Hge.
        injection Hrun as <- <-. exists [], [], c.
        rewrite !app_nil_r. repeat split; [lia | lia | constructor]. }
    destruct (decide (samples = [])) as [-> | Hne].
    { rewrite empty_corpus_raises in Hrun by exact Hlt. discriminate. }
    rewrite augment_loop_step in Hrun by assumption.
    destruct (pick samples (tp c)) as [base|] eqn:Hpick; [|discriminate].
    destruct (String.eqb_spec (label base) "none") as [Hnone | Hlabel].
    { apply IH in Hrun.
      destruct Hrun as [synths [ext' [c' [-> [-> [Hc Hrest]]]]]].
      exists synths, ext', c'. repeat split; try apply Hrest. lia. }
    pose proof (pick_elem _ _ _ Hpick) as Hin.
    destruct (Hvalid base Hin) as [src Hsrc].
    rewrite (synthesize_spec _ _ _ _ _ (lookup_app_l_Some _ ext _ _ Hsrc)) in Hrun.
    rewrite <- app_assoc in Hrun. apply IH in Hrun.
    destruct Hrun as [synths [ext' [c' [-> [-> [Hc [Hlen [Haddr Hmade]]]]]]]].
    eexists (_ :: synths), (_ :: ext'), c'.
    split; [now rewrite <- app_assoc|].
    split; [now rewrite <- !app_assoc|].
    split; [lia|]. split.
    { rewrite Hlen, length_app. cbn [length]. lia. }
    split.
    { cbn [map features length seq]. f_equal. rewrite Haddr.
      rewrite !length_app. cbn [length]. f_equal. lia. }
    constructor; [|exact Hmade].
    exists base, src, (S c). repeat split; try assumption.
Qed.

Lemma addressable_valid h samples :
  addressable h samples -> forall s, s ∈ samples -> is_Some (h !! features s).
Proof. intros Ha s Hs. now apply (addressable_lookup h samples). Qed.

(** What augment_dataset returns.  At a target that is not above the size of
    the corpus it returns the corpus as it is, without a draw and without a
    new instance, whatever the corpus (empty, or "none" samples only).
    Otherwise, on a corpus whose samples refer to instances of the heap, a
    run that returns gives the base samples followed by exactly
    target_size - len(samples) synthesized ones.  Each synthesized sample has
    a new instance of its own, allocated behind the ones already there, a
    label other than "none", and the label, the element id and the element
    name of one of the base samples, whose source it carries with the suffix
    "_augmented".  The instances already there are not touched. *)
Theorem augment_dataset_output (fuel : nat) (samples : list TrainingSample)
  (target_size : Z) (w : world) :
  ((target_size <= Z.of_nat (length samples))%Z ->
   augment_dataset fuel samples target_size w = Ok samples w) /\
  (addressable (heap w) samples ->
   forall out w',
     augment_dataset fuel samples target_size w = Ok out w' ->
     exists synths ext,
       out = samples ++ synths /\
       heap w' = heap w ++ ext /\
       tape w' = tape w /\
       (cursor w <= cursor w')%nat /\
       length synths =
         Z.to_nat (target_size - Z.of_nat (length samples)) /\
       length ext = length synths /\
       forall i s, synths !! i = Some s ->
         features s = (length (heap w) + i)%nat /\
         label s <> "none" /\
         exists base,
           base ∈ samples /\
           label s = label base /\
           source s = String.append (source base) "_augmented" /\
           element_id s = element_id base /\
           element_name s = element_name base).
Proof.
  split.
  { intros Hle. now apply augment_loop_done. }
  destruct w as [h tp c]. cbn [heap tape cursor].
  intros Ha out w' Hrun. unfold augment_dataset in Hrun.
  rewrite <- (app_nil_r h) in Hrun.
  apply (augment_loop_rounds samples target_size tp h (addressable_valid _ _ Ha))
    in Hrun.
  destruct Hrun as [synths [ext [c' [-> [-> [Hc [Hlen [Haddr Hmade]]]]]]]].
  rewrite app_nil_r in Haddr. cbn [app heap tape cursor].
  exists synths, ext. split; [reflexivity|]. split; [reflexivity|].
  split; [reflexivity|]. split; [exact Hc|]. split.
  { rewrite length_app in Hlen. lia. }
  split; [symmetry; eapply Forall2_length, Hmade|].
  intros i s Hs. split.
  { assert (H : map features synths !! i = Some (features s)).
    { change (map features synths) with (features <$> synths).
      now rewrite list_lookup_fmap, Hs. }
    rewrite Haddr in H. apply lookup_seq in H as [H _]. exact H. }
  destruct (Forall2_lookup_l _ _ _ _ _ Hmade Hs)
    as [o [_ [base [src [k [Hin [Hlabel [_ [_ [Hl [Hsrc [Hid Hnm]]]]]]]]]]]].
  split; [now rewrite Hl|].
  exists base. repeat split; assumption.
Qed.

Lemma augment_dataset_output_witness :
  augment_dataset 0 [ search_sample ] 1 (corpus_world 0.1) =
    Ok [ search_sample ] (corpus_world 0.1) /\
  exists out w' synths,
    augment_dataset 1 [ totp_sample ] 2 (corpus_world 0.1) = Ok out w' /\
    out = [ totp_sample ] ++ synths /\
    length synths = 1%nat.
Proof.
  split.
  - apply (augment_dataset_output 0 [ search_sample ] 1 (corpus_world 0.1)).
    cbn. lia.
  - run_concrete. do 2 eexists.
    destruct (proj2 (augment_dataset_output 1 [ totp_sample ] 2 (corpus_world 0.1)))
      with (out := [ totp_sample;
                     mkTrainingSample 2 "totp" "2FA/TOTP Form_augmented" "" "totpPin" ])
           (w' := mkWorld
                    (corpus_heap ++
                     [ synthesized 0
                         (extract_fields
                            (Catalog.within Catalog.totp_form Catalog.totp_soup
                               Catalog.totp_pin))
                         "totp" 0.1 0.1 0.1 0.1 ])
                    (fun _ => 0.1%Q) 3)
      as [synths [ext [Hout [_ [_ [_ [Hlen _]]]]]]].
    + repeat constructor.
    + vm_compute. reflexivity.
    + exists synths. split; [|split; [exact Hout | exact Hlen]].
      vm_compute. reflexivity.
Defined.

(** ** What one round of the augmentation stores *)

Lemma with_own_getfield n tv fn src :
  getfield n (with_own tv fn src) = getfield n src.
Proof. destruct src. reflexivity. Qed.

Lemma not_perturbed n :
  n ∉ perturbed_slots ->
  n <> "auto_username" /\ n <> "auto_email" /\ n <> "auto_current_password" /\
  n <> "auto_other" /\ n <> "name_has_user" /\ n <> "name_has_login".
Proof.
  intros H. unfold perturbed_slots in H.
  repeat split; intros ->; apply H; set_solver.
Qed.

Lemma synthesized_frame base src lbl r1 r2 u1 u2 n :
  n ∉ perturbed_slots ->
  getfield n (synthesized base src lbl r1 r2 u1 u2) = getfield n src.
Proof.
  intros H. apply not_perturbed in H as [H1 [H2 [H3 [H4 [H5 H6]]]]].
  unfold synthesized.
  destruct (lt r1 0.3); destruct (lt r2 0.2 && String.eqb lbl "username");
    repeat (rewrite getfield_setfield_ne by assumption);
    apply with_own_getfield.
Qed.

Lemma synthesized_auto base src lbl r1 r2 u1 u2 :
  let o := synthesized base src lbl r1 r2 u1 u2 in
  (auto_username o = auto_username src /\ auto_email o = auto_email src /\
   auto_current_password o = auto_current_password src /\
   auto_other o = auto_other src) \/
  (auto_username o = PyInt 0 /\ auto_email o = PyInt 0 /\
   auto_current_password o = PyInt 0 /\ auto_other o = PyInt 1).
Proof.
  unfold synthesized.
  destruct (lt r1 0.3); destruct (lt r2 0.2 && String.eqb lbl "username");
    destruct src; cbn; auto.
Qed.

Lemma uniform_range (u : Q) :
  (0 <= u < 1)%Q -> (0.3 <= 0.3 + (0.8 - 0.3) * u <= 0.8)%Q.
Proof. intros [H0 H1]. split; lra. Qed.

Lemma synthesized_name base src lbl r1 r2 u1 u2 :
  (0 <= u1 < 1)%Q -> (0 <= u2 < 1)%Q ->
  let o := synthesized base src lbl r1 r2 u1 u2 in
  (name_has_user o = name_has_user src /\
   name_has_login o = name_has_login src) \/
  (lbl = "username" /\
   exists v1 v2,
     name_has_user o = PyFloat v1 /\ name_has_login o = PyFloat v2 /\
     (0.3 <= v1 <= 0.8)%Q /\ (0.3 <= v2 <= 0.8)%Q).
Proof.
  intros Hu1 Hu2. unfold synthesized.
  destruct (lt r2 0.2 && String.eqb lbl "username") eqn:Hc.
  - right. apply andb_true_iff in Hc as [_ Hl]. apply String.eqb_eq in Hl.
    split; [exact Hl|].
    exists (0.3 + (0.8 - 0.3) * u1)%Q, (0.3 + (0.8 - 0.3) * u2)%Q.
    destruct (lt r1 0.3); destruct src;
      (split; [reflexivity|]; split; [reflexivity|]; split; now apply uniform_range).
  - left. destruct (lt r1 0.3); destruct src; split; reflexivity.
Qed.

(** One round of the augmentation, from a base sample whose instance is in
    the heap: it never raises, allocates one instance behind the others and
    takes two draws, or four when the name scores are perturbed.  The new
    instance holds the value of the base instance in every field but
    auto_username, auto_email, auto_current_password, auto_other,
    name_has_user and name_has_login.  The four autocomplete fields are
    either all as in the base or 0, 0, 0 and 1; the two name scores are
    either as in the base or, for a base labelled "username" only, two
    numbers between 0.3 and 0.8. *)
Theorem synthesize_perturbs (base : TrainingSample) (h : list FieldFeatures)
  (src : FieldFeatures) (tp : nat -> Q) (c : nat) :
  unit_tape tp ->
  h !! features base = Some src ->
  exists o c',
    synthesize base (mkWorld h tp c) =
      Ok (mkTrainingSample (length h) (label base)
            (String.append (source base) "_augmented")
            (element_id base) (element_name base))
         (mkWorld (h ++ [o]) tp c') /\
    (c' = c + 2 \/ c' = c + 4)%nat /\
    (forall n, n ∉ perturbed_slots -> getfield n o = getfield n src) /\
    ((auto_username o = auto_username src /\ auto_email o = auto_email src /\
      auto_current_password o = auto_current_password src /\
      auto_other o = auto_other src) \/
     (auto_username o = PyInt 0 /\ auto_email o = PyInt 0 /\
      auto_current_password o = PyInt 0 /\ auto_other o = PyInt 1)) /\
    ((name_has_user o = name_has_user src /\
      name_has_login o = name_has_login src) \/
     (label base = "username" /\
      exists v1 v2,
        name_has_user o = PyFloat v1 /\ name_has_login o = PyFloat v2 /\
        (0.3 <= v1 <= 0.8)%Q /\ (0.3 <= v2 <= 0.8)%Q)).
Proof.
  intros Htp Hsrc. do 2 eexists.
  split; [apply (synthesize_spec _ _ _ _ _ Hsrc)|].
  split.
  { unfold draws. destruct (_ && _); [right | left]; lia. }
  split; [intros n Hn; now apply synthesized_frame|].
  split; [apply synthesized_auto|].
  apply synthesized_name; apply Htp.
Qed.

Lemma synthesize_perturbs_witness :
  exists o c',
    synthesize totp_sample (corpus_world 0.1) =
      Ok (mkTrainingSample 2 "totp" "2FA/TOTP Form_augmented" "" "totpPin")
         (mkWorld (corpus_heap ++ [o]) (fun _ => 0.1%Q) c') /\
    getfield "type_tel" o = Some (PyInt 1).
Proof.
  destruct (synthesize_perturbs totp_sample corpus_heap
              (extract_fields
                 (Catalog.within Catalog.totp_form Catalog.totp_soup
                    Catalog.totp_pin))
              (fun _ => 0.1%Q) 0%nat)
    as [o [c' [Hrun [_ [Hframe _]]]]].
  - apply (unit_tape_const 0.1). split; [discriminate | reflexivity].
  - reflexivity.
  - exists o, c'. split; [exact Hrun|].
    rewrite Hframe; [reflexivity|].
    unfold perturbed_slots. intros H.
    repeat (apply elem_of_cons in H as [H | H]; [discriminate|]).
    now apply elem_of_nil in H.
Defined.

(** ** The records of save_dataset *)

Lemma vector_of_length h a v : vector_of h a = Some v -> length v = 45%nat.
Proof.
  unfold vector_of. destruct (h !! a) as [o|]; [|discriminate].
  destruct (own_to_vector o) as [self|].
  - destruct (h !! self) as [o'|]; [|discriminate]. cbn. apply to_vector_length.
  - apply to_vector_length.
Qed.

Lemma call_to_vector_length a w v w' :
  call_to_vector a w = Ok v w' -> w' = w /\ length v = 45%nat.
Proof.
  destruct w as [h tp c]. intros H. apply call_to_vector_Ok in H as [Hv ->].
  split; [reflexivity | exact (vector_of_length h a v Hv)].
Qed.

Lemma save_loop_inv samples data w out w' :
  for_each samples
    (fun data sample =>
       bind (call_to_vector (features sample)) (fun v =>
         ret (data ++
              [ mkRow v (label sample) (source sample)
                  (element_id sample) (element_name sample) ])))
    data w = Ok out w' ->
  w' = w /\
  exists rows,
    out = data ++ rows /\
    Forall2 (fun s r =>
               row_label r = label s /\ row_source r = source s /\
               row_element_id r = element_id s /\
               row_element_name r = element_name s /\
               call_to_vector (features s) w = Ok (row_features r) w /\
               length (row_features r) = 45%nat)
            samples rows.
Proof.
  revert data. induction samples as [|s l IH]; intros data.
  - cbn. intros [= <- <-]. split; [reflexivity|]. exists [].
    rewrite app_nil_r. split; [reflexivity | constructor].
  - cbn [for_each]. unfold bind at 1. unfold bind at 1.
    destruct (call_to_vector (features s) w) as [v w1| |] eqn:Hcall;
      [|discriminate|discriminate].
    destruct (call_to_vector_length _ _ _ _ Hcall) as [-> Hlen].
    unfold ret at 1. intros H. apply IH in H as [-> [rows [-> Hrows]]].
    split; [reflexivity|]. eexists (_ :: rows).
    split; [now rewrite <- app_assoc|].
    constructor; [|exact Hrows]. cbn. repeat split; assumption.
Qed.

Lemma save_loop_returns samples data w :
  Forall (fun s => exists v, call_to_vector (features s) w = Ok v w) samples ->
  exists rows,
    for_each samples
      (fun data sample =>
         bind (call_to_vector (features sample)) (fun v =>
           ret (data ++
                [ mkRow v (label sample) (source sample)
                    (element_id sample) (element_name sample) ])))
      data w = Ok (data ++ rows) w.
Proof.
  intros H. revert data. induction H as [|s l [v Hv] _ IH]; intros data.
  - exists []. cbn. now rewrite app_nil_r.
  - cbn [for_each]. unfold bind at 1. unfold bind at 1. rewrite Hv.
    unfold ret at 1.
    destruct (IH (data ++ [ mkRow v (label s) (source s) (element_id s)
                              (element_name s) ])) as [rows Hrows].
    eexists (_ :: rows). rewrite Hrows, <- app_assoc. reflexivity.
Qed.

Lemma save_loop_raises pre s post data w e :
  Forall (fun s => exists v, call_to_vector (features s) w = Ok v w) pre ->
  call_to_vector (features s) w = Raised e ->
  for_each (pre ++ s :: post)
    (fun data sample =>
       bind (call_to_vector (features sample)) (fun v =>
         ret (data ++
              [ mkRow v (label sample) (source sample)
                  (element_id sample) (element_name sample) ])))
    data w = Raised e.
Proof.
  intros H He. revert data. induction H as [|x l [v Hv] _ IH]; intros data.
  - cbn [app for_each]. unfold bind at 1. unfold bind at 1. now rewrite He.
  - cbn [app for_each]. unfold bind at 1. unfold bind at 1. rewrite Hv.
    unfold ret at 1. apply IH.
Qed.

(** The list that save_dataset hands to json.dump (the writing of the file
    is outside the model).  When to_vector() returns for every sample, the
    list is made, without a change to the heap and without a draw; when it
    raises for some sample (OverflowError, for an int field too large for a
    float), save_dataset raises the same at the first such sample.  The
    list has one record for each sample, in the order of the samples, with
    the label, the source, the element id and the element name of the sample
    as they are and the 45 numbers that to_vector() returns for it. *)
Theorem save_dataset_rows (samples : list TrainingSample) (w : world) :
  (Forall (fun s => exists v, call_to_vector (features s) w = Ok v w) samples ->
   exists rows, save_dataset samples w = Ok rows w) /\
  (forall pre s post e,
     samples = pre ++ s :: post ->
     Forall (fun s => exists v, call_to_vector (features s) w = Ok v w) pre ->
     call_to_vector (features s) w = Raised e ->
     save_dataset samples w = Raised e) /\
  (forall rows w',
     save_dataset samples w = Ok rows w' ->
     w' = w /\
     length rows = length samples /\
     Forall2 (fun s r =>
                row_label r = label s /\ row_source r = source s /\
                row_element_id r = element_id s /\
                row_element_name r = element_name s /\
                call_to_vector (features s) w = Ok (row_features r) w /\
                length (row_features r) = 45%nat)
             samples rows).
Proof.
  unfold save_dataset. split; [|split].
  - intros H. destruct (save_loop_returns samples [] w H) as [rows Hrows].
    exists rows. exact Hrows.
  - intros pre s post e -> Hpre He. now apply save_loop_raises.
  - intros rows w' H. apply save_loop_inv in H as [-> [rows' [-> Hrows]]].
    cbn [app]. split; [reflexivity|].
    split; [symmetry; eapply Forall2_length, Hrows | exact Hrows].
Qed.

Lemma save_dataset_rows_witness :
  (exists rows,
     save_dataset [ totp_sample ] (corpus_world 0.1) =
       Ok rows (corpus_world 0.1)) /\
  save_dataset [ mkTrainingSample 0 "none" "" "" "" ]
    (mkWorld [ setfield "type_text" (PyInt (10 ^ 400)) new_FieldFeatures ]
             (fun _ => 0.1%Q) 0) =
  Raised OverflowError.
Proof.
  split.
  - apply (save_dataset_rows [ totp_sample ] (corpus_world 0.1)).
    constructor; [|constructor]. run_concrete. eexists. reflexivity.
  - apply (proj1 (proj2 (save_dataset_rows
                           [ mkTrainingSample 0 "none" "" "" "" ]
                           (mkWorld [ setfield "type_text" (PyInt (10 ^ 400))
                                        new_FieldFeatures ]
                                    (fun _ => 0.1%Q) 0)))
             [] (mkTrainingSample 0 "none" "" "" "") []).
    + reflexivity.
    + constructor.
    + vm_compute. reflexivity.
Defined.

(** ** From the catalog to the records *)

Lemma own_to_vector_setfield n v f :
  own_to_vector (setfield n v f) = own_to_vector f.
Proof.
  unfold setfield.
  repeat match goal with
  | |- context [String.eqb n ?s] => destruct (String.eqb n s); [reflexivity|]
  end.
  reflexivity.
Qed.

Lemma own_to_vector_siblings x l f :
  own_to_vector (fold_left (sibling_step x) l f) = own_to_vector f.
Proof.
  revert f. induction l as [|s l IH]; intros f; cbn [fold_left]; [reflexivity|].
  rewrite IH. unfold sibling_step.
  repeat match goal with
  | |- context [if ?b then _ else _] => destruct b
  end; rewrite ?own_to_vector_setfield; reflexivity.
Qed.

Lemma own_to_vector_extracted e : own_to_vector (extract_fields e) = None.
Proof.
  unfold extract_fields. cbv zeta.
  rewrite !own_to_vector_setfield.
  unfold _extract_context_features.
  destruct (find_parent_named e "form"); destruct (find_parent e);
    rewrite ?own_to_vector_setfield, ?own_to_vector_siblings,
            ?own_to_vector_setfield;
    unfold _set_autocomplete;
    repeat match goal with
    | |- context [if ?b then _ else _] => destruct b
    end;
    rewrite ?own_to_vector_setfield, set_input_type_slot,
            ?own_to_vector_setfield; reflexivity.
Qed.

Lemma entry_rows_spec labelled s pre post :
  exists rows,
    entry_rows labelled s = Some rows /\
    Forall2 (fun x r => row_of (pre ++ entry_instances s ++ post) x = Some r)
            (entry_samples labelled s (length pre)) rows.
Proof.
  assert (H : is_Some (entry_rows labelled s)).
  { unfold entry_rows. apply mapM_is_Some, Forall_forall. intros e _.
    unfold compose. destruct (to_vector_extracted e) as [v ->]. cbn. eauto. }
  destruct H as [rows Hrows]. exists rows. split; [exact Hrows|].
  unfold entry_rows in Hrows. apply mapM_Some in Hrows.
  apply Forall2_same_length_lookup_2.
  { unfold entry_samples. rewrite length_imap. eapply Forall2_length, Hrows. }
  intros i x r Hx Hr. unfold entry_samples in Hx.
  rewrite list_lookup_imap in Hx.
  destruct (qualifying (site_html s) !! i) as [e|] eqn:He; [|discriminate].
  injection Hx as <-.
  destruct (Forall2_lookup_l _ _ _ _ _ Hrows He) as [r' [Hr' Hrow]].
  rewrite Hr in Hr'. injection Hr' as <-.
  destruct (to_vector (extract_fields e)) as [v|] eqn:Hv; [|discriminate].
  cbn in Hrow. injection Hrow as <-.
  unfold row_of, vector_of. cbn [features label source element_id element_name].
  assert (Hh : (pre ++ entry_instances s ++ post) !! (length pre + i)%nat =
               Some (extract_fields e)).
  { rewrite lookup_app_r by lia.
    replace (length pre + i - length pre)%nat with i by lia.
    apply lookup_app_l_Some. unfold entry_instances.
    change (map ?f ?l) with (f <$> l). now rewrite list_lookup_fmap, He. }
  unfold addr in *. rewrite Hh, own_to_vector_extracted, Hv. reflexivity.
Qed.

Lemma corpus_rows_cons labelled s sites r rs :
  entry_rows labelled s = Some r ->
  corpus_rows labelled sites = Some rs ->
  corpus_rows labelled (s :: sites) = Some (r ++ rs).
Proof.
  unfold corpus_rows. intros Hr Hrs.
  apply fmap_Some in Hrs as [k [Hk ->]].
  change (mapM (entry_rows labelled) (s :: sites)) with
    (entry_rows labelled s ≫= fun y =>
       mapM (entry_rows labelled) sites ≫= fun k => mret (y :: k)).
  rewrite Hr, Hk. reflexivity.
Qed.

Lemma corpus_rows_spec labelled sites pre post :
  exists rows,
    corpus_rows labelled sites = Some rows /\
    Forall2 (fun x r => row_of (pre ++ corpus_instances sites ++ post) x = Some r)
            (corpus_samples labelled sites (length pre)) rows.
Proof.
  revert pre. induction sites as [|s sites IH]; intros pre.
  - exists []. split; [reflexivity | constructor].
  - destruct (entry_rows_spec labelled s pre (corpus_instances sites ++ post))
      as [r [Hr Hfirst]].
    destruct (IH (pre ++ entry_instances s)) as [rs [Hrs Hrest]].
    exists (r ++ rs). split; [now apply corpus_rows_cons|].
    cbn [corpus_samples]. unfold corpus_instances. cbn [flat_map].
    apply Forall2_app.
    + rewrite <- app_assoc. exact Hfirst.
    + rewrite length_app in Hrest. unfold entry_instances at 2 in Hrest.
      rewrite length_map in Hrest.
      rewrite <- !app_assoc in Hrest. rewrite <- app_assoc. exact Hrest.
Qed.

Lemma corpus_rows_negative sites rows :
  corpus_rows false sites = Some rows ->
  Forall (fun r => row_label r = "none") rows.
Proof.
  revert rows. induction sites as [|s sites IH]; intros rows.
  - intros [= <-]. constructor.
  - unfold corpus_rows. intros H. apply fmap_Some in H as [k [Hk ->]].
    change (mapM (entry_rows false) (s :: sites)) with
      (entry_rows false s ≫= fun y =>
         mapM (entry_rows false) sites ≫= fun k => mret (y :: k)) in Hk.
    destruct (entry_rows false s) as [r|] eqn:Hr; [|discriminate].
    cbn [mbind option_bind] in Hk.
    destruct (mapM (entry_rows false) sites) as [rs|] eqn:Hrs; [|discriminate].
    injection Hk as <-. cbn [List.concat]. apply Forall_app. split.
    + unfold entry_rows in Hr. apply mapM_Some in Hr.
      apply Forall_forall. intros x Hx.
      apply list_elem_of_lookup in Hx as [i Hi].
      destruct (Forall2_lookup_r _ _ _ _ _ Hr Hi) as [e [_ He]].
      destruct (to_vector (extract_fields e)); [|discriminate].
      cbn in He. now injection He as <-.
    + apply IH. unfold corpus_rows. now rewrite Hrs.
Qed.

(** build_dataset followed by save_dataset: both return, and the record of
    each sample holds the vector of the features extracted from its element
    (which can always be made, and no sample of the base corpus carries a
    to_vector of its own), with the label, the name of the entry and the id
    and the name of the element; the records of the catalog entries come
    first, in catalog and document order, then those of the negative
    examples. *)
Theorem build_then_save (TEST_SITES NEGATIVE_EXAMPLES : list site) (w : world) :
  exists samples w' rows negative_rows,
    build_dataset TEST_SITES NEGATIVE_EXAMPLES w = Ok samples w' /\
    corpus_rows true TEST_SITES = Some rows /\
    corpus_rows false NEGATIVE_EXAMPLES = Some negative_rows /\
    save_dataset samples w' = Ok (rows ++ negative_rows) w' /\
    tape w' = tape w /\ cursor w' = cursor w /\
    Forall (fun r => row_label r = "none") negative_rows.
Proof.
  destruct w as [h tp c].
  destruct (corpus_rows_spec true TEST_SITES h
              (corpus_instances NEGATIVE_EXAMPLES)) as [rows [Hrows Hfirst]].
  destruct (corpus_rows_spec false NEGATIVE_EXAMPLES
              (h ++ corpus_instances TEST_SITES) []) as [nrows [Hnrows Hrest]].
  do 2 eexists. exists rows, nrows. split.
  { unfold build_dataset. unfold bind at 1.
    rewrite (entries_loop_spec true). cbn [app].
    rewrite (entries_loop_spec false). reflexivity. }
  split; [exact Hrows|]. split; [exact Hnrows|].
  split; [|split; [reflexivity|split; [reflexivity|]]].
  - apply save_dataset_spec, mapM_Some, Forall2_app.
    + rewrite <- app_assoc. exact Hfirst.
    + rewrite app_nil_r in Hrest. exact Hrest.
  - exact (corpus_rows_negative _ _ Hnrows).
Qed.

(** ** The label counts of the main block *)

Lemma total_insert_fresh m k v :
  m !! k = None -> total (<[k := v]> m) = (v + total m)%Z.
Proof.
  intros H. unfold total.
  rewrite map_fold_insert_L; [reflexivity | intros; cbv beta; lia | exact H].
Qed.

Lemma total_count_label m s : total (count_label m s) = (total m + 1)%Z.
Proof.
  unfold count_label. destruct (m !! label s) as [v|] eqn:Hv; cbn [default].
  - assert (Hm : total m = (v + total (delete (label s) m))%Z).
    { rewrite <- (total_insert_fresh (delete (label s) m) (label s) v)
        by apply lookup_delete_eq.
      now rewrite insert_delete_id. }
    rewrite <- (insert_delete_eq m (label s) (v + 1)%Z).
    rewrite total_insert_fresh by apply lookup_delete_eq. lia.
  - rewrite total_insert_fresh by exact Hv. lia.
Qed.

Lemma count_label_lookup m s l :
  default 0%Z (count_label m s !! l) =
  (default 0 (m !! l) + if String.eqb (label s) l then 1 else 0)%Z.
Proof.
  unfold count_label. destruct (String.eqb_spec (label s) l) as [<- | Hne].
  - rewrite lookup_insert_eq. reflexivity.
  - rewrite lookup_insert_ne by exact Hne. lia.
Qed.

Lemma label_counts_loop samples m :
  total (fold_left count_label samples m) =
    (total m + Z.of_nat (length samples))%Z /\
  forall l,
    default 0%Z (fold_left count_label samples m !! l) =
      (default 0 (m !! l) + labelled_with l samples)%Z /\
    (fold_left count_label samples m !! l = None <->
     m !! l = None /\ forall s, s ∈ samples -> label s <> l).
Proof.
  revert m. induction samples as [|s samples IH]; intros m.
  - cbn. split; [lia|]. intros l. split; [unfold labelled_with; cbn; lia|].
    split; [intros H; split; [exact H | intros s Hs; now apply elem_of_nil in Hs]
           | now intros [H _]].
  - cbn [fold_left]. destruct (IH (count_label m s)) as [Ht Hl]. split.
    + rewrite Ht, total_count_label. cbn [length]. lia.
    + intros l. destruct (Hl l) as [Hc Hn]. split.
      * rewrite Hc, count_label_lookup. unfold labelled_with.
        cbn [List.filter]. destruct (String.eqb (label s) l); cbn [length]; lia.
      * rewrite Hn. unfold count_label.
        destruct (String.eqb_spec (label s) l) as [<- | Hne].
        -- rewrite lookup_insert_eq. split; [intros [H _]; discriminate|].
           intros [_ H]. exfalso. apply (H s); [left | reflexivity].
        -- rewrite lookup_insert_ne by exact Hne. split.
           ++ intros [H1 H2]. split; [exact H1|].
              intros x Hx. apply elem_of_cons in Hx as [-> | Hx]; auto.
           ++ intros [H1 H2]. split; [exact H1|].
              intros x Hx. apply H2. now right.
Qed.

(** The dictionary of label counts that the main block prints: a label is a
    key exactly when some sample carries it, its count is the number of the
    samples that carry it (so never 0), and the counts add up to the number
    of samples. *)
Theorem label_counts_spec (augmented : list TrainingSample) :
  total (label_counts augmented) = Z.of_nat (length augmented) /\
  forall l,
    (label_counts augmented !! l = None <->
     forall s, s ∈ augmented -> label s <> l) /\
    (forall n, label_counts augmented !! l = Some n ->
       n = labelled_with l augmented /\ (0 < n)%Z).
Proof.
  unfold label_counts.
  destruct (label_counts_loop augmented ∅) as [Ht Hl]. split.
  { rewrite Ht. unfold total. rewrite map_fold_empty. lia. }
  intros l. destruct (Hl l) as [Hc Hn]. split.
  { rewrite Hn, lookup_empty. split; [now intros [_ H] | now split]. }
  intros n Hsome. rewrite Hsome, lookup_empty in Hc. cbn [default from_option] in Hc.
  unfold id in Hc.
  split; [lia|].
  assert (Hpos : labelled_with l augmented <> 0%Z).
  { intros H0. assert (Hnone : fold_left count_label augmented ∅ !! l = None).
    { apply Hn. split; [apply lookup_empty|]. intros s Hs Hlabel.
      unfold labelled_with in H0.
      assert (Hin : In s (List.filter (fun s => String.eqb (label s) l) augmented)).
      { apply filter_In. split; [now apply list_elem_of_In|].
        now apply String.eqb_eq. }
      destruct (List.filter _ augmented); [destruct Hin | cbn [length] in H0; lia]. }
    rewrite Hnone in Hsome. discriminate. }
  unfold labelled_with in *. lia.
Qed.

(** ** The labels read back by the trainer *)

Lemma label_lookup (l : string) :
  LABEL_MAPPING !! l =
    if String.eqb l "none" then Some 4%Z
    else if String.eqb l "totp" then Some 3%Z
    else if String.eqb l "email" then Some 2%Z
    else if String.eqb l "password" then Some 1%Z
    else if String.eqb l "username" then Some 0%Z
    else None.
Proof.
  unfold LABEL_MAPPING, dict, LABEL_ITEMS. cbn [fold_left fst snd].
  repeat (rewrite lookup_insert;
          match goal with
          | |- context [String.eqb l ?s] =>
              destruct (String.eqb_spec l s) as [-> | ?];
              [reflexivity | rewrite decide_False by congruence]
          end).
  apply lookup_empty.
Qed.

Lemma reverse_lookup (n : Z) :
  REVERSE_MAPPING !! n =
    if (n =? 4)%Z then Some "none"
    else if (n =? 3)%Z then Some "totp"
    else if (n =? 2)%Z then Some "email"
    else if (n =? 1)%Z then Some "password"
    else if (n =? 0)%Z then Some "username"
    else None.
Proof.
  unfold REVERSE_MAPPING, dict, LABEL_ITEMS. cbn [map fold_left fst snd].
  repeat (rewrite lookup_insert;
          match goal with
          | |- context [Z.eqb n ?k] =>
              destruct (Z.eqb_spec n k) as [-> | ?];
              [reflexivity | rewrite decide_False by congruence]
          end).
  apply lookup_empty.
Qed.

(** The two label tables of the trainer are inverse to each other, and the
    class names given to the report are the labels in the order of their
    numbers. *)
Theorem label_tables_agree (l : string) (n : Z) :
  (LABEL_MAPPING !! l = Some n <-> REVERSE_MAPPING !! n = Some l) /\
  (REVERSE_MAPPING !! n = Some l <->
   (0 <= n)%Z /\ target_names !! Z.to_nat n = Some l).
Proof.
  rewrite label_lookup, reverse_lookup. split.
  - split.
    + repeat match goal with
      | |- context [String.eqb l ?s] =>
          destruct (String.eqb_spec l s) as [-> | ?]
      end; intros [= <-]; reflexivity || discriminate.
    + repeat match goal with
      | |- context [Z.eqb n ?k] => destruct (Z.eqb_spec n k) as [-> | ?]
      end; intros [= <-]; reflexivity || discriminate.
  - split.
    + repeat match goal with
      | |- context [Z.eqb n ?k] => destruct (Z.eqb_spec n k) as [-> | ?]
      end; intros [= <-]; (split; [lia | reflexivity]) || discriminate.
    + intros [H0 H].
      assert (Hlt : (Z.to_nat n < 5)%nat).
      { apply lookup_lt_Some in H. exact H. }
      assert (Hn : n = 0%Z \/ n = 1%Z \/ n = 2%Z \/ n = 3%Z \/ n = 4%Z) by lia.
      destruct Hn as [-> | [-> | [-> | [-> | ->]]]]; cbn in H |- *; exact H.
Qed.

Lemma load_loop_inv data X y X' y' :
  load_loop data X y = inr (X', y') ->
  exists Xs,
    X' = X ++ Xs /\
    y' = y ++ map (fun item => default 4%Z (LABEL_MAPPING !! rec_label item)) data /\
    Forall2 (fun item v => mapM float32 (rec_features item) = Some v) data Xs.
Proof.
  revert X y. induction data as [|item data IH]; intros X y.
  - cbn. intros [= <- <-]. exists []. rewrite !app_nil_r.
    split; [reflexivity|]. split; [reflexivity | constructor].
  - cbn [load_loop].
    destruct (mapM float32 (rec_features item)) as [v|] eqn:Hv; [|discriminate].
    cbv zeta. intros H. apply IH in H as [Xs [-> [-> HXs]]].
    exists (v :: Xs). cbn [map]. rewrite <- !app_assoc.
    split; [reflexivity|]. split; [reflexivity|]. now constructor.
Qed.

Lemma load_loop_returns data X y :
  Forall (fun item => Forall (fun x => is_Some (float32 x)) (rec_features item))
         data ->
  exists X' y', load_loop data X y = inr (X', y').
Proof.
  intros H. revert X y. induction H as [|item data Hitem _ IH]; intros X y.
  - cbn. eauto.
  - cbn [load_loop].
    assert (Hv : is_Some (mapM float32 (rec_features item))).
    { apply mapM_is_Some. exact Hitem. }
    destruct Hv as [v ->]. cbv zeta. apply IH.
Qed.

Lemma rectangular_same_length (k : nat) (X : list (list spec_float)) :
  Forall (fun v => length v = k) X -> rectangular X = true.
Proof.
  intros H. destruct H as [|v X Hv HX]; [reflexivity|]. cbn [rectangular].
  apply forallb_forall. intros v' Hin. apply Nat.eqb_eq.
  rewrite Forall_forall in HX. rewrite Hv. apply HX. now apply list_elem_of_In.
Qed.

(** load_dataset returns for a file whose records have as many numbers each
    and no int too large for a float.  It then gives one vector and one
    class number for each record, in the order of the records: the vector
    holds the numbers of the record converted to float32; the class number
    is between 0 and 4, the reverse table gives back the label of the record
    when that is one of the five labels, and "none" for any other label,
    which is counted as class 4. *)
Theorem load_dataset_labels (data : list record) :
  (forall k,
     Forall (fun item =>
               length (rec_features item) = k /\
               Forall (fun x => is_Some (float32 x)) (rec_features item))
            data ->
     exists X y, load_dataset data = inr (X, y)) /\
  (forall X y,
     load_dataset data = inr (X, y) ->
     length X = length data /\
     length y = length data /\
     forall i item, data !! i = Some item ->
       X !! i = mapM float32 (rec_features item) /\
       exists n,
         y !! i = Some n /\
         (0 <= n <= 4)%Z /\
         REVERSE_MAPPING !! n =
           Some (if bool_decide (rec_label item ∈ target_names)
                 then rec_label item else "none") /\
         (n = 4%Z <->
          rec_label item ∉ [ "username"; "password"; "email"; "totp" ])).
Proof.
  split.
  - intros k H. unfold load_dataset.
    destruct (load_loop_returns data [] []) as [X [y Hrun]].
    { eapply Forall_impl; [exact H|]. cbv beta. now intros item [_ Hitem]. }
    rewrite Hrun. pose proof (load_loop_inv _ _ _ _ _ Hrun) as [Xs [-> [_ HXs]]].
    cbn [app]. rewrite (rectangular_same_length k); [eauto|].
    apply Forall_forall. intros v Hv.
    apply list_elem_of_lookup in Hv as [i Hi].
    destruct (Forall2_lookup_r _ _ _ _ _ HXs Hi) as [item [Hitem Hconv]].
    apply length_mapM in Hconv. rewrite <- Hconv.
    rewrite Forall_forall in H. apply (H item).
    eapply list_elem_of_lookup_2, Hitem.
  - intros X y. unfold load_dataset.
    destruct (load_loop data [] []) as [e|[X' y']] eqn:Hrun; [discriminate|].
    destruct (rectangular X'); [|discriminate]. intros [= <- <-].
    apply load_loop_inv in Hrun as [Xs [-> [-> HXs]]]. cbn [app].
    split; [symmetry; eapply Forall2_length, HXs|].
    split; [apply length_map|].
    intros i item Hi. split.
    { destruct (Forall2_lookup_l _ _ _ _ _ HXs Hi) as [v [Hv Hconv]].
      now rewrite Hv, Hconv. }
    exists (default 4%Z (LABEL_MAPPING !! rec_label item)). split.
    { change (map ?f ?l) with (f <$> l). now rewrite list_lookup_fmap, Hi. }
    rewrite label_lookup. unfold target_names.
    repeat match goal with
    | |- context [String.eqb ?l ?s] => destruct (String.eqb_spec l s) as [-> | ?]
    end; cbn [from_option]; unfold id.
    1-5: (split; [lia|]; split; [vm_compute; reflexivity|]; split;
          [ first [ intros _ H;
                    repeat (apply elem_of_cons in H as [H | H]; [discriminate|]);
                    now apply elem_of_nil in H
                  | intros H; discriminate H ]
          | intros H; first [ reflexivity | exfalso; apply H; repeat constructor ] ]).
    assert (Hout : forall l : list string,
              Forall (fun s => rec_label item <> s) l -> rec_label item ∉ l).
    { intros l Hl Hin. rewrite Forall_forall in Hl. now apply (Hl _ Hin). }
    split; [lia|]. split.
    + rewrite bool_decide_eq_false_2; [vm_compute; reflexivity|].
      apply Hout. repeat constructor; assumption.
    + split; [intros _ | reflexivity].
      apply Hout. repeat constructor; assumption.
Qed.

Lemma load_dataset_labels_witness :
  exists X y,
    load_dataset [ mkRecord [ PyFloat 1; PyInt 0 ] "totp";
                   mkRecord [ PyFloat 0.1; PyInt 1 ] "other" ] = inr (X, y).
Proof.
  apply (proj1 (load_dataset_labels
                  [ mkRecord [ PyFloat 1; PyInt 0 ] "totp";
                    mkRecord [ PyFloat 0.1; PyInt 1 ] "other" ]) 2%nat).
  repeat (constructor; [split; [reflexivity|];
                        repeat (constructor; [vm_compute; eauto|]); constructor|]).
  constructor.
Defined.
